(** * A shallow embedding of the two-pass RISC-V assembler

    The development follows [src/assembler/riscv_assembler.py]: the text
    helpers of the Python runtime the assembler relies on ([str.strip],
    [str.split], [str.lower], [int]), the operand parsers, the six
    instruction encoders, pass 1 (labels and addresses), pass 2 (encoding with
    per-line diagnostics), [assemble] and the Verilog serializer.

    Conventions.
    - A Python [str] is a [string]; its characters are the code points
      0..255.  The character classes below (white space, decimal digits,
      word characters, lower-casing) are those of Python on that range.
    - A Python [int] is a [Z]; [<<], [>>], [&] and [|] are [Z.shiftl],
      [Z.shiftr], [Z.land] and [Z.lor], which agree with Python on negative
      numbers (two's complement, arithmetic shift).
    - A raised exception is a value of type [exn]; a call that may raise
      returns [result A].  [int] has the interpreter's limit on the
      number of digits of a decimal literal, at its default of 4300. *)

From Stdlib Require Import ZArith Ascii String List Lia Bool.
From stdpp Require Import base option gmap strings list.

Local Open Scope Z_scope.

#[local] Arguments String.append !s1 s2 : simpl nomatch.

(** ** Exceptions *)

(** The messages of the [ValueError]s the assembler or [int] raise. *)
Inductive value_error : Type :=
  | UnknownRegister (reg : string)
  | InvalidLiteral (base : Z) (lit : string)
  | DigitLimitExceeded (limit digits : Z)
  | NegativeShiftCount
  | ImmediateOutOfRange (value min_val max_val : Z)
  | InvalidMemoryOperand (operand : string)
  | UnknownInstruction (instr : string).

Inductive exn : Type :=
  | ValueError (e : value_error)
  | IndexError
  | KeyError (key : string)
  | SystemExit (code : Z).

(** [isinstance(e, Exception)]: [SystemExit] derives from [BaseException]
    only, the other three from [Exception]. *)
Definition is_Exception (e : exn) : bool :=
  match e with
  | SystemExit _ => false
  | _ => true
  end.

Definition result (A : Type) : Type := exn + A.

Definition raise {A} (e : exn) : result A := inl e.

#[global] Instance result_ret : MRet result := fun A a => inr a.
#[global] Instance result_bind : MBind result := fun A B k m =>
  match m with
  | inl e => inl e
  | inr a => k a
  end.

(** ** Characters *)

Definition code (c : ascii) : Z := Z.of_N (N_of_ascii c).

Definition in_range (lo hi : Z) (c : ascii) : bool :=
  (lo <=? code c) && (code c <=? hi).

(** [str.isspace] on one character. *)
Definition is_space (c : ascii) : bool :=
  in_range 9 13 c || in_range 28 32 c || (code c =? 133) || (code c =? 160).

(** Category Nd on the range 0..255: the ten ASCII digits. *)
Definition is_digit (c : ascii) : bool := in_range 48 57 c.

(** The regular expression class [\w]: alphanumeric (as [str.isalnum]) or
    the underscore. *)
Definition is_word (c : ascii) : bool :=
  is_digit c || in_range 65 90 c || in_range 97 122 c || (code c =? 95)
  || (code c =? 170) || (code c =? 178) || (code c =? 179) || (code c =? 181)
  || in_range 185 186 c || in_range 188 190 c
  || in_range 192 214 c || in_range 216 246 c || in_range 248 255 c.

(** [str.lower] on one character. *)
Definition lower_char (c : ascii) : ascii :=
  if in_range 65 90 c || (in_range 192 222 c && negb (code c =? 215))
  then ascii_of_N (N_of_ascii c + 32)
  else c.

(** ** Strings *)

Module Str.

Fixpoint map (f : ascii -> ascii) (s : string) : string :=
  match s with
  | EmptyString => EmptyString
  | String c s' => String (f c) (map f s')
  end.

Fixpoint remove (x : ascii) (s : string) : string :=
  match s with
  | EmptyString => EmptyString
  | String c s' => if Ascii.eqb c x then remove x s' else String c (remove x s')
  end.

Fixpoint contains (x : ascii) (s : string) : bool :=
  match s with
  | EmptyString => false
  | String c s' => Ascii.eqb c x || contains x s'
  end.

Fixpoint forallb (p : ascii -> bool) (s : string) : bool :=
  match s with
  | EmptyString => true
  | String c s' => p c && forallb p s'
  end.

Definition is_empty (s : string) : bool :=
  match s with
  | EmptyString => true
  | String _ _ => false
  end.

Fixpoint lstrip (s : string) : string :=
  match s with
  | EmptyString => EmptyString
  | String c s' => if is_space c then lstrip s' else s
  end.

Fixpoint rstrip (s : string) : string :=
  match s with
  | EmptyString => EmptyString
  | String c s' =>
      let r := rstrip s' in
      if is_space c && is_empty r then EmptyString else String c r
  end.

(** [s.strip()] *)
Definition strip (s : string) : string := rstrip (lstrip s).

(** [s.lower()] *)
Definition lower (s : string) : string := map lower_char s.

(** [s.replace(x, y)] for one-character [x] and [y]. *)
Definition replace (x y : ascii) (s : string) : string :=
  map (fun c => if Ascii.eqb c x then y else c) s.

(** [s.split(sep)] for a one-character separator: never the empty list. *)
Fixpoint split (sep : ascii) (s : string) : list string :=
  match s with
  | EmptyString => [EmptyString]
  | String c s' =>
      if Ascii.eqb c sep then EmptyString :: split sep s'
      else match split sep s' with
           | h :: t => String c h :: t
           | [] => [String c EmptyString]
           end
  end.

(** [s.split(sep, 1)] when [sep in s]: the text before the first [sep] and
    the text after it. *)
Fixpoint split_once (sep : ascii) (s : string) : string * string :=
  match s with
  | EmptyString => (EmptyString, EmptyString)
  | String c s' =>
      if Ascii.eqb c sep then (EmptyString, s')
      else let '(h, t) := split_once sep s' in (String c h, t)
  end.

(** [s.split()]: the maximal runs of characters that are not white space. *)
Fixpoint split_ws (s : string) : list string :=
  match s with
  | EmptyString => []
  | String c s' =>
      if is_space c then split_ws s'
      else match s' with
           | EmptyString => [String c EmptyString]
           | String c' _ =>
               if is_space c' then String c EmptyString :: split_ws s'
               else match split_ws s' with
                    | h :: t => String c h :: t
                    | [] => [String c EmptyString]
                    end
           end
  end.

(** [re.sub(r'[#;].*', '', s)] on a text without line feed: what precedes
    the first [#] or [;]. *)
Fixpoint strip_comment (s : string) : string :=
  match s with
  | EmptyString => EmptyString
  | String c s' =>
      if Ascii.eqb c "#" || Ascii.eqb c ";" then EmptyString
      else String c (strip_comment s')
  end.

(** [s.startswith(p)] *)
Fixpoint startswith (p s : string) : bool :=
  match p with
  | EmptyString => true
  | String a p' =>
      match s with
      | EmptyString => false
      | String b s' => Ascii.eqb b a && startswith p' s'
      end
  end.

(** ["\n".join(l)] *)
Fixpoint join_lines (l : list string) : string :=
  match l with
  | [] => EmptyString
  | [x] => x
  | x :: l' => x +:+ String "010" (join_lines l')
  end.

End Str.

(** ** [int(text, base)] *)

Definition digit_value (c : ascii) : option Z :=
  if is_digit c then Some (code c - 48)
  else if in_range 97 122 c then Some (code c - 87)
  else if in_range 65 90 c then Some (code c - 55)
  else None.

(** The white space [int] skips around a literal: the six ASCII blanks of
    the interpreter's own table, and the white space beyond ASCII (which it
    first turns into blanks).  The separators 28..31, white space for
    [str.strip], are not among them. *)
Definition is_int_space (c : ascii) : bool :=
  in_range 9 13 c || (code c =? 32) || (code c =? 133) || (code c =? 160).

Fixpoint int_lstrip (s : string) : string :=
  match s with
  | EmptyString => EmptyString
  | String c s' => if is_int_space c then int_lstrip s' else s
  end.

Definition is_digit_in (base : Z) (c : ascii) : bool :=
  match digit_value c with
  | Some d => d <? base
  | None => false
  end.

(** The scanning loop of the interpreter: digits of [base], with single
    underscores between them.  [prev_us] says that the previous character was
    an underscore.  Returns the value scanned and the text left. *)
Fixpoint scan_digits (base : Z) (s : string) (acc : Z) (prev_us : bool)
  : option (Z * string) :=
  match s with
  | EmptyString => if prev_us then None else Some (acc, s)
  | String c s' =>
      if Ascii.eqb c "_" then
        if prev_us then None else scan_digits base s' acc true
      else
        match digit_value c with
        | Some d =>
            if d <? base then scan_digits base s' (acc * base + d) false
            else if prev_us then None else Some (acc, s)
        | None => if prev_us then None else Some (acc, s)
        end
  end.

(** The prefix [0x] / [0b] is skipped for the bases 16 and 2, and one
    underscore after it. *)
Definition skip_base_prefix (base : Z) (s : string) : string :=
  match s with
  | String z (String x s') =>
      if Ascii.eqb z "0"
         && (((base =? 16) && (Ascii.eqb x "x" || Ascii.eqb x "X"))
             || ((base =? 8) && (Ascii.eqb x "o" || Ascii.eqb x "O"))
             || ((base =? 2) && (Ascii.eqb x "b" || Ascii.eqb x "B")))
      then match s' with
           | String u s'' => if Ascii.eqb u "_" then s'' else s'
           | EmptyString => s'
           end
      else s
  | _ => s
  end.

(** The number of digits in the run that [scan_digits] reads; the
    underscores are not counted, leading zeros are. *)
Fixpoint count_digits (base : Z) (s : string) : Z :=
  match s with
  | EmptyString => 0
  | String c s' =>
      if Ascii.eqb c "_" then count_digits base s'
      else if is_digit_in base c then 1 + count_digits base s'
      else 0
  end.

(** [sys.get_int_max_str_digits()], as the interpreter starts. *)
Definition MAX_STR_DIGITS : Z := 4300.

(** The limit is for the bases that are not a power of two. *)
Definition is_binary_base (base : Z) : bool :=
  Z.land base (base - 1) =? 0.

(** What [int] makes of a text. *)
Inductive int_reading : Type :=
  | Value (v : Z)
  | TooManyDigits (digits : Z)
  | Malformed.

(** White space around the literal is skipped, then an optional sign and
    the base prefix are read.  Once the digits are scanned their number is
    checked against the limit; only then must they reach the end of the
    text. *)
Definition int_read (base : Z) (text : string) : int_reading :=
  let s := int_lstrip text in
  let '(sign, s) :=
    match s with
    | String c s' =>
        if Ascii.eqb c "+" then (1, s')
        else if Ascii.eqb c "-" then (-1, s')
        else (1, s)
    | EmptyString => (1, s)
    end in
  let s := skip_base_prefix base s in
  match s with
  | String c _ =>
      if is_digit_in base c then
        match scan_digits base s 0 false with
        | Some (v, rest) =>
            if negb (is_binary_base base)
               && (MAX_STR_DIGITS <? count_digits base s)
            then TooManyDigits (count_digits base s)
            else if Str.is_empty (int_lstrip rest) then Value (sign * v)
            else Malformed
        | None => Malformed
        end
      else Malformed
  | EmptyString => Malformed
  end.

(** [int(text, base)], raising [ValueError] on a malformed literal and on
    one with too many digits. *)
Definition py_int (base : Z) (text : string) : result Z :=
  match int_read base text with
  | Value v => mret v
  | TooManyDigits digits =>
      raise (ValueError (DigitLimitExceeded MAX_STR_DIGITS digits))
  | Malformed => raise (ValueError (InvalidLiteral base text))
  end.

(** ** Register and opcode tables *)

Definition REGISTERS : gmap string Z := list_to_map
  [ ("x0", 0); ("zero", 0); ("x1", 1); ("ra", 1); ("x2", 2); ("sp", 2);
    ("x3", 3); ("gp", 3); ("x4", 4); ("tp", 4); ("x5", 5); ("t0", 5);
    ("x6", 6); ("t1", 6); ("x7", 7); ("t2", 7);
    ("x8", 8); ("s0", 8); ("fp", 8); ("x9", 9); ("s1", 9);
    ("x10", 10); ("a0", 10); ("x11", 11); ("a1", 11); ("x12", 12); ("a2", 12);
    ("x13", 13); ("a3", 13); ("x14", 14); ("a4", 14); ("x15", 15); ("a5", 15);
    ("x16", 16); ("a6", 16); ("x17", 17); ("a7", 17); ("x18", 18); ("s2", 18);
    ("x19", 19); ("s3", 19); ("x20", 20); ("s4", 20); ("x21", 21); ("s5", 21);
    ("x22", 22); ("s6", 22); ("x23", 23); ("s7", 23); ("x24", 24); ("s8", 24);
    ("x25", 25); ("s9", 25); ("x26", 26); ("s10", 26); ("x27", 27); ("s11", 27);
    ("x28", 28); ("t3", 28); ("x29", 29); ("t4", 29); ("x30", 30); ("t5", 30);
    ("x31", 31); ("t6", 31) ].

Definition OPCODES : gmap string Z := list_to_map
  [ ("add", 51); ("sub", 51); ("and", 51); ("or", 51); ("xor", 51);
    ("sll", 51); ("srl", 51); ("sra", 51); ("slt", 51); ("sltu", 51);
    ("addi", 19); ("andi", 19); ("ori", 19); ("xori", 19); ("slti", 19);
    ("sltiu", 19); ("slli", 19); ("srli", 19); ("srai", 19);
    ("lw", 3); ("lh", 3); ("lb", 3); ("lhu", 3); ("lbu", 3);
    ("sw", 35); ("sh", 35); ("sb", 35);
    ("beq", 99); ("bne", 99); ("blt", 99); ("bge", 99); ("bltu", 99);
    ("bgeu", 99);
    ("jal", 111); ("jalr", 103); ("lui", 55); ("auipc", 23);
    ("ecall", 115); ("halt", 115);
    ("rotl", 11); ("rotr", 11); ("rng", 11) ].

Definition FUNCT3 : gmap string Z := list_to_map
  [ ("add", 0); ("sub", 0); ("sll", 1); ("slt", 2); ("sltu", 3); ("xor", 4);
    ("srl", 5); ("sra", 5); ("or", 6); ("and", 7);
    ("addi", 0); ("slti", 2); ("sltiu", 3); ("xori", 4); ("ori", 6);
    ("andi", 7); ("slli", 1); ("srli", 5); ("srai", 5);
    ("lb", 0); ("lh", 1); ("lw", 2); ("lbu", 4); ("lhu", 5);
    ("sb", 0); ("sh", 1); ("sw", 2);
    ("beq", 0); ("bne", 1); ("blt", 4); ("bge", 5); ("bltu", 6); ("bgeu", 7);
    ("jalr", 0);
    ("rotl", 2); ("rotr", 3); ("rng", 4) ].

Definition FUNCT7 : gmap string Z := list_to_map
  [ ("add", 0); ("sub", 32); ("sll", 0); ("slt", 0); ("sltu", 0); ("xor", 0);
    ("srl", 0); ("sra", 32); ("or", 0); ("and", 0);
    ("slli", 0); ("srli", 0); ("srai", 32);
    ("rotl", 0); ("rotr", 0); ("rng", 0) ].

(** [table[key]] *)
Definition dict_get (table : gmap string Z) (key : string) : result Z :=
  match table !! key with
  | Some v => mret v
  | None => raise (KeyError key)
  end.

(** [parts[i]] *)
Definition index (parts : list string) (i : nat) : result string :=
  match parts !! i with
  | Some t => mret t
  | None => raise IndexError
  end.

(** [x in l] for a list of texts *)
Definition mem (x : string) (l : list string) : bool :=
  existsb (String.eqb x) l.

(** [1 << n] *)
Definition shl1 (n : Z) : result Z :=
  if n <? 0 then raise (ValueError NegativeShiftCount)
  else mret (Z.shiftl 1 n).

(** ** Operand parser *)

Definition parse_register (reg_str : string) : result Z :=
  let reg_str := Str.remove "," (Str.lower (Str.strip reg_str)) in
  match REGISTERS !! reg_str with
  | Some n => mret n
  | None => raise (ValueError (UnknownRegister reg_str))
  end.

(** The literal of an immediate: hexadecimal, binary or decimal. *)
Definition literal_value (imm_str : string) : result Z :=
  if Str.startswith "0x" imm_str || Str.startswith "0X" imm_str then
    py_int 16 imm_str
  else if Str.startswith "0b" imm_str || Str.startswith "0B" imm_str then
    py_int 2 imm_str
  else py_int 10 imm_str.

Definition parse_immediate (imm_str : string) (bits : Z) (signed : bool)
  : result Z :=
  let imm_str := Str.remove "," (Str.strip imm_str) in
  value ← literal_value imm_str;
  '(min_val, max_val) ←
    (if signed then
       p ← shl1 (bits - 1);
       q ← shl1 (bits - 1);
       mret (- p, q - 1)
     else
       q ← shl1 bits;
       mret (0, q - 1));
  if (value <? min_val) || (value >? max_val) then
    raise (ValueError (ImmediateOutOfRange value min_val max_val))
  else if value <? 0 then
    m ← shl1 bits;
    mret (Z.land value (m - 1))
  else mret value.

(** [span p s]: the longest prefix of [s] whose characters satisfy [p], and
    the rest. *)
Fixpoint span (p : ascii -> bool) (s : string) : string * string :=
  match s with
  | EmptyString => (EmptyString, EmptyString)
  | String c s' =>
      if p c then let '(h, t) := span p s' in (String c h, t)
      else (EmptyString, s)
  end.

(** [re.match(r'(-?\d+)\s*\(\s*(\w+)\s*\)', s)]: the two groups when the
    pattern matches a prefix of [s].  Neighbouring pieces of the pattern
    accept disjoint sets of characters, so the greedy match is the only
    one. *)
Definition match_after_sign (sign s : string) : option (string * string) :=
  let '(digits, s) := span is_digit s in
  if Str.is_empty digits then None else
  match Str.lstrip s with
  | String c s =>
      if negb (Ascii.eqb c "(") then None else
      let '(word, s) := span is_word (Str.lstrip s) in
      if Str.is_empty word then None else
      match Str.lstrip s with
      | String c _ => if Ascii.eqb c ")" then Some (sign +:+ digits, word) else None
      | EmptyString => None
      end
  | EmptyString => None
  end.

Definition match_memory_operand (s : string) : option (string * string) :=
  match s with
  | String c s' =>
      if Ascii.eqb c "-" then match_after_sign "-" s' else match_after_sign "" s
  | EmptyString => match_after_sign "" s
  end.

Definition parse_memory_operand (operand : string) : result (Z * Z) :=
  match match_memory_operand (Str.strip operand) with
  | None => raise (ValueError (InvalidMemoryOperand operand))
  | Some (g1, g2) =>
      offset ← parse_immediate g1 12 true;
      base_reg ← parse_register g2;
      mret (offset, base_reg)
  end.

(** ** Instruction encoders *)

Definition encode_r_type (instr : string) (rd rs1 rs2 : Z) : result Z :=
  opcode ← dict_get OPCODES instr;
  funct3 ← dict_get FUNCT3 instr;
  funct7 ← dict_get FUNCT7 instr;
  mret (Z.lor (Z.lor (Z.lor (Z.lor (Z.lor
    (Z.shiftl funct7 25) (Z.shiftl rs2 20)) (Z.shiftl rs1 15))
    (Z.shiftl funct3 12)) (Z.shiftl rd 7)) opcode).

Definition encode_i_type (instr : string) (rd rs1 imm : Z) : result Z :=
  opcode ← dict_get OPCODES instr;
  funct3 ← dict_get FUNCT3 instr;
  imm ← (if mem instr ["slli"; "srli"; "srai"] then
           funct7 ← dict_get FUNCT7 instr;
           mret (Z.lor (Z.shiftl funct7 5) (Z.land imm 31))
         else mret imm);
  mret (Z.lor (Z.lor (Z.lor (Z.lor
    (Z.shiftl (Z.land imm 4095) 20) (Z.shiftl rs1 15))
    (Z.shiftl funct3 12)) (Z.shiftl rd 7)) opcode).

Definition encode_s_type (instr : string) (rs2 rs1 imm : Z) : result Z :=
  opcode ← dict_get OPCODES instr;
  funct3 ← dict_get FUNCT3 instr;
  let imm_11_5 := Z.land (Z.shiftr imm 5) 127 in
  let imm_4_0 := Z.land imm 31 in
  mret (Z.lor (Z.lor (Z.lor (Z.lor (Z.lor
    (Z.shiftl imm_11_5 25) (Z.shiftl rs2 20)) (Z.shiftl rs1 15))
    (Z.shiftl funct3 12)) (Z.shiftl imm_4_0 7)) opcode).

Definition encode_b_type (instr : string) (rs1 rs2 imm : Z) : result Z :=
  opcode ← dict_get OPCODES instr;
  funct3 ← dict_get FUNCT3 instr;
  let imm_12 := Z.land (Z.shiftr imm 12) 1 in
  let imm_11 := Z.land (Z.shiftr imm 11) 1 in
  let imm_10_5 := Z.land (Z.shiftr imm 5) 63 in
  let imm_4_1 := Z.land (Z.shiftr imm 1) 15 in
  mret (Z.lor (Z.lor (Z.lor (Z.lor (Z.lor (Z.lor (Z.lor
    (Z.shiftl imm_12 31) (Z.shiftl imm_10_5 25)) (Z.shiftl rs2 20))
    (Z.shiftl rs1 15)) (Z.shiftl funct3 12)) (Z.shiftl imm_4_1 8))
    (Z.shiftl imm_11 7)) opcode).

Definition encode_u_type (instr : string) (rd imm : Z) : result Z :=
  opcode ← dict_get OPCODES instr;
  mret (Z.lor (Z.lor (Z.shiftl (Z.land imm 1048575) 12) (Z.shiftl rd 7))
          opcode).

Definition encode_j_type (instr : string) (rd imm : Z) : result Z :=
  opcode ← dict_get OPCODES instr;
  let imm_20 := Z.land (Z.shiftr imm 20) 1 in
  let imm_19_12 := Z.land (Z.shiftr imm 12) 255 in
  let imm_11 := Z.land (Z.shiftr imm 11) 1 in
  let imm_10_1 := Z.land (Z.shiftr imm 1) 1023 in
  mret (Z.lor (Z.lor (Z.lor (Z.lor (Z.lor
    (Z.shiftl imm_20 31) (Z.shiftl imm_10_1 21)) (Z.shiftl imm_11 20))
    (Z.shiftl imm_19_12 12)) (Z.shiftl rd 7)) opcode).

Definition encode_crypto (instr : string) (rd rs1 rs2 : Z) : result Z :=
  opcode ← dict_get OPCODES instr;
  funct3 ← dict_get FUNCT3 instr;
  funct7 ← dict_get FUNCT7 instr;
  mret (Z.lor (Z.lor (Z.lor (Z.lor (Z.lor
    (Z.shiftl funct7 25) (Z.shiftl rs2 20)) (Z.shiftl rs1 15))
    (Z.shiftl funct3 12)) (Z.shiftl rd 7)) opcode).

(** ** Assembler state *)

(** One entry of [self.errors].  The source formats it at once as the text
    [f"Line {line_num}: {e} - '{line}'"]; the three values it is formatted
    from are kept apart here. *)
Record diagnostic : Type := Diagnostic {
  diag_line : nat;
  diag_exn : exn;
  diag_text : string
}.

(** The attributes of a [RISCVAssembler] instance.  An entry of
    [instructions] is [(address, line, line_num)]. *)
Record assembler : Type := Assembler {
  labels : gmap string Z;
  instructions : list (Z * string * nat);
  machine_code : list Z;
  current_address : Z;
  errors : list diagnostic
}.

(** [RISCVAssembler()] *)
Definition init : assembler :=
  {| labels := ∅; instructions := []; machine_code := [];
     current_address := 0; errors := [] |}.

(** ** Pass 1: labels and addresses *)

(** The body of the loop of [first_pass], for one numbered line. *)
Definition first_pass_line (st : assembler) (line_num : nat) (line : string)
  : assembler :=
  let line := Str.strip (Str.strip_comment line) in
  if Str.is_empty line then st else
  let '(st, line) :=
    if Str.contains ":" line then
      let '(p0, p1) := Str.split_once ":" line in
      let label := Str.strip p0 in
      ({| labels := <[label := current_address st]> (labels st);
          instructions := instructions st;
          machine_code := machine_code st;
          current_address := current_address st;
          errors := errors st |},
       Str.strip p1)
    else (st, line) in
  if Str.is_empty line then st else
  {| labels := labels st;
     instructions := instructions st ++ [(current_address st, line, line_num)];
     machine_code := machine_code st;
     current_address := current_address st + 4;
     errors := errors st |}.

(** The loop [for line_num, line in enumerate(lines, n)]. *)
Fixpoint first_pass_loop (st : assembler) (n : nat) (lines : list string)
  : assembler :=
  match lines with
  | [] => st
  | line :: lines' => first_pass_loop (first_pass_line st n line) (S n) lines'
  end.

Definition first_pass (st : assembler) (lines : list string) : assembler :=
  let st := {| labels := labels st; instructions := instructions st;
               machine_code := machine_code st; current_address := 0;
               errors := errors st |} in
  first_pass_loop st 1 lines.

(** ** Pass 2: encoding *)

Definition R_TYPE : list string :=
  ["add"; "sub"; "and"; "or"; "xor"; "sll"; "srl"; "sra"; "slt"; "sltu"].
Definition I_ALU : list string :=
  ["addi"; "andi"; "ori"; "xori"; "slti"; "sltiu"].
Definition SHIFT_IMM : list string := ["slli"; "srli"; "srai"].
Definition LOADS : list string := ["lw"; "lh"; "lb"; "lhu"; "lbu"].
Definition STORES : list string := ["sw"; "sh"; "sb"].
Definition BRANCHES : list string :=
  ["beq"; "bne"; "blt"; "bge"; "bltu"; "bgeu"].

(** The dispatch of [assemble_instruction] on the tokens of the line. *)
Definition assemble_parts (lbl : gmap string Z) (parts : list string)
    (current_addr : Z) : result Z :=
  p0 ← index parts 0;
  let instr := Str.lower p0 in
  if String.eqb instr "nop" then encode_i_type "addi" 0 0 0
  else if String.eqb instr "li" then
    rd ← (p ← index parts 1; parse_register p);
    imm ← (p ← index parts 2; parse_immediate p 12 true);
    encode_i_type "addi" rd 0 imm
  else if String.eqb instr "mv" then
    rd ← (p ← index parts 1; parse_register p);
    rs ← (p ← index parts 2; parse_register p);
    encode_i_type "addi" rd rs 0
  else if String.eqb instr "j" then
    p1 ← index parts 1;
    offset ← match lbl !! p1 with
             | Some a => mret (a - current_addr)
             | None => p ← index parts 1; parse_immediate p 21 true
             end;
    encode_j_type "jal" 0 offset
  else if mem instr R_TYPE then
    rd ← (p ← index parts 1; parse_register p);
    rs1 ← (p ← index parts 2; parse_register p);
    rs2 ← (p ← index parts 3; parse_register p);
    encode_r_type instr rd rs1 rs2
  else if mem instr I_ALU then
    rd ← (p ← index parts 1; parse_register p);
    rs1 ← (p ← index parts 2; parse_register p);
    imm ← (p ← index parts 3; parse_immediate p 12 true);
    encode_i_type instr rd rs1 imm
  else if mem instr SHIFT_IMM then
    rd ← (p ← index parts 1; parse_register p);
    rs1 ← (p ← index parts 2; parse_register p);
    shamt ← (p ← index parts 3; parse_immediate p 5 false);
    encode_i_type instr rd rs1 shamt
  else if mem instr LOADS then
    rd ← (p ← index parts 1; parse_register p);
    '(offset, base) ← (p ← index parts 2; parse_memory_operand p);
    encode_i_type instr rd base offset
  else if mem instr STORES then
    rs2 ← (p ← index parts 1; parse_register p);
    '(offset, base) ← (p ← index parts 2; parse_memory_operand p);
    encode_s_type instr rs2 base offset
  else if mem instr BRANCHES then
    rs1 ← (p ← index parts 1; parse_register p);
    rs2 ← (p ← index parts 2; parse_register p);
    p3 ← index parts 3;
    offset ← match lbl !! p3 with
             | Some a => mret (a - current_addr)
             | None => p ← index parts 3; parse_immediate p 13 true
             end;
    encode_b_type instr rs1 rs2 offset
  else if String.eqb instr "jal" then
    rd ← (p ← index parts 1; parse_register p);
    p2 ← index parts 2;
    offset ← match lbl !! p2 with
             | Some a => mret (a - current_addr)
             | None => p ← index parts 2; parse_immediate p 21 true
             end;
    encode_j_type instr rd offset
  else if String.eqb instr "jalr" then
    rd ← (p ← index parts 1; parse_register p);
    p2 ← index parts 2;
    '(offset, rs1) ←
      (if Str.contains "(" p2 then
         p ← index parts 2; parse_memory_operand p
       else
         rs1 ← (p ← index parts 2; parse_register p);
         offset ← (if (3 <? length parts)%nat then
                     p ← index parts 3; parse_immediate p 12 true
                   else mret 0);
         mret (offset, rs1));
    encode_i_type instr rd rs1 offset
  else if String.eqb instr "lui" then
    rd ← (p ← index parts 1; parse_register p);
    imm ← (p ← index parts 2; parse_immediate p 20 false);
    encode_u_type instr rd imm
  else if String.eqb instr "auipc" then
    rd ← (p ← index parts 1; parse_register p);
    imm ← (p ← index parts 2; parse_immediate p 20 false);
    encode_u_type instr rd imm
  else if mem instr ["halt"; "ecall"] then mret 115
  else if String.eqb instr "rng" then
    rd ← (p ← index parts 1; parse_register p);
    encode_crypto instr rd 0 0
  else if String.eqb instr "rotl" then
    rd ← (p ← index parts 1; parse_register p);
    rs1 ← (p ← index parts 2; parse_register p);
    rs2 ← (p ← index parts 3; parse_register p);
    encode_crypto instr rd rs1 rs2
  else if String.eqb instr "rotr" then
    rd ← (p ← index parts 1; parse_register p);
    rs1 ← (p ← index parts 2; parse_register p);
    rs2 ← (p ← index parts 3; parse_register p);
    encode_crypto instr rd rs1 rs2
  else raise (ValueError (UnknownInstruction instr)).

(** [assemble_instruction(line, current_addr)], reading [self.labels]. *)
Definition assemble_instruction (lbl : gmap string Z) (line : string)
    (current_addr : Z) : result Z :=
  assemble_parts lbl (Str.split_ws (Str.replace "," " " line)) current_addr.

(** The body of the loop of [second_pass]: [except Exception] catches the
    exceptions that derive from [Exception]; any other leaves the loop. *)
Definition second_pass_step (st : assembler) (ins : Z * string * nat)
  : assembler * option exn :=
  let '(addr, line, line_num) := ins in
  match assemble_instruction (labels st) line addr with
  | inr code =>
      ({| labels := labels st; instructions := instructions st;
          machine_code := machine_code st ++ [code];
          current_address := current_address st;
          errors := errors st |}, None)
  | inl e =>
      if is_Exception e then
        ({| labels := labels st; instructions := instructions st;
            machine_code := machine_code st;
            current_address := current_address st;
            errors := errors st ++ [Diagnostic line_num e line] |}, None)
      else (st, Some e)
  end.

Fixpoint second_pass_loop (st : assembler) (todo : list (Z * string * nat))
  : assembler * option exn :=
  match todo with
  | [] => (st, None)
  | ins :: todo' =>
      match second_pass_step st ins with
      | (st', None) => second_pass_loop st' todo'
      | (st', Some e) => (st', Some e)
      end
  end.

(** [second_pass()]: the state it leaves, and the exception that left it, if
    any. *)
Definition second_pass (st : assembler) : assembler * option exn :=
  second_pass_loop st (instructions st).

(** ** [assemble] *)

(** [assemble(source)]: the state of the instance afterwards and either the
    returned [self.machine_code] or the exception that reaches the caller.
    With diagnostics the source prints them and calls [sys.exit(1)], that
    is, raises [SystemExit(1)]; the printing is left out. *)
Definition assemble (st : assembler) (source : string)
  : assembler * result (list Z) :=
  let lines := Str.split "010" source in
  let st := first_pass st lines in
  match second_pass st with
  | (st, Some e) => (st, raise e)
  | (st, None) =>
      match errors st with
      | _ :: _ => (st, raise (SystemExit 1))
      | [] => (st, mret (machine_code st))
      end
  end.

(** The instance after both passes on [source], before [assemble] looks at
    [self.errors]: what a caller finds in the attributes of the instance. *)
Definition run_passes (st : assembler) (source : string)
  : assembler * option exn :=
  second_pass (first_pass st (Str.split "010" source)).

(** ** Output: Verilog memory initialization *)

Definition digit_char (d : Z) : ascii :=
  if d <? 10 then ascii_of_N (Z.to_N (48 + d))
  else ascii_of_N (Z.to_N (55 + d)).

Fixpoint digits_fuel (fuel : nat) (base n : Z) (acc : string) : string :=
  match fuel with
  | O => acc
  | S fuel' =>
      let acc' := String (digit_char (n mod base)) acc in
      if n / base =? 0 then acc' else digits_fuel fuel' base (n / base) acc'
  end.

(** The digits of [n >= 0] in [base], upper case, most significant first. *)
Definition to_digits (base n : Z) : string :=
  digits_fuel (S (Z.to_nat (Z.log2 n))) base n EmptyString.

Fixpoint zeros (k : nat) : string :=
  match k with
  | O => EmptyString
  | S k' => String "0" (zeros k')
  end.

(** [f"{n:0wX}"] (base 16) and [f"{n}"] (base 10, width 0): zero padding
    to [width] characters, the sign counted in. *)
Definition format_int (base : Z) (width : nat) (n : Z) : string :=
  let sign := if n <? 0 then "-" else "" in
  let body := to_digits base (Z.abs n) in
  sign +:+ zeros (width - String.length sign - String.length body) +:+ body.

(** [zip(xs, ys)] *)
Fixpoint zip {A B} (xs : list A) (ys : list B) : list (A * B) :=
  match xs, ys with
  | x :: xs', y :: ys' => (x, y) :: zip xs' ys'
  | _, _ => []
  end.

(** [enumerate(l)] from [i] *)
Fixpoint enumerate {A} (i : nat) (l : list A) : list (nat * A) :=
  match l with
  | [] => []
  | x :: l' => (i, x) :: enumerate (S i) l'
  end.

(** [range(a, b)] *)
Definition range (a b : nat) : list nat := seq a (b - a).

Definition verilog_header : list string :=
  [ "// =============================================================================";
    "// RISC-V Instruction Memory - Auto-generated by riscv_assembler.py";
    "// =============================================================================";
    "";
    "    initial begin" ].

Definition verilog_entry (e : nat * (Z * (Z * string * nat))) : string :=
  let '(i, (code, (addr, asm, _))) := e in
  "        I_MEM_BLOCK[" +:+ format_int 10 0 (Z.of_nat i) +:+ "]  = 32'h"
  +:+ format_int 16 8 code +:+ ";  // 0x" +:+ format_int 16 2 addr +:+ ": "
  +:+ asm.

Definition verilog_filler (i : nat) : string :=
  "        I_MEM_BLOCK[" +:+ format_int 10 0 (Z.of_nat i)
  +:+ "] = 32'h00000013;  // nop".

Definition verilog_entries (st : assembler) : list string :=
  verilog_entry <$> enumerate 0 (zip (machine_code st) (instructions st)).

Definition verilog_fillers (st : assembler) : list string :=
  let n := length (machine_code st) in
  verilog_filler <$> range n (Nat.min (n + 5) 64).

Definition to_verilog_lines (st : assembler) : list string :=
  verilog_header ++ verilog_entries st
  ++ [""; "        // Fill remaining with NOPs"]
  ++ verilog_fillers st ++ ["    end"].

Definition to_verilog (st : assembler) : string :=
  Str.join_lines (to_verilog_lines st).

(** ** Notions used in the statements *)

(** A token of a line: not empty, without white space and without comma. *)
Definition token_char (c : ascii) : bool :=
  negb (is_space c) && negb (Ascii.eqb c ",").

Definition is_token (s : string) : bool :=
  negb (Str.is_empty s) && Str.forallb token_char s.

(** The tokens of a line, as [assemble_instruction] cuts them. *)
Definition tokenize (line : string) : list string :=
  Str.split_ws (Str.replace "," " " line).

(** A numeral of [base]: not empty, all characters digits of [base]. *)
Definition is_numeral (base : Z) (s : string) : bool :=
  negb (Str.is_empty s) && Str.forallb (is_digit_in base) s.

(** A name as the pattern [\w+] reads it: not empty, word characters only. *)
Definition is_name (s : string) : bool :=
  negb (Str.is_empty s) && Str.forallb is_word s.

(** The optional minus sign of a decimal offset. *)
Definition sign_text (neg : bool) : string := if neg then "-" else "".
Definition sign_of (neg : bool) : Z := if neg then -1 else 1.

(** The bounds of an immediate of [bits] bits. *)
Definition imm_min (bits : Z) (signed : bool) : Z :=
  if signed then - 2 ^ (bits - 1) else 0.
Definition imm_max (bits : Z) (signed : bool) : Z :=
  if signed then 2 ^ (bits - 1) - 1 else 2 ^ bits - 1.

(** The positional value of a numeral, continuing from [acc]. *)
Fixpoint numeral_value (base : Z) (s : string) (acc : Z) : Z :=
  match s with
  | EmptyString => acc
  | String c s' =>
      numeral_value base s' (acc * base + default 0 (digit_value c))
  end.

(** The number of digits of a numeral, and the error of [int] on a decimal
    numeral that has more of them than the limit allows. *)
Definition digits_of (s : string) : Z := Z.of_nat (String.length s).

Definition digit_limit_error (s : string) : exn :=
  ValueError (DigitLimitExceeded MAX_STR_DIGITS (digits_of s)).

(** The offset of a branch or jump target, as the three places of
    [assemble_instruction] that resolve one compute it: the distance to a
    known label, or else a literal of [bits] bits. *)
Definition target_offset (lbl : gmap string Z) (addr bits : Z)
    (target : string) : result Z :=
  match lbl !! target with
  | Some a => mret (a - addr)
  | None => parse_immediate target bits true
  end.

(** The label a source line registers in pass 1, if any. *)
Definition line_label (line : string) : option string :=
  let line := Str.strip (Str.strip_comment line) in
  if Str.is_empty line then None
  else if Str.contains ":" line
       then Some (Str.strip (fst (Str.split_once ":" line)))
       else None.

(** The instruction text a source line leaves pending in pass 1, if any:
    the line is not empty and not a label alone. *)
Definition line_text (line : string) : option string :=
  let line := Str.strip (Str.strip_comment line) in
  if Str.is_empty line then None else
  let line := if Str.contains ":" line
              then Str.strip (snd (Str.split_once ":" line))
              else line in
  if Str.is_empty line then None else Some line.

(** The pending texts of the lines numbered from [n], with their line
    numbers. *)
Fixpoint pending_of (n : nat) (lines : list string) : list (string * nat) :=
  match lines with
  | [] => []
  | line :: lines' =>
      match line_text line with
      | Some t => (t, n) :: pending_of (S n) lines'
      | None => pending_of (S n) lines'
      end
  end.

(** Consecutive word addresses from [a]. *)
Fixpoint with_addresses (a : Z) (l : list (string * nat))
  : list (Z * string * nat) :=
  match l with
  | [] => []
  | (t, n) :: l' => (a, t, n) :: with_addresses (a + 4) l'
  end.

(** [x] is an unsigned number of [n] bits. *)
Definition fits (n x : Z) : Prop := 0 <= x < 2 ^ n.

(** A computation that returns, if at all, a 32-bit unsigned word. *)
Definition yields_word (m : result Z) : Prop :=
  forall w, m = inr w -> fits 32 w.

(** A computation that raises, if at all, an exception [except Exception]
    catches. *)
Definition catchable {A} (m : result A) : Prop :=
  forall e, m = inl e -> is_Exception e = true.

(** The offset field of a B-type word, put back in order: imm[12|10:5] sit
    in bits 31:25 and imm[4:1|11] in bits 11:7, bit 0 being zero. *)
Definition b_type_field (word : Z) : Z :=
  let imm_12 := Z.land (Z.shiftr word 31) 1 in
  let imm_10_5 := Z.land (Z.shiftr word 25) 63 in
  let imm_4_1 := Z.land (Z.shiftr word 8) 15 in
  let imm_11 := Z.land (Z.shiftr word 7) 1 in
  Z.lor (Z.lor (Z.lor (Z.shiftl imm_12 12) (Z.shiftl imm_11 11))
           (Z.shiftl imm_10_5 5)) (Z.shiftl imm_4_1 1).

(** The offset a B-type word carries: its field read as a 13-bit signed
    number. *)
Definition b_type_offset (word : Z) : Z :=
  let u := b_type_field word in
  if u <? 4096 then u else u - 8192.

(** The two halves of a B-type word: the bits that come from the offset,
    and those of the registers, funct3 and the opcode. *)
Definition b_type_imm_bits (imm : Z) : Z :=
  Z.lor (Z.lor (Z.lor
    (Z.shiftl (Z.land (Z.shiftr imm 12) 1) 31)
    (Z.shiftl (Z.land (Z.shiftr imm 5) 63) 25))
    (Z.shiftl (Z.land (Z.shiftr imm 1) 15) 8))
    (Z.shiftl (Z.land (Z.shiftr imm 11) 1) 7).

Definition b_type_other_bits (rs1 rs2 funct3 opcode : Z) : Z :=
  Z.lor (Z.lor (Z.lor (Z.shiftl rs2 20) (Z.shiftl rs1 15))
           (Z.shiftl funct3 12)) opcode.

(** The fields of an I-type word. *)
Definition i_type_fields (word : Z) : Z * Z * Z * Z * Z :=
  (Z.shiftr word 20, Z.land (Z.shiftr word 15) 31, Z.land (Z.shiftr word 12) 7,
   Z.land (Z.shiftr word 7) 31, Z.land word 127).

(** The outcome of encoding one pending instruction against the label
    table. *)
Definition encode_pending (lbl : gmap string Z) (ins : Z * string * nat)
  : result Z :=
  assemble_instruction lbl ins.1.2 ins.1.1.

Definition pending_line (ins : Z * string * nat) : nat := ins.2.

(** The words and the diagnostics pass 2 owes to a list of pending
    instructions. *)
Definition words_of (lbl : gmap string Z) (l : list (Z * string * nat))
  : list Z :=
  omap (fun ins => match encode_pending lbl ins with
                   | inr w => Some w
                   | inl _ => None
                   end) l.

Definition diagnostics_of (lbl : gmap string Z) (l : list (Z * string * nat))
  : list diagnostic :=
  omap (fun ins => match encode_pending lbl ins with
                   | inr _ => None
                   | inl e => Some (Diagnostic ins.2 e ins.1.2)
                   end) l.

(** The diagnostics that carry the line number [k]. *)
Definition same_line (k : nat) (d : diagnostic) : bool :=
  Nat.eqb (diag_line d) k.

(** The end-to-end example: a label on a line of its own, a backward
    branch to it, and [halt]. *)
Definition loop_source : string :=
  Str.join_lines ["loop:"; " add x2,x2,x3"; " bne x1,x2,loop"; " halt"].

(** A label defined twice, around a label defined once. *)
Definition duplicate_label_source : string :=
  Str.join_lines ["top: addi x1,x0,1"; "next: addi x2,x0,2"; "top: halt"].

(** Five lines, the third of which names a register that does not exist. *)
Definition five_lines_source : string :=
  Str.join_lines ["addi x1, x0, 1"; "addi x2, x0, 2"; "addi x99, x0, 3";
                  "addi x4, x0, 4"; "addi x5, x0, 5"].

(** A source with [n] lines [nop] between a first line and a last line. *)
Fixpoint nop_lines (n : nat) (rest : string) : string :=
  match n with
  | O => rest
  | S n' => "nop" +:+ String "010" (nop_lines n' rest)
  end.

(** A forward branch over 1023 instructions: [beq] at address 0, the label
    [far] at address 4096. *)
Definition far_branch_source : string :=
  "beq x0, x0, far" +:+ String "010" (nop_lines 1023 "far: halt").

(** ** The other outputs *)

(** [to_hex()]: three comment lines and an empty one, then one line per
    pair of [zip(self.machine_code, self.instructions)]. *)
Definition hex_header (st : assembler) : list string :=
  [ "// RISC-V Machine Code - Generated by riscv_assembler.py";
    "// Total instructions: "
      +:+ format_int 10 0 (Z.of_nat (length (machine_code st)));
    "// Format: ADDRESS: MACHINE_CODE  // ASM";
    "" ].

Definition hex_entry (e : nat * (Z * (Z * string * nat))) : string :=
  let '(_, (code, (addr, asm, _))) := e in
  "0x" +:+ format_int 16 8 addr +:+ ": 0x" +:+ format_int 16 8 code
  +:+ "  // " +:+ asm.

Definition to_hex_lines (st : assembler) : list string :=
  hex_header st
  ++ (hex_entry <$> enumerate 0 (zip (machine_code st) (instructions st))).

Definition to_hex (st : assembler) : string :=
  Str.join_lines (to_hex_lines st).

(** [to_mem()]: one line [f"{code:08X}"] per word. *)
Definition to_mem_lines (st : assembler) : list string :=
  format_int 16 8 <$> machine_code st.

Definition to_mem (st : assembler) : string :=
  Str.join_lines (to_mem_lines st).

(** ** The handlers of the graphical front end *)

(** What [export_hex], [export_verilog] and [export_mem] of
    [assembler_gui.py] end with.  The three differ by the serializer they
    call, [render] here.  [filename] is what the file dialog returns, the
    empty text when it is dismissed; writing the file is taken to
    succeed.  The dialog of the [except Exception] branch shows [str(e)]:
    it is kept as the exception. *)
Inductive export_outcome : Type :=
  | ErrorDialog (message : string)
  | ExceptionDialog (e : exn)
  | FileWritten (filename content : string)
  | NothingWritten
  | Escapes (e : exn).

Definition export_with (render : assembler -> string)
    (source filename : string) : export_outcome :=
  match assemble init source with
  | (_, inl e) => if is_Exception e then ExceptionDialog e else Escapes e
  | (asm, inr _) =>
      match errors asm with
      | _ :: _ => ErrorDialog "Cannot export - assembly has errors"
      | [] =>
          if Str.is_empty filename then NothingWritten
          else FileWritten filename (render asm)
      end
  end.

Definition export_hex : string -> string -> export_outcome :=
  export_with to_hex.
Definition export_verilog : string -> string -> export_outcome :=
  export_with to_verilog.
Definition export_mem : string -> string -> export_outcome :=
  export_with to_mem.

(** What the handler [assemble] of [assembler_gui.py] ends with.
    [generate_listing] goes through [asm.labels] in the order of insertion,
    which the table of the model does not keep: its text is a parameter,
    [listing].  What is shown: the number of errors and the error dialog;
    the dialog of the [except Exception] branch; or the listing, the texts
    of [to_hex] and [to_verilog] and the number of words. *)
Inductive assemble_view : Type :=
  | ErrorsShown (count : nat)
  | ExceptionShown (e : exn)
  | OutputsShown (listing hex verilog : string) (count : nat)
  | Leaves (e : exn).

Definition gui_assemble (listing : assembler -> string) (source : string)
  : assemble_view :=
  match assemble init source with
  | (_, inl e) => if is_Exception e then ExceptionShown e else Leaves e
  | (asm, inr _) =>
      match errors asm with
      | _ :: _ => ErrorsShown (length (errors asm))
      | [] =>
          OutputsShown (listing asm) (to_hex asm) (to_verilog asm)
            (length (machine_code asm))
      end
  end.

(** ** Reading a word back *)

(** The [width] bits of [word] from bit [lo] on. *)
Definition field (word lo width : Z) : Z :=
  Z.land (Z.shiftr word lo) (Z.ones width).

(** An unsigned number of [bits] bits read as a signed one. *)
Definition sign_extend (bits u : Z) : Z :=
  if u <? 2 ^ (bits - 1) then u else u - 2 ^ bits.

(** The immediate of an S-type word: imm[11:5] in bits 31:25, imm[4:0] in
    bits 11:7. *)
Definition s_type_field (word : Z) : Z :=
  Z.lor (Z.shiftl (field word 25 7) 5) (field word 7 5).

(** The offset field of a J-type word, put back in order: imm[20|10:1|11|
    19:12] sit in bits 31:12, bit 0 being zero. *)
Definition j_type_field (word : Z) : Z :=
  Z.lor (Z.lor (Z.lor (Z.shiftl (field word 31 1) 20)
                      (Z.shiftl (field word 12 8) 12))
               (Z.shiftl (field word 20 1) 11))
        (Z.shiftl (field word 21 10) 1).

(** ** Notions used in the further statements *)

(** All the mnemonics [assemble_instruction] tests for, in its order. *)
Definition MNEMONICS : list string :=
  ["nop"; "li"; "mv"; "j"] ++ R_TYPE ++ I_ALU ++ SHIFT_IMM ++ LOADS ++ STORES
  ++ BRANCHES
  ++ ["jal"; "jalr"; "lui"; "auipc"] ++ ["halt"; "ecall"]
  ++ ["rng"; "rotl"; "rotr"].


(** The line registers the label [l]; none of the lines does. *)
Definition registers (l line : string) : bool :=
  match line_label line with
  | Some l' => String.eqb l' l
  | None => false
  end.

Definition not_registered (l : string) (lines : list string) : bool :=
  forallb (fun line => negb (registers l line)) lines.

(** The errors that come from the operands of a line: one is missing, or it
    is not a register, a literal, a value of the field or a memory
    operand. *)
Definition is_operand_error (e : exn) : bool :=
  match e with
  | IndexError => true
  | ValueError (UnknownRegister _) => true
  | ValueError (InvalidLiteral _ _) => true
  | ValueError (DigitLimitExceeded _ _) => true
  | ValueError (ImmediateOutOfRange _ _ _) => true
  | ValueError (InvalidMemoryOperand _) => true
  | _ => false
  end.

(** A computation that raises, if at all, an operand error. *)
Definition operand_errors_only {A} (m : result A) : Prop :=
  forall e, m = inl e -> is_operand_error e = true.

(** [key in table] *)
Definition has_key (table : gmap string Z) (key : string) : bool :=
  match table !! key with
  | Some _ => true
  | None => false
  end.

(** Whatever the first computation returns, the second returns too. *)
Definition succeeds_as {A} (m m' : result A) : Prop :=
  forall a, m = inr a -> m' = inr a.

(** The instruction a mnemonic stands for: [nop], [li] and [mv] are
    encoded as [addi], [j] as [jal], and [halt] as [ecall] is. *)
Definition canonical (instr : string) : string :=
  if mem instr ["nop"; "li"; "mv"] then "addi"
  else if String.eqb instr "j" then "jal"
  else if String.eqb instr "halt" then "ecall"
  else instr.

(** The instruction of a line, when the line has a token. *)
Definition instruction_of (line : string) : option string :=
  (fun p0 => canonical (Str.lower p0)) <$> head (tokenize line).

(** The instructions proper. *)
Definition INSTRUCTIONS : list string :=
  R_TYPE ++ I_ALU ++ SHIFT_IMM ++ LOADS ++ STORES ++ BRANCHES
  ++ ["jal"; "jalr"; "lui"; "auipc"; "ecall"; "rng"; "rotl"; "rotr"].

(** The mnemonics whose word holds a funct7. *)
Definition uses_funct7 (instr : string) : bool :=
  mem instr (R_TYPE ++ SHIFT_IMM ++ ["rng"; "rotl"; "rotr"]).

Definition holds (entry : option Z) (x : Z) : bool :=
  match entry with
  | Some v => v =? x
  | None => false
  end.

(** The word has the opcode of the instruction and, where the instruction
    has them, its funct3 and its funct7. *)
Definition reads_as (instr : string) (word : Z) : bool :=
  holds (OPCODES !! instr) (field word 0 7)
  && (if has_key FUNCT3 instr
      then holds (FUNCT3 !! instr) (field word 12 3) else true)
  && (if uses_funct7 instr
      then holds (FUNCT7 !! instr) (field word 25 7) else true).

(** Two instructions that a word could both be read as. *)
Definition alike (i j : string) : bool :=
  match OPCODES !! i, OPCODES !! j with
  | Some a, Some b => a =? b
  | _, _ => false
  end
  && (if has_key FUNCT3 i && has_key FUNCT3 j
      then match FUNCT3 !! i, FUNCT3 !! j with
           | Some a, Some b => a =? b
           | _, _ => false
           end
      else true)
  && (if uses_funct7 i && uses_funct7 j
      then match FUNCT7 !! i, FUNCT7 !! j with
           | Some a, Some b => a =? b
           | _, _ => false
           end
      else true).

(** * Properties *)

(** ** Texts and tokens *)

Section Texts.

Lemma app_assoc_str (a b c : string) : (a +:+ b) +:+ c = a +:+ (b +:+ c).
Proof. induction a as [|x a IH]; simpl; [reflexivity | f_equal; exact IH]. Qed.

Lemma map_app_str f (a b : string) :
  Str.map f (a +:+ b) = Str.map f a +:+ Str.map f b.
Proof. induction a as [|x a IH]; simpl; [reflexivity | f_equal; exact IH]. Qed.

Lemma forallb_app p (a b : string) :
  Str.forallb p (a +:+ b) = Str.forallb p a && Str.forallb p b.
Proof.
  induction a as [|x a IH]; simpl; [reflexivity |].
  rewrite IH. now rewrite andb_assoc.
Qed.

Lemma forallb_impl (p q : ascii -> bool) s :
  (forall c, p c = true -> q c = true) ->
  Str.forallb p s = true -> Str.forallb q s = true.
Proof.
  intros Hpq. induction s as [|c s IH]; simpl; [reflexivity |].
  intros [Hc Hs]%andb_true_iff. rewrite (Hpq _ Hc). simpl. now apply IH.
Qed.

Lemma replace_id x y s :
  Str.forallb (fun c => negb (Ascii.eqb c x)) s = true ->
  Str.replace x y s = s.
Proof.
  unfold Str.replace. induction s as [|c s IH]; simpl; [reflexivity |].
  intros [Hc Hs]%andb_true_iff. apply negb_true_iff in Hc.
  rewrite Hc. now rewrite IH.
Qed.

Lemma remove_id x s :
  Str.forallb (fun c => negb (Ascii.eqb c x)) s = true ->
  Str.remove x s = s.
Proof.
  induction s as [|c s IH]; simpl; [reflexivity |].
  intros [Hc Hs]%andb_true_iff. apply negb_true_iff in Hc.
  rewrite Hc. now rewrite IH.
Qed.

Lemma lstrip_id c s : is_space c = false -> Str.lstrip (String c s) = String c s.
Proof. intros H. simpl. now rewrite H. Qed.

Lemma rstrip_id s :
  Str.forallb (fun c => negb (is_space c)) s = true -> Str.rstrip s = s.
Proof.
  induction s as [|c s IH]; simpl; [reflexivity |].
  intros [Hc Hs]%andb_true_iff. apply negb_true_iff in Hc.
  rewrite Hc. simpl. now rewrite IH.
Qed.

Lemma strip_id s :
  Str.forallb (fun c => negb (is_space c)) s = true -> Str.strip s = s.
Proof.
  intros H. unfold Str.strip.
  destruct s as [|c s]; [reflexivity |].
  pose proof H as H'. simpl in H'. apply andb_true_iff in H' as [Hc _].
  apply negb_true_iff in Hc. rewrite (lstrip_id _ _ Hc). now apply rstrip_id.
Qed.

Lemma split_ws_cons t c rest :
  Str.is_empty t = false ->
  Str.forallb (fun c => negb (is_space c)) t = true ->
  is_space c = true ->
  Str.split_ws (t +:+ String c rest) = t :: Str.split_ws rest.
Proof.
  intros Hne Ht Hc. induction t as [|a t IH]; [discriminate |].
  simpl in Ht. apply andb_true_iff in Ht as [Ha Ht].
  apply negb_true_iff in Ha.
  destruct t as [|b t].
  - simpl. now rewrite Ha, Hc.
  - specialize (IH eq_refl Ht).
    pose proof Ht as Hb. simpl in Hb. apply andb_true_iff in Hb as [Hb _].
    apply negb_true_iff in Hb.
    change (String a (String b t) +:+ String c rest)
      with (String a (String b t +:+ String c rest)).
    change (Str.split_ws (String a (String b t +:+ String c rest)))
      with (if is_space a then Str.split_ws (String b t +:+ String c rest)
            else if is_space b
                 then [String a EmptyString]
                        ++ Str.split_ws (String b t +:+ String c rest)
                 else match Str.split_ws (String b t +:+ String c rest) with
                      | h :: tl => String a h :: tl
                      | [] => [String a EmptyString]
                      end).
    now rewrite Ha, Hb, IH.
Qed.

Lemma split_ws_last t :
  Str.is_empty t = false ->
  Str.forallb (fun c => negb (is_space c)) t = true ->
  Str.split_ws t = [t].
Proof.
  intros Hne Ht. induction t as [|a t IH]; [discriminate |].
  simpl in Ht. apply andb_true_iff in Ht as [Ha Ht].
  apply negb_true_iff in Ha.
  destruct t as [|b t].
  - simpl. now rewrite Ha.
  - specialize (IH eq_refl Ht).
    pose proof Ht as Hb. simpl in Hb. apply andb_true_iff in Hb as [Hb _].
    apply negb_true_iff in Hb.
    change (Str.split_ws (String a (String b t)))
      with (if is_space a then Str.split_ws (String b t)
            else if is_space b
                 then [String a EmptyString] ++ Str.split_ws (String b t)
                 else match Str.split_ws (String b t) with
                      | h :: tl => String a h :: tl
                      | [] => [String a EmptyString]
                      end).
    now rewrite Ha, Hb, IH.
Qed.

Lemma is_token_parts t :
  is_token t = true ->
  Str.is_empty t = false
  /\ Str.forallb (fun c => negb (is_space c)) t = true
  /\ Str.forallb (fun c => negb (Ascii.eqb c ",")) t = true.
Proof.
  unfold is_token. intros [Hne H]%andb_true_iff.
  apply negb_true_iff in Hne. repeat split; [exact Hne | |].
  - eapply forallb_impl; [| exact H]. intros c Hc. unfold token_char in Hc.
    now apply andb_true_iff in Hc as [? _].
  - eapply forallb_impl; [| exact H]. intros c Hc. unfold token_char in Hc.
    now apply andb_true_iff in Hc as [_ ?].
Qed.

(** A token followed by a comma or a white space is the first token of
    the line. *)
Lemma tokenize_cons t c rest :
  is_token t = true ->
  is_space c || Ascii.eqb c "," = true ->
  tokenize (t +:+ String c rest) = t :: tokenize rest.
Proof.
  intros (Hne & Hsp & Hco)%is_token_parts Hc. unfold tokenize, Str.replace.
  rewrite map_app_str. fold (Str.replace "," " " t).
  rewrite (replace_id _ _ _ Hco). simpl.
  apply split_ws_cons; [exact Hne | exact Hsp |].
  destruct (Ascii.eqb c ",") eqn:E; [reflexivity |].
  now rewrite orb_false_r in Hc.
Qed.

Lemma tokenize_last t : is_token t = true -> tokenize t = [t].
Proof.
  intros (Hne & Hsp & Hco)%is_token_parts. unfold tokenize.
  rewrite (replace_id _ _ _ Hco). now apply split_ws_last.
Qed.

Lemma tokenize_skip c rest :
  is_space c || Ascii.eqb c "," = true ->
  tokenize (String c rest) = tokenize rest.
Proof.
  intros Hc. unfold tokenize, Str.replace. simpl.
  destruct (Ascii.eqb c ",") eqn:E; [reflexivity |].
  rewrite orb_false_r in Hc. now rewrite Hc.
Qed.

End Texts.

(** ** The dispatch of [assemble_instruction] *)

Section Dispatch.

Variable lbl : gmap string Z.
Variable addr : Z.

Lemma parts_nop rest :
  assemble_parts lbl ("nop" :: rest) addr = encode_i_type "addi" 0 0 0.
Proof. reflexivity. Qed.

Lemma parts_li rd imm rest :
  assemble_parts lbl ("li" :: rd :: imm :: rest) addr
  = (rd' ← parse_register rd; imm' ← parse_immediate imm 12 true;
     encode_i_type "addi" rd' 0 imm').
Proof. reflexivity. Qed.

Lemma parts_mv rd rs rest :
  assemble_parts lbl ("mv" :: rd :: rs :: rest) addr
  = (rd' ← parse_register rd; rs' ← parse_register rs;
     encode_i_type "addi" rd' rs' 0).
Proof. reflexivity. Qed.

Lemma parts_j target rest :
  assemble_parts lbl ("j" :: target :: rest) addr
  = (offset ← target_offset lbl addr 21 target; encode_j_type "jal" 0 offset).
Proof. unfold target_offset. reflexivity. Qed.

Lemma parts_addi rd rs imm rest :
  assemble_parts lbl ("addi" :: rd :: rs :: imm :: rest) addr
  = (rd' ← parse_register rd; rs' ← parse_register rs;
     imm' ← parse_immediate imm 12 true;
     encode_i_type "addi" rd' rs' imm').
Proof. reflexivity. Qed.

Lemma parts_branch instr rs1 rs2 target rest :
  In instr BRANCHES ->
  assemble_parts lbl (instr :: rs1 :: rs2 :: target :: rest) addr
  = (n1 ← parse_register rs1; n2 ← parse_register rs2;
     offset ← target_offset lbl addr 13 target;
     encode_b_type instr n1 n2 offset).
Proof.
  unfold target_offset. intros H. simpl in H.
  repeat (destruct H as [<- | H]; [reflexivity |]). destruct H.
Qed.

Lemma parts_jal rd target rest :
  assemble_parts lbl ("jal" :: rd :: target :: rest) addr
  = (rd' ← parse_register rd; offset ← target_offset lbl addr 21 target;
     encode_j_type "jal" rd' offset).
Proof. unfold target_offset. reflexivity. Qed.

Lemma parts_jalr_reg rd rs :
  Str.contains "(" rs = false ->
  assemble_parts lbl ["jalr"; rd; rs] addr
  = (rd' ← parse_register rd; rs' ← parse_register rs;
     encode_i_type "jalr" rd' rs' 0).
Proof.
  intros H.
  transitivity
    (rd' ← parse_register rd;
     '(offset, rs1) ←
       (if Str.contains "(" rs then parse_memory_operand rs
        else rs1 ← parse_register rs; mret (0, rs1));
     encode_i_type "jalr" rd' rs1 offset); [reflexivity |].
  rewrite H. destruct (parse_register rd); [reflexivity |].
  destruct (parse_register rs); reflexivity.
Qed.

Lemma parts_jalr_reg_imm rd rs imm rest :
  Str.contains "(" rs = false ->
  assemble_parts lbl ("jalr" :: rd :: rs :: imm :: rest) addr
  = (rd' ← parse_register rd; rs' ← parse_register rs;
     offset ← parse_immediate imm 12 true;
     encode_i_type "jalr" rd' rs' offset).
Proof.
  intros H.
  transitivity
    (rd' ← parse_register rd;
     '(offset, rs1) ←
       (if Str.contains "(" rs then parse_memory_operand rs
        else rs1 ← parse_register rs;
             offset ← parse_immediate imm 12 true; mret (offset, rs1));
     encode_i_type "jalr" rd' rs1 offset); [reflexivity |].
  rewrite H. destruct (parse_register rd); [reflexivity |].
  destruct (parse_register rs); [reflexivity |].
  destruct (parse_immediate imm 12 true); reflexivity.
Qed.

Lemma parts_jalr_mem rd operand rest :
  Str.contains "(" operand = true ->
  assemble_parts lbl ("jalr" :: rd :: operand :: rest) addr
  = (rd' ← parse_register rd;
     '(offset, rs1) ← parse_memory_operand operand;
     encode_i_type "jalr" rd' rs1 offset).
Proof.
  intros H.
  transitivity
    (rd' ← parse_register rd;
     '(offset, rs1) ←
       (if Str.contains "(" operand then parse_memory_operand operand
        else rs1 ← parse_register operand;
             offset ← (if (3 <? length ("jalr" :: rd :: operand :: rest))%nat
                       then p ← index ("jalr" :: rd :: operand :: rest) 3;
                            parse_immediate p 12 true
                       else mret 0);
             mret (offset, rs1));
     encode_i_type "jalr" rd' rs1 offset); [reflexivity |].
  now rewrite H.
Qed.

End Dispatch.

(** ** Characters and numerals *)

Section Numerals.

Local Ltac each_char c :=
  destruct c as [[] [] [] [] [] [] [] []]; vm_compute; intuition congruence.

Lemma digit_value_facts c :
  digit_value c <> None ->
  Ascii.eqb c "_" = false /\ Ascii.eqb c "+" = false
  /\ Ascii.eqb c "-" = false /\ Ascii.eqb c "," = false
  /\ Ascii.eqb c "(" = false /\ is_space c = false.
Proof. each_char c. Qed.

Lemma is_int_space_is_space c : is_space c = false -> is_int_space c = false.
Proof. each_char c. Qed.

Lemma int_lstrip_id c s :
  is_space c = false -> int_lstrip (String c s) = String c s.
Proof. intros H%is_int_space_is_space. simpl. now rewrite H. Qed.

Lemma is_digit_facts c :
  is_digit c = true ->
  is_digit_in 10 c = true /\ Ascii.eqb c "x" = false
  /\ Ascii.eqb c "X" = false /\ Ascii.eqb c "b" = false
  /\ Ascii.eqb c "B" = false /\ is_word c = true.
Proof. each_char c. Qed.

Lemma is_word_facts c :
  is_word c = true ->
  is_space c = false /\ Ascii.eqb c "," = false
  /\ Ascii.eqb c "(" = false /\ Ascii.eqb c ")" = false.
Proof. each_char c. Qed.

Lemma is_digit_in_value base c :
  is_digit_in base c = true ->
  exists d, digit_value c = Some d /\ d < base.
Proof.
  unfold is_digit_in. destruct (digit_value c) as [d|]; [| discriminate].
  intros H%Z.ltb_lt. eauto.
Qed.

Lemma is_digit_in_facts base c :
  is_digit_in base c = true ->
  Ascii.eqb c "_" = false /\ Ascii.eqb c "+" = false
  /\ Ascii.eqb c "-" = false /\ Ascii.eqb c "," = false
  /\ Ascii.eqb c "(" = false /\ is_space c = false.
Proof.
  intros (d & Hd & _)%is_digit_in_value. apply digit_value_facts. congruence.
Qed.

(** The scanning loop reads a numeral to its end and returns its
    positional value. *)
Lemma scan_digits_numeral base s acc :
  Str.forallb (is_digit_in base) s = true ->
  scan_digits base s acc false = Some (numeral_value base s acc, EmptyString).
Proof.
  revert acc. induction s as [|c s IH]; intros acc H; [reflexivity |].
  simpl in H. apply andb_true_iff in H as [Hc Hs].
  destruct (is_digit_in_facts _ _ Hc) as (Hus & _).
  destruct (is_digit_in_value _ _ Hc) as (d & Hd & Hlt).
  simpl. rewrite Hus, Hd. simpl.
  apply Z.ltb_lt in Hlt. rewrite Hlt. apply IH, Hs.
Qed.

Lemma numeral_head base s :
  is_numeral base s = true ->
  exists c s', s = String c s' /\ is_digit_in base c = true
               /\ Str.forallb (is_digit_in base) s = true.
Proof.
  unfold is_numeral. destruct s as [|c s']; [discriminate |].
  simpl. intros [Hc Hs]%andb_true_iff. exists c, s'.
  rewrite Hc, Hs. auto.
Qed.

Lemma skip_base_prefix_10 s : skip_base_prefix 10 s = s.
Proof.
  destruct s as [|z [|x s]]; try reflexivity.
  unfold skip_base_prefix. simpl. now rewrite andb_false_r.
Qed.

(** In a numeral every character counts as a digit. *)
Lemma count_digits_numeral base s :
  Str.forallb (is_digit_in base) s = true ->
  count_digits base s = digits_of s.
Proof.
  unfold digits_of. induction s as [|c s IH]; [reflexivity |].
  simpl Str.forallb. intros [Hc Hs]%andb_true_iff.
  destruct (is_digit_in_facts _ _ Hc) as (Hus & _).
  cbn [count_digits String.length]. rewrite Hus, Hc, (IH Hs). lia.
Qed.

(** [int] on an unsigned numeral whose base prefix, if any, has been
    read. *)
Lemma int_read_body base sign s :
  is_numeral base s = true ->
  match s with
  | String c _ =>
      if is_digit_in base c then
        match scan_digits base s 0 false with
        | Some (v, rest) =>
            if negb (is_binary_base base)
               && (MAX_STR_DIGITS <? count_digits base s)
            then TooManyDigits (count_digits base s)
            else if Str.is_empty (int_lstrip rest) then Value (sign * v)
            else Malformed
        | None => Malformed
        end
      else Malformed
  | EmptyString => Malformed
  end = if negb (is_binary_base base) && (MAX_STR_DIGITS <? digits_of s)
        then TooManyDigits (digits_of s)
        else Value (sign * numeral_value base s 0).
Proof.
  intros (c & s' & -> & Hc & Hall)%numeral_head.
  rewrite Hc, (scan_digits_numeral _ _ _ Hall).
  rewrite (count_digits_numeral _ _ Hall). reflexivity.
Qed.

Lemma int_read_decimal s :
  is_numeral 10 s = true ->
  int_read 10 s = if MAX_STR_DIGITS <? digits_of s
                  then TooManyDigits (digits_of s)
                  else Value (numeral_value 10 s 0).
Proof.
  intros H. pose proof H as (c & s' & -> & Hc & Hall)%numeral_head.
  destruct (is_digit_in_facts _ _ Hc) as (_ & Hp & Hm & _ & _ & Hsp).
  unfold int_read. rewrite (int_lstrip_id _ _ Hsp), Hp, Hm.
  rewrite skip_base_prefix_10, (int_read_body 10 1 _ H).
  change (negb (is_binary_base 10)) with true. cbn [andb].
  destruct (_ <? _); [reflexivity | f_equal; lia].
Qed.

Lemma int_read_negative s :
  is_numeral 10 s = true ->
  int_read 10 (String "-" s) = if MAX_STR_DIGITS <? digits_of s
                               then TooManyDigits (digits_of s)
                               else Value (- numeral_value 10 s 0).
Proof.
  intros H. unfold int_read.
  change (int_lstrip (String "-" s)) with (String "-" s). cbv iota beta.
  change (Ascii.eqb "-" "+") with false.
  change (Ascii.eqb "-" "-") with true. cbv iota beta.
  rewrite skip_base_prefix_10, (int_read_body 10 (-1) _ H).
  change (negb (is_binary_base 10)) with true. cbn [andb].
  destruct (_ <? _); [reflexivity | f_equal; lia].
Qed.


End Numerals.

(** ** Immediates *)

Section Immediates.

Lemma numeral_clean base s :
  is_numeral base s = true ->
  Str.forallb (fun c => negb (is_space c)) s = true
  /\ Str.forallb (fun c => negb (Ascii.eqb c ",")) s = true.
Proof.
  intros (c & s' & _ & _ & Hall)%numeral_head. split.
  - eapply forallb_impl; [| exact Hall]. intros x Hx.
    destruct (is_digit_in_facts _ _ Hx) as (_ & _ & _ & _ & _ & ->).
    reflexivity.
  - eapply forallb_impl; [| exact Hall]. intros x Hx.
    destruct (is_digit_in_facts _ _ Hx) as (_ & _ & _ & -> & _).
    reflexivity.
Qed.

Lemma is_digit_in_10 x : is_digit_in 10 x = true -> is_digit x = true.
Proof.
  unfold is_digit_in, digit_value. intros Hx.
  destruct (is_digit x); [reflexivity |]. exfalso.
  destruct (in_range 97 122 x) eqn:E1.
  - unfold in_range in E1. apply andb_true_iff in E1 as [E1 _].
    apply Z.leb_le in E1. apply Z.ltb_lt in Hx. lia.
  - destruct (in_range 65 90 x) eqn:E2; [| discriminate].
    unfold in_range in E2. apply andb_true_iff in E2 as [E2 _].
    apply Z.leb_le in E2. apply Z.ltb_lt in Hx. lia.
Qed.

Lemma decimal_no_prefix s :
  is_numeral 10 s = true ->
  Str.startswith "0x" s = false /\ Str.startswith "0X" s = false
  /\ Str.startswith "0b" s = false /\ Str.startswith "0B" s = false.
Proof.
  intros H. destruct s as [|z [|x s]]; [discriminate | |].
  - simpl. rewrite !andb_false_r. auto.
  - assert (Hx : is_digit x = true).
    { unfold is_numeral in H. simpl in H.
      apply andb_true_iff in H as [_ H]. apply andb_true_iff in H as [Hx _].
      now apply is_digit_in_10. }
    destruct (is_digit_facts _ Hx) as (_ & Ex & EX & Eb & EB & _).
    simpl. rewrite Ex, EX, Eb, EB. rewrite !andb_false_r. auto.
Qed.

Lemma literal_decimal s :
  is_numeral 10 s = true ->
  literal_value s = if MAX_STR_DIGITS <? digits_of s
                    then inl (digit_limit_error s)
                    else inr (numeral_value 10 s 0).
Proof.
  intros H. unfold literal_value, py_int. rewrite (int_read_decimal _ H).
  destruct (decimal_no_prefix _ H) as (-> & -> & -> & ->).
  now destruct (_ <? _).
Qed.

Lemma literal_negative s :
  is_numeral 10 s = true ->
  literal_value (String "-" s) = if MAX_STR_DIGITS <? digits_of s
                                 then inl (digit_limit_error s)
                                 else inr (- numeral_value 10 s 0).
Proof.
  intros H. unfold literal_value, py_int.
  change (Str.startswith "0x" (String "-" s)) with false.
  change (Str.startswith "0X" (String "-" s)) with false.
  change (Str.startswith "0b" (String "-" s)) with false.
  change (Str.startswith "0B" (String "-" s)) with false.
  cbn [orb]. rewrite (int_read_negative _ H). now destruct (_ <? _).
Qed.



Lemma shl1_pow n : 0 <= n -> shl1 n = inr (2 ^ n).
Proof.
  intros H. unfold shl1. destruct (n <? 0) eqn:E.
  - apply Z.ltb_lt in E. lia.
  - now rewrite Z.shiftl_1_l.
Qed.

Lemma land_mask v bits : 0 <= bits -> Z.land v (2 ^ bits - 1) = v mod 2 ^ bits.
Proof.
  intros H. rewrite <- Z.land_ones by exact H.
  now rewrite Z.ones_equiv, Z.sub_1_r.
Qed.

Lemma parse_immediate_value tok bits signed v :
  0 < bits ->
  literal_value (Str.remove "," (Str.strip tok)) = inr v ->
  parse_immediate tok bits signed
  = if (v <? imm_min bits signed) || (v >? imm_max bits signed)
    then inl (ValueError (ImmediateOutOfRange v (imm_min bits signed)
                            (imm_max bits signed)))
    else inr (if v <? 0 then v + 2 ^ bits else v).
Proof.
  intros Hb Hv. unfold parse_immediate. rewrite Hv.
  assert (Hpow : 2 ^ bits = 2 * 2 ^ (bits - 1)).
  { rewrite <- Z.pow_succ_r by lia. f_equal. lia. }
  assert (Hpos : 0 < 2 ^ (bits - 1)) by (apply Z.pow_pos_nonneg; lia).
  unfold imm_min, imm_max. destruct signed.
  - rewrite (shl1_pow (bits - 1)) by lia. cbn -[Z.pow Z.land].
    destruct ((v <? - 2 ^ (bits - 1)) || (v >? 2 ^ (bits - 1) - 1)) eqn:E;
      [reflexivity |].
    apply orb_false_iff in E as [E1 E2].
    apply Z.ltb_ge in E1. rewrite Z.gtb_ltb in E2. apply Z.ltb_ge in E2.
    destruct (v <? 0) eqn:E0; [| reflexivity].
    apply Z.ltb_lt in E0. rewrite (shl1_pow bits) by lia.
    cbn -[Z.pow Z.land]. f_equal. rewrite land_mask by lia.
    symmetry. apply Z.mod_unique with (q := -1); lia.
  - rewrite (shl1_pow bits) by lia. cbn -[Z.pow Z.land].
    destruct ((v <? 0) || (v >? 2 ^ bits - 1)) eqn:E; [reflexivity |].
    apply orb_false_iff in E as [E1 E2]. now rewrite E1.
Qed.

End Immediates.

(** ** Memory operands *)

Section MemoryOperands.

Lemma span_app p h c t :
  Str.forallb p h = true -> p c = false ->
  span p (h +:+ String c t) = (h, String c t).
Proof.
  intros Hh Hc. induction h as [|x h IH]; simpl.
  - now rewrite Hc.
  - simpl in Hh. apply andb_true_iff in Hh as [Hx Hh].
    now rewrite Hx, (IH Hh).
Qed.

Lemma span_spec p s h t :
  span p s = (h, t) -> Str.forallb p h = true /\ s = h +:+ t.
Proof.
  revert h t. induction s as [|c s IH]; intros h t; simpl.
  - intros [= <- <-]. auto.
  - destruct (p c) eqn:Hc.
    + destruct (span p s) as [h' t'] eqn:E. intros [= <- <-].
      destruct (IH _ _ eq_refl) as [Hh ->]. simpl. now rewrite Hc, Hh.
    + intros [= <- <-]. auto.
Qed.

Lemma decimal_digits s :
  Str.forallb is_digit s = true -> Str.forallb (is_digit_in 10) s = true.
Proof.
  apply forallb_impl. intros c Hc. now destruct (is_digit_facts _ Hc).
Qed.

Lemma numeral_digits s :
  is_numeral 10 s = true -> Str.forallb is_digit s = true.
Proof.
  unfold is_numeral. intros [_ H]%andb_true_iff.
  eapply forallb_impl; [| exact H]. apply is_digit_in_10.
Qed.

(** The text [-digits] or [digits] is a literal, free of white space and
    commas, whose value is the signed decimal value, if [int] accepts the
    number of its digits. *)
Lemma signed_literal neg digits :
  is_numeral 10 digits = true ->
  Str.remove "," (Str.strip (sign_text neg +:+ digits))
    = sign_text neg +:+ digits
  /\ literal_value (sign_text neg +:+ digits)
     = if MAX_STR_DIGITS <? digits_of digits
       then inl (digit_limit_error digits)
       else inr (sign_of neg * numeral_value 10 digits 0).
Proof.
  intros H. destruct (numeral_clean _ _ H) as [Hsp Hco].
  destruct neg; unfold sign_text, sign_of.
  - change ("-" +:+ digits) with (String "-" digits). split.
    + rewrite strip_id by (simpl; exact Hsp).
      apply remove_id. simpl. exact Hco.
    + rewrite (literal_negative _ H).
      destruct (_ <? _); [reflexivity | f_equal; lia].
  - change ("" +:+ digits) with digits. split.
    + rewrite (strip_id _ Hsp). now apply remove_id.
    + rewrite (literal_decimal _ H).
      destruct (_ <? _); [reflexivity | f_equal; lia].
Qed.

(** What the pattern captures is such a text. *)
Lemma matched_after_sign sg s g1 g2 :
  match_after_sign sg s = Some (g1, g2) ->
  exists digits, g1 = sg +:+ digits /\ is_numeral 10 digits = true.
Proof.
  unfold match_after_sign. intros H.
  destruct (span is_digit s) as [digits r'] eqn:Es.
  destruct (span_spec _ _ _ _ Es) as [Hd _].
  destruct (Str.is_empty digits) eqn:Ee; [discriminate |].
  destruct (Str.lstrip r') as [|c r1]; [discriminate |].
  destruct (negb (Ascii.eqb c "(")); [discriminate |].
  destruct (span is_word (Str.lstrip r1)) as [word r2].
  destruct (Str.is_empty word); [discriminate |].
  destruct (Str.lstrip r2) as [|c2 r3]; [discriminate |].
  destruct (Ascii.eqb c2 ")"); [| discriminate].
  injection H as <- <-. exists digits. split; [reflexivity |].
  unfold is_numeral. rewrite Ee. simpl. now apply decimal_digits.
Qed.

Lemma matched_groups s g1 g2 :
  match_memory_operand s = Some (g1, g2) ->
  exists neg digits,
    g1 = sign_text neg +:+ digits /\ is_numeral 10 digits = true.
Proof.
  unfold match_memory_operand. intros H.
  destruct s as [|c s'].
  - apply matched_after_sign in H as (d & ? & ?). now exists false, d.
  - destruct (Ascii.eqb c "-");
      apply matched_after_sign in H as (d & ? & ?);
      [now exists true, d | now exists false, d].
Qed.

Lemma match_after_sign_form sg digits reg rest :
  is_numeral 10 digits = true -> is_name reg = true ->
  match_after_sign sg (digits +:+ String "(" (reg +:+ String ")" rest))
  = Some (sg +:+ digits, reg).
Proof.
  intros Hd Hr.
  pose proof (numeral_digits _ Hd) as Hdig.
  unfold is_numeral in Hd. apply andb_true_iff in Hd as [Hdne _].
  unfold is_name in Hr. apply andb_true_iff in Hr as [Hne Hw].
  apply negb_true_iff in Hdne, Hne.
  unfold match_after_sign.
  rewrite (span_app is_digit digits "(" _ Hdig eq_refl), Hdne.
  change (Str.lstrip (String "(" (reg +:+ String ")" rest)))
    with (String "(" (reg +:+ String ")" rest)).
  change (negb (Ascii.eqb "(" "(")) with false. cbv iota.
  assert (Hl : Str.lstrip (reg +:+ String ")" rest) = reg +:+ String ")" rest).
  { destruct reg as [|w reg']; [discriminate |].
    simpl in Hw. apply andb_true_iff in Hw as [Hw0 _].
    destruct (is_word_facts _ Hw0) as (Hwsp & _).
    exact (lstrip_id _ _ Hwsp). }
  rewrite Hl, (span_app is_word reg ")" _ Hw eq_refl), Hne.
  reflexivity.
Qed.

(** The pattern matches every text [<int>(<name>)], whatever follows. *)
Lemma match_form neg digits reg rest :
  is_numeral 10 digits = true -> is_name reg = true ->
  match_memory_operand
    (sign_text neg +:+ digits +:+ String "(" (reg +:+ String ")" rest))
  = Some (sign_text neg +:+ digits, reg).
Proof.
  intros Hd Hr. destruct neg; unfold sign_text.
  - change ("-" +:+ digits +:+ String "(" (reg +:+ String ")" rest))
      with (String "-" (digits +:+ String "(" (reg +:+ String ")" rest))).
    unfold match_memory_operand. change (Ascii.eqb "-" "-") with true.
    cbv iota. now apply match_after_sign_form.
  - change ("" +:+ digits +:+ String "(" (reg +:+ String ")" rest))
      with (digits +:+ String "(" (reg +:+ String ")" rest)).
    pose proof Hd as (c & d' & -> & Hc & _)%numeral_head.
    destruct (is_digit_in_facts _ _ Hc) as (_ & _ & Hm & _).
    change (String c d' +:+ String "(" (reg +:+ String ")" rest))
      with (String c (d' +:+ String "(" (reg +:+ String ")" rest))).
    unfold match_memory_operand. rewrite Hm.
    change (String c (d' +:+ String "(" (reg +:+ String ")" rest)))
      with (String c d' +:+ String "(" (reg +:+ String ")" rest)).
    now apply match_after_sign_form.
Qed.

End MemoryOperands.

Section OperandForms.

Lemma contains_app x (a b : string) :
  Str.contains x (a +:+ b) = Str.contains x a || Str.contains x b.
Proof.
  induction a as [|c a IH]; simpl; [reflexivity |].
  now rewrite IH, orb_assoc.
Qed.

Lemma is_empty_app (a b : string) :
  Str.is_empty (a +:+ b) = Str.is_empty a && Str.is_empty b.
Proof. destruct a; reflexivity. Qed.

Lemma numeral_token_chars base s :
  is_numeral base s = true -> Str.forallb token_char s = true.
Proof.
  intros (c & s' & _ & _ & Hall)%numeral_head.
  eapply forallb_impl; [| exact Hall]. intros x Hx. unfold token_char.
  destruct (is_digit_in_facts _ _ Hx) as (_ & _ & _ & -> & _ & ->).
  reflexivity.
Qed.

Lemma name_token_chars s : is_name s = true -> Str.forallb token_char s = true.
Proof.
  unfold is_name. intros [_ H]%andb_true_iff.
  eapply forallb_impl; [| exact H]. intros x Hx. unfold token_char.
  destruct (is_word_facts _ Hx) as (-> & -> & _). reflexivity.
Qed.

(** The text [<int>(<name>)] is one token, with a parenthesis, that
    [strip] leaves as it is. *)
Lemma operand_text_facts neg digits reg :
  is_numeral 10 digits = true -> is_name reg = true ->
  let operand := sign_text neg +:+ digits +:+ String "(" (reg +:+ ")") in
  is_token operand = true /\ Str.contains "(" operand = true
  /\ Str.strip operand = operand.
Proof.
  intros Hd Hr operand.
  assert (Hall : Str.forallb token_char operand = true).
  { subst operand. rewrite !forallb_app.
    rewrite (numeral_token_chars _ _ Hd). simpl.
    rewrite forallb_app, (name_token_chars _ Hr).
    destruct neg; reflexivity. }
  assert (Hne : Str.is_empty operand = false).
  { subst operand. rewrite !is_empty_app. simpl.
    now rewrite !andb_false_r. }
  repeat split.
  - unfold is_token. rewrite Hne. exact Hall.
  - subst operand. rewrite !contains_app. simpl. now rewrite !orb_true_r.
  - apply strip_id. eapply forallb_impl; [| exact Hall].
    intros c Hc. unfold token_char in Hc.
    now apply andb_true_iff in Hc as [? _].
Qed.

Lemma parse_memory_operand_form neg digits reg :
  is_numeral 10 digits = true -> is_name reg = true ->
  parse_memory_operand (sign_text neg +:+ digits +:+ String "(" (reg +:+ ")"))
  = (offset ← parse_immediate (sign_text neg +:+ digits) 12 true;
     base_reg ← parse_register reg;
     mret (offset, base_reg)).
Proof.
  intros Hd Hr.
  destruct (operand_text_facts neg _ _ Hd Hr) as (_ & _ & Hs).
  unfold parse_memory_operand. rewrite Hs.
  change (reg +:+ ")") with (reg +:+ String ")" EmptyString).
  now rewrite (match_form neg _ _ _ Hd Hr).
Qed.

(** A decimal offset against the limit of [int], then against the 12-bit
    signed range. *)
Lemma parse_offset neg digits :
  is_numeral 10 digits = true ->
  let v := sign_of neg * numeral_value 10 digits 0 in
  parse_immediate (sign_text neg +:+ digits) 12 true
  = if MAX_STR_DIGITS <? digits_of digits
    then inl (digit_limit_error digits)
    else if (v <? -2048) || (v >? 2047)
    then inl (ValueError (ImmediateOutOfRange v (-2048) 2047))
    else inr (if v <? 0 then v + 4096 else v).
Proof.
  intros Hd v. destruct (signed_literal neg _ Hd) as [Hc Hv]. revert Hv.
  destruct (MAX_STR_DIGITS <? digits_of digits); intros Hv.
  - unfold parse_immediate. cbv zeta. rewrite Hc, Hv. reflexivity.
  - rewrite (parse_immediate_value _ 12 true v); [reflexivity | lia |].
    now rewrite Hc.
Qed.

(** Whatever the pattern has matched, the offset it captured is read and
    range checked before the register is looked at. *)
Lemma parse_memory_operand_matched operand g1 g2 :
  match_memory_operand (Str.strip operand) = Some (g1, g2) ->
  exists neg digits,
    g1 = sign_text neg +:+ digits /\ is_numeral 10 digits = true
    /\ let v := sign_of neg * numeral_value 10 digits 0 in
       if MAX_STR_DIGITS <? digits_of digits
       then literal_value g1 = inl (digit_limit_error digits)
            /\ parse_memory_operand operand = inl (digit_limit_error digits)
       else literal_value g1 = inr v
            /\ parse_memory_operand operand
               = if (v <? -2048) || (v >? 2047)
                 then inl (ValueError (ImmediateOutOfRange v (-2048) 2047))
                 else (base_reg ← parse_register g2;
                       mret (if v <? 0 then v + 4096 else v, base_reg)).
Proof.
  intros H. destruct (matched_groups _ _ _ H) as (neg & digits & -> & Hd).
  exists neg, digits. split; [reflexivity | split; [exact Hd |]]. cbv zeta.
  unfold parse_memory_operand. rewrite H.
  rewrite (parse_offset neg _ Hd). cbv zeta.
  destruct (signed_literal neg _ Hd) as [_ Hv]. revert Hv.
  destruct (MAX_STR_DIGITS <? digits_of digits); intros Hv;
    (split; [exact Hv |]); [reflexivity |].
  now destruct ((_ <? -2048) || (_ >? 2047)).
Qed.

Lemma parse_register_error reg e :
  parse_register reg = inl e -> exists r, e = ValueError (UnknownRegister r).
Proof.
  unfold parse_register.
  destruct (REGISTERS !! _); [discriminate |]. intros [= <-]. eauto.
Qed.

End OperandForms.

(** ** Single instructions *)

Section Instructions.

Variable lbl : gmap string Z.
Variable addr : Z.

Local Ltac first_token t :=
  rewrite (tokenize_cons t) by (assumption || reflexivity).

(** C6: [addi x5, x0, 7] encodes to the word 0x00700293, whose fields are
    imm = 7 (bits 31:20), rs1 = 0, funct3 = 000, rd = 5 and
    opcode = 0010011, whatever the label table and the address. *)
Theorem C6_addi_x5_x0_7 :
  assemble_instruction lbl "addi x5, x0, 7" addr = inr 0x00700293
  /\ i_type_fields 0x00700293 = (7, 0, 0, 5, 19)
  /\ snd (assemble init "addi x5, x0, 7") = inr [0x00700293].
Proof. repeat split; vm_compute; reflexivity. Qed.

(** C5: a pseudo-instruction encodes as its expansion does (to the same
    word, or with the same error when an operand is rejected): [nop] as
    [addi x0,x0,0], [li rd,imm] as [addi rd,x0,imm], [mv rd,rs] as
    [addi rd,rs,0] and [j target] as [jal x0,target], the target being
    resolved in the same way. *)
Theorem C5_pseudo_instructions (rd rs imm target : string) :
  is_token rd = true -> is_token rs = true ->
  is_token imm = true -> is_token target = true ->
  (assemble_instruction lbl "nop" addr
     = assemble_instruction lbl "addi x0,x0,0" addr
   /\ assemble_instruction lbl "nop" addr = inr 0x00000013)
  /\ (assemble_instruction lbl ("li " +:+ rd +:+ "," +:+ imm) addr
        = assemble_instruction lbl ("addi " +:+ rd +:+ ",x0," +:+ imm) addr
      /\ assemble_instruction lbl ("li " +:+ rd +:+ "," +:+ imm) addr
           = (rd' ← parse_register rd; imm' ← parse_immediate imm 12 true;
              encode_i_type "addi" rd' 0 imm'))
  /\ (assemble_instruction lbl ("mv " +:+ rd +:+ "," +:+ rs) addr
        = assemble_instruction lbl ("addi " +:+ rd +:+ "," +:+ rs +:+ ",0") addr
      /\ assemble_instruction lbl ("mv " +:+ rd +:+ "," +:+ rs) addr
           = (rd' ← parse_register rd; rs' ← parse_register rs;
              encode_i_type "addi" rd' rs' 0))
  /\ (assemble_instruction lbl ("j " +:+ target) addr
        = assemble_instruction lbl ("jal x0," +:+ target) addr
      /\ assemble_instruction lbl ("j " +:+ target) addr
           = (offset ← target_offset lbl addr 21 target;
              encode_j_type "jal" 0 offset)).
Proof.
  intros Hrd Hrs Himm Htg. unfold assemble_instruction.
  fold (tokenize "nop"). fold (tokenize "addi x0,x0,0").
  fold (tokenize ("li " +:+ rd +:+ "," +:+ imm)).
  fold (tokenize ("addi " +:+ rd +:+ ",x0," +:+ imm)).
  fold (tokenize ("mv " +:+ rd +:+ "," +:+ rs)).
  fold (tokenize ("addi " +:+ rd +:+ "," +:+ rs +:+ ",0")).
  fold (tokenize ("j " +:+ target)). fold (tokenize ("jal x0," +:+ target)).
  assert (Eli : tokenize ("li " +:+ rd +:+ "," +:+ imm) = ["li"; rd; imm]).
  { change ("li " +:+ rd +:+ "," +:+ imm)
      with ("li" +:+ String " " (rd +:+ String "," imm)).
    first_token "li". first_token rd. now rewrite tokenize_last. }
  assert (Eaddi1 : tokenize ("addi " +:+ rd +:+ ",x0," +:+ imm)
                   = ["addi"; rd; "x0"; imm]).
  { change ("addi " +:+ rd +:+ ",x0," +:+ imm)
      with ("addi" +:+ String " " (rd +:+ String "," ("x0" +:+ String "," imm))).
    first_token "addi". first_token rd. first_token "x0".
    now rewrite tokenize_last. }
  assert (Emv : tokenize ("mv " +:+ rd +:+ "," +:+ rs) = ["mv"; rd; rs]).
  { change ("mv " +:+ rd +:+ "," +:+ rs)
      with ("mv" +:+ String " " (rd +:+ String "," rs)).
    first_token "mv". first_token rd. now rewrite tokenize_last. }
  assert (Eaddi2 : tokenize ("addi " +:+ rd +:+ "," +:+ rs +:+ ",0")
                   = ["addi"; rd; rs; "0"]).
  { change ("addi " +:+ rd +:+ "," +:+ rs +:+ ",0")
      with ("addi" +:+ String " " (rd +:+ String "," (rs +:+ String "," "0"))).
    first_token "addi". first_token rd. first_token rs.
    reflexivity. }
  assert (Ej : tokenize ("j " +:+ target) = ["j"; target]).
  { change ("j " +:+ target) with ("j" +:+ String " " target).
    first_token "j". now rewrite tokenize_last. }
  assert (Ejal : tokenize ("jal x0," +:+ target) = ["jal"; "x0"; target]).
  { change ("jal x0," +:+ target)
      with ("jal" +:+ String " " ("x0" +:+ String "," target)).
    first_token "jal". first_token "x0". now rewrite tokenize_last. }
  rewrite Eli, Eaddi1, Emv, Eaddi2, Ej, Ejal.
  rewrite parts_li, parts_mv, parts_j, !parts_addi, parts_jal.
  repeat split; reflexivity.
Qed.

End Instructions.

(** A use of C5 on [li x5,7] and [mv x5,x6]. *)
Lemma C5_pseudo_instructions_witness :
  assemble_instruction ∅ "li x5,7" 0 = assemble_instruction ∅ "addi x5,x0,7" 0
  /\ assemble_instruction ∅ "mv x5,x6" 0
       = assemble_instruction ∅ "addi x5,x6,0" 0.
Proof.
  destruct (C5_pseudo_instructions ∅ 0 "x5" "x6" "7" "8"
              eq_refl eq_refl eq_refl eq_refl)
    as (_ & (Hli & _) & (Hmv & _) & _).
  split; [exact Hli | exact Hmv].
Defined.

(** ** Range checks *)




(** C10: on a text [<int>(<name>)] whose offset has at most 4300 digits
    and lies outside [-2048, 2047], [parse_memory_operand] raises the
    out-of-range error of the 12-bit signed immediate, whether the name is a
    register or not; on one whose offset has more digits it raises the error
    of [int] on too many digits.  It raises the invalid-operand error
    exactly when the pattern, an integer followed by a parenthesized word at
    the start of the text, does not match. *)
Theorem C10_memory_operand_errors :
  (forall neg digits reg,
      is_numeral 10 digits = true -> is_name reg = true ->
      digits_of digits <= MAX_STR_DIGITS ->
      let v := sign_of neg * numeral_value 10 digits 0 in
      v < -2048 \/ 2047 < v ->
      parse_memory_operand (sign_text neg +:+ digits +:+ "(" +:+ reg +:+ ")")
      = inl (ValueError (ImmediateOutOfRange v (-2048) 2047)))
  /\ (forall neg digits reg,
         is_numeral 10 digits = true -> is_name reg = true ->
         MAX_STR_DIGITS < digits_of digits ->
         parse_memory_operand
           (sign_text neg +:+ digits +:+ "(" +:+ reg +:+ ")")
         = inl (digit_limit_error digits))
  /\ (forall operand g1 g2,
         match_memory_operand (Str.strip operand) = Some (g1, g2) ->
         (exists v, literal_value g1 = inr v
                    /\ (v < -2048 \/ 2047 < v ->
                        parse_memory_operand operand
                        = inl (ValueError
                                 (ImmediateOutOfRange v (-2048) 2047))))
         \/ (exists neg digits,
                g1 = sign_text neg +:+ digits
                /\ is_numeral 10 digits = true
                /\ MAX_STR_DIGITS < digits_of digits
                /\ literal_value g1 = inl (digit_limit_error digits)
                /\ parse_memory_operand operand
                   = inl (digit_limit_error digits)))
  /\ (forall operand,
         (exists s, parse_memory_operand operand
                    = inl (ValueError (InvalidMemoryOperand s)))
         <-> match_memory_operand (Str.strip operand) = None).
Proof.
  assert (Hout : forall v, v < -2048 \/ 2047 < v ->
                           (v <? -2048) || (v >? 2047) = true).
  { intros v [H | H]; apply orb_true_iff; [left | right].
    - now apply Z.ltb_lt.
    - rewrite Z.gtb_ltb. now apply Z.ltb_lt. }
  split; [| split; [| split]].
  - intros neg digits reg Hd Hr Hl v Hv. apply Z.ltb_ge in Hl.
    change ("(" +:+ reg +:+ ")") with (String "(" (reg +:+ ")")).
    rewrite (parse_memory_operand_form neg _ _ Hd Hr).
    rewrite (parse_offset neg _ Hd), Hl. cbv zeta. fold v.
    now rewrite (Hout v Hv).
  - intros neg digits reg Hd Hr Hl. apply Z.ltb_lt in Hl.
    change ("(" +:+ reg +:+ ")") with (String "(" (reg +:+ ")")).
    rewrite (parse_memory_operand_form neg _ _ Hd Hr).
    now rewrite (parse_offset neg _ Hd), Hl.
  - intros operand g1 g2 H.
    destruct (parse_memory_operand_matched _ _ _ H)
      as (neg & digits & Hg & Hd & Hp). cbv zeta in Hp.
    destruct (Z.ltb_spec MAX_STR_DIGITS (digits_of digits)) as [Hl | Hl];
      destruct Hp as [Hv Hp].
    + right. exists neg, digits. auto.
    + left. eexists. split; [exact Hv |]. intros Hr.
      now rewrite Hp, (Hout _ Hr).
  - intros operand. split.
    + intros [s Hs].
      destruct (match_memory_operand (Str.strip operand)) as [[g1 g2]|] eqn:E;
        [| reflexivity].
      destruct (parse_memory_operand_matched _ _ _ E)
        as (neg & digits & _ & _ & Hp). cbv zeta in Hp.
      destruct (MAX_STR_DIGITS <? digits_of digits);
        destruct Hp as [_ Hp]; rewrite Hp in Hs; [discriminate |].
      destruct ((_ <? -2048) || (_ >? 2047)); [discriminate |].
      destruct (parse_register g2) as [e|n] eqn:Er; [| discriminate].
      apply parse_register_error in Er as [r ->]. discriminate.
    + intros H. exists operand. unfold parse_memory_operand. now rewrite H.
Qed.

(** A use of C10 on [5000(x2)] and on [-2049(nosuchregister)]. *)
Lemma C10_memory_operand_errors_witness :
  parse_memory_operand "5000(x2)"
    = inl (ValueError (ImmediateOutOfRange 5000 (-2048) 2047))
  /\ parse_memory_operand "-2049(nosuchregister)"
     = inl (ValueError (ImmediateOutOfRange (-2049) (-2048) 2047)).
Proof.
  destruct C10_memory_operand_errors as (H & _). split.
  - apply (H false "5000" "x2" eq_refl eq_refl).
    + vm_compute. discriminate.
    + right. vm_compute. reflexivity.
  - apply (H true "2049" "nosuchregister" eq_refl eq_refl).
    + vm_compute. discriminate.
    + left. vm_compute. reflexivity.
Defined.

(** Where the offset is out of range and another error is raised: the
    offset [0...04096] of 4301 digits has the value 4096, the pattern
    matches, and the error is that of [int] on too many digits. *)
Lemma C10_long_offset :
  is_numeral 10 (zeros 4297 +:+ "4096") = true
  /\ numeral_value 10 (zeros 4297 +:+ "4096") 0 = 4096
  /\ match_memory_operand (Str.strip (zeros 4297 +:+ "4096(x2)"))
     = Some (zeros 4297 +:+ "4096", "x2")
  /\ parse_memory_operand (zeros 4297 +:+ "4096(x2)")
     = inl (ValueError (DigitLimitExceeded 4300 4301))
  /\ parse_memory_operand (zeros 4297 +:+ "4096(x2)")
     <> inl (ValueError (ImmediateOutOfRange 4096 (-2048) 2047)).
Proof.
  assert (H : parse_memory_operand (zeros 4297 +:+ "4096(x2)")
              = inl (ValueError (DigitLimitExceeded 4300 4301)))
    by (vm_compute; reflexivity).
  split; [reflexivity | split; [reflexivity | split; [reflexivity |]]].
  split; [exact H |]. rewrite H. discriminate.
Qed.

(** ** The two forms of [jalr] *)

Lemma encode_jalr_total rd rs1 imm :
  encode_i_type "jalr" rd rs1 imm
  = inr (Z.lor (Z.lor (Z.lor (Z.lor
      (Z.shiftl (Z.land imm 4095) 20) (Z.shiftl rs1 15))
      (Z.shiftl 0 12)) (Z.shiftl rd 7)) 103).
Proof. reflexivity. Qed.

(** C9: [jalr] takes the register form [jalr rd, rs1], with an optional
    third immediate operand, and the memory-operand form
    [jalr rd, offset(rs1)]; without the third operand the offset encoded is
    0.  Each form gives the I-type word of [jalr] on the operands parsed,
    or the error of the first operand that is rejected. *)
Theorem C9_jalr_forms (lbl : gmap string Z) (addr : Z)
    (rd rs imm digits base : string) (neg : bool) :
  is_token rd = true -> is_token rs = true -> is_token imm = true ->
  Str.contains "(" rs = false ->
  is_numeral 10 digits = true -> is_name base = true ->
  assemble_instruction lbl ("jalr " +:+ rd +:+ ", " +:+ rs) addr
    = (rd' ← parse_register rd; rs' ← parse_register rs;
       encode_i_type "jalr" rd' rs' 0)
  /\ assemble_instruction lbl ("jalr " +:+ rd +:+ ", " +:+ rs +:+ ", " +:+ imm)
       addr
     = (rd' ← parse_register rd; rs' ← parse_register rs;
        offset ← parse_immediate imm 12 true;
        encode_i_type "jalr" rd' rs' offset)
  /\ assemble_instruction lbl
       ("jalr " +:+ rd +:+ ", " +:+ sign_text neg +:+ digits
          +:+ "(" +:+ base +:+ ")") addr
     = (rd' ← parse_register rd;
        offset ← parse_immediate (sign_text neg +:+ digits) 12 true;
        rs' ← parse_register base;
        encode_i_type "jalr" rd' rs' offset)
  /\ (forall rd' rs' offset,
         exists word, encode_i_type "jalr" rd' rs' offset = inr word
                      /\ Z.land word 127 = 103).
Proof.
  intros Hrd Hrs Himm Hpar Hd Hb. unfold assemble_instruction.
  fold (tokenize ("jalr " +:+ rd +:+ ", " +:+ rs)).
  fold (tokenize ("jalr " +:+ rd +:+ ", " +:+ rs +:+ ", " +:+ imm)).
  fold (tokenize ("jalr " +:+ rd +:+ ", " +:+ sign_text neg +:+ digits
                    +:+ "(" +:+ base +:+ ")")).
  split; [| split; [| split]].
  - change ("jalr " +:+ rd +:+ ", " +:+ rs)
      with ("jalr" +:+ String " " (rd +:+ String "," (String " " rs))).
    rewrite (tokenize_cons "jalr"), (tokenize_cons rd), tokenize_skip,
      (tokenize_last rs) by (assumption || reflexivity).
    now apply parts_jalr_reg.
  - change ("jalr " +:+ rd +:+ ", " +:+ rs +:+ ", " +:+ imm)
      with ("jalr" +:+ String " " (rd +:+ String ","
              (String " " (rs +:+ String "," (String " " imm))))).
    rewrite (tokenize_cons "jalr"), (tokenize_cons rd), tokenize_skip,
      (tokenize_cons rs), tokenize_skip, (tokenize_last imm)
      by (assumption || reflexivity).
    now apply parts_jalr_reg_imm.
  - destruct (operand_text_facts neg _ _ Hd Hb) as (Htok & Hcont & _).
    cbv zeta in Htok, Hcont.
    change ("jalr " +:+ rd +:+ ", " +:+ sign_text neg +:+ digits
              +:+ "(" +:+ base +:+ ")")
      with ("jalr" +:+ String " " (rd +:+ String "," (String " "
              (sign_text neg +:+ digits +:+ String "(" (base +:+ ")"))))).
    rewrite (tokenize_cons "jalr"), (tokenize_cons rd), tokenize_skip,
      (tokenize_last _ Htok) by (assumption || reflexivity).
    rewrite (parts_jalr_mem _ _ _ _ _ Hcont).
    rewrite (parse_memory_operand_form neg _ _ Hd Hb).
    destruct (parse_register rd); [reflexivity |].
    destruct (parse_immediate _ 12 true); [reflexivity |].
    destruct (parse_register base); reflexivity.
  - intros rd' rs' offset. rewrite encode_jalr_total. eexists.
    split; [reflexivity |].
    apply Z.bits_inj'. intros n Hn.
    rewrite Z.land_spec, !Z.lor_spec, !Z.shiftl_spec by lia.
    change 127 with (Z.ones 7).
    destruct (Z.ltb_spec n 7) as [Hlt | Hge].
    + rewrite Z.ones_spec_low by lia.
      rewrite (Z.testbit_neg_r _ (n - 20)), (Z.testbit_neg_r _ (n - 15)),
        (Z.testbit_neg_r _ (n - 12)), (Z.testbit_neg_r _ (n - 7)) by lia.
      simpl. now rewrite andb_true_r.
    + rewrite Z.ones_spec_high by lia. rewrite andb_false_r.
      symmetry. apply Z.bits_above_log2; [lia |]. simpl. lia.
Qed.

(** A use of C9 on [jalr x1, x2], [jalr x1, x2, 4] and [jalr x1, 4(x2)]. *)
Lemma C9_jalr_forms_witness :
  assemble_instruction ∅ "jalr x1, x2" 0 = inr 0x000100E7
  /\ assemble_instruction ∅ "jalr x1, x2, 4" 0 = inr 0x004100E7
  /\ assemble_instruction ∅ "jalr x1, 4(x2)" 0 = inr 0x004100E7.
Proof.
  destruct (C9_jalr_forms ∅ 0 "x1" "x2" "4" "4" "x2" false
              eq_refl eq_refl eq_refl eq_refl eq_refl eq_refl)
    as (H1 & H2 & H3 & _).
  split; [| split].
  - etransitivity; [exact H1 | reflexivity].
  - etransitivity; [exact H2 | reflexivity].
  - etransitivity; [exact H3 | reflexivity].
Defined.

(** ** Pass 1 *)

Section FirstPass.

Lemma split_once_pair sep s :
  Str.split_once sep s = (fst (Str.split_once sep s), snd (Str.split_once sep s)).
Proof. now destruct (Str.split_once sep s). Qed.

(** One line of pass 1, by what the line registers and leaves pending. *)
Lemma first_pass_line_spec st n line :
  first_pass_line st n line
  = {| labels := match line_label line with
                 | Some l => <[l := current_address st]> (labels st)
                 | None => labels st
                 end;
       instructions := instructions st
                       ++ match line_text line with
                          | Some t => [(current_address st, t, n)]
                          | None => []
                          end;
       machine_code := machine_code st;
       current_address := match line_text line with
                          | Some _ => current_address st + 4
                          | None => current_address st
                          end;
       errors := errors st |}.
Proof.
  unfold first_pass_line, line_label, line_text.
  destruct (Str.is_empty (Str.strip (Str.strip_comment line))).
  { destruct st. simpl. now rewrite app_nil_r. }
  destruct (Str.contains ":" (Str.strip (Str.strip_comment line))).
  - rewrite split_once_pair. simpl.
    destruct (Str.is_empty _); simpl; [now rewrite app_nil_r | reflexivity].
  - destruct (Str.is_empty _) eqn:E.
    + destruct st. simpl. now rewrite app_nil_r.
    + reflexivity.
Qed.

Lemma with_addresses_app a l1 l2 :
  with_addresses a (l1 ++ l2)
  = with_addresses a l1 ++ with_addresses (a + 4 * Z.of_nat (length l1)) l2.
Proof.
  revert a. induction l1 as [|[t n] l1 IH]; intros a; simpl.
  - f_equal. lia.
  - rewrite IH. do 3 f_equal. lia.
Qed.

Lemma with_addresses_length a l : length (with_addresses a l) = length l.
Proof.
  revert a. induction l as [|[t n] l IH]; intros a; simpl; [reflexivity |].
  now rewrite IH.
Qed.

Lemma with_addresses_lookup a l i ins :
  with_addresses a l !! i = Some ins ->
  ins.1.1 = a + 4 * Z.of_nat i /\ l !! i = Some (ins.1.2, ins.2).
Proof.
  revert a i. induction l as [|[t n] l IH]; intros a i; simpl; [discriminate |].
  destruct i as [|i]; simpl.
  - intros [= <-]. simpl. split; [lia | reflexivity].
  - intros H. destruct (IH _ _ H) as [-> Hl]. split; [lia | exact Hl].
Qed.

Lemma pending_of_app n l1 l2 :
  pending_of n (l1 ++ l2)
  = pending_of n l1 ++ pending_of (n + length l1) l2.
Proof.
  revert n. induction l1 as [|x l1 IH]; intros n; simpl.
  - now rewrite Nat.add_0_r.
  - rewrite IH, Nat.add_succ_r. simpl.
    destruct (line_text x); reflexivity.
Qed.

Lemma pending_of_lines n lines t k :
  (t, k) ∈ pending_of n lines ->
  (n <= k)%nat /\ exists line, lines !! (k - n)%nat = Some line
                               /\ line_text line = Some t.
Proof.
  revert n. induction lines as [|x lines IH]; intros n; simpl.
  - intros H. inversion H.
  - intros H.
    assert (Hrest : (t, k) ∈ pending_of (S n) lines ->
                    (n <= k)%nat /\ exists line,
                        (x :: lines) !! (k - n)%nat = Some line
                        /\ line_text line = Some t).
    { intros H'. destruct (IH _ H') as (Hle & line & Hl & Ht).
      split; [lia |]. exists line. split; [| exact Ht].
      replace (k - n)%nat with (S (k - S n)) by lia. exact Hl. }
    destruct (line_text x) as [t'|] eqn:E; [| now apply Hrest].
    apply elem_of_cons in H as [[= -> ->] | H]; [| now apply Hrest].
    split; [lia |]. exists x. rewrite Nat.sub_diag. auto.
Qed.

(** The whole loop: the instruction list grows by the pending texts of the
    lines, at consecutive addresses. *)
Lemma first_pass_loop_instructions st n lines :
  instructions (first_pass_loop st n lines)
  = instructions st
    ++ with_addresses (current_address st) (pending_of n lines)
  /\ current_address (first_pass_loop st n lines)
     = current_address st + 4 * Z.of_nat (length (pending_of n lines))
  /\ machine_code (first_pass_loop st n lines) = machine_code st
  /\ errors (first_pass_loop st n lines) = errors st.
Proof.
  revert st n. induction lines as [|line lines IH]; intros st n; simpl.
  - rewrite app_nil_r. repeat split. lia.
  - destruct (IH (first_pass_line st n line) (S n)) as (Hi & Ha & Hm & He).
    rewrite Hi, Ha, Hm, He, first_pass_line_spec. simpl.
    destruct (line_text line) as [t|]; simpl.
    + rewrite <- app_assoc. simpl. repeat split. lia.
    + rewrite app_nil_r. repeat split.
Qed.

Lemma first_pass_loop_app st n l1 l2 :
  first_pass_loop st n (l1 ++ l2)
  = first_pass_loop (first_pass_loop st n l1) (n + length l1) l2.
Proof.
  revert st n. induction l1 as [|x l1 IH]; intros st n; simpl.
  - now rewrite Nat.add_0_r.
  - now rewrite IH, Nat.add_succ_r.
Qed.

(** At the line that registers it, a label gets the address current
    there. *)
Lemma first_pass_registers lines j line l :
  lines !! j = Some line -> line_label line = Some l ->
  labels (first_pass init (take (S j) lines)) !! l
  = Some (4 * Z.of_nat (length (pending_of 1 (take j lines)))).
Proof.
  intros Hj Hl. rewrite (take_S_r _ _ _ Hj). unfold first_pass.
  rewrite first_pass_loop_app. cbn [first_pass_loop].
  rewrite first_pass_line_spec, Hl. cbn [labels].
  rewrite lookup_insert_eq. f_equal.
  destruct (first_pass_loop_instructions
              {| labels := labels init; instructions := instructions init;
                 machine_code := machine_code init; current_address := 0;
                 errors := errors init |} 1 (take j lines))
    as (_ & -> & _).
  cbn [current_address]. lia.
Qed.

End FirstPass.

(** The label table that the loop leaves. *)

Section LabelTable.

Lemma first_pass_loop_unregistered st n lines l :
  not_registered l lines = true ->
  labels (first_pass_loop st n lines) !! l = labels st !! l.
Proof.
  revert st n. induction lines as [| line lines IH]; intros st n;
    [reflexivity |].
  intros [Hl Hr]%andb_true_iff. cbn [first_pass_loop].
  rewrite (IH _ _ Hr), first_pass_line_spec. cbn [labels].
  unfold registers in Hl. destruct (line_label line) as [l' |];
    [| reflexivity].
  apply negb_true_iff, String.eqb_neq in Hl. now apply lookup_insert_ne.
Qed.

Lemma first_pass_loop_last st n lines j line l :
  lines !! j = Some line -> line_label line = Some l ->
  not_registered l (drop (S j) lines) = true ->
  labels (first_pass_loop st n lines) !! l
  = Some (current_address st
          + 4 * Z.of_nat (length (pending_of n (take j lines)))).
Proof.
  intros Hj Hl Hr. rewrite <- (take_drop (S j) lines) at 1.
  rewrite first_pass_loop_app, (first_pass_loop_unregistered _ _ _ _ Hr).
  rewrite (take_S_r _ _ _ Hj), first_pass_loop_app. cbn [first_pass_loop].
  rewrite first_pass_line_spec, Hl. cbn [labels].
  rewrite lookup_insert_eq. f_equal.
  now destruct (first_pass_loop_instructions st n (take j lines))
    as (_ & -> & _).
Qed.

Lemma not_registered_lookup l lines j line :
  not_registered l lines = true -> lines !! j = Some line ->
  line_label line <> Some l.
Proof.
  revert j. induction lines as [| x lines IH]; intros j Hr Hj;
    [discriminate Hj |].
  cbn [not_registered forallb] in Hr. apply andb_true_iff in Hr as [Hx Hr].
  destruct j as [| j]; [| exact (IH j Hr Hj)].
  injection Hj as ->. unfold registers in Hx. intros E.
  rewrite E, String.eqb_refl in Hx. discriminate Hx.
Qed.

(** A label is registered by a last line, or by none. *)
Lemma last_registration l lines :
  not_registered l lines = true
  \/ exists j line,
       lines !! j = Some line /\ line_label line = Some l
       /\ not_registered l (drop (S j) lines) = true.
Proof.
  induction lines as [| line lines IH]; [now left |].
  destruct IH as [Hr | (j & line' & Hj & Hl & Hr)].
  - destruct (registers l line) eqn:E.
    + right. exists 0%nat, line. repeat split; [| exact Hr].
      unfold registers in E. destruct (line_label line) as [l' |];
        [| discriminate].
      now apply String.eqb_eq in E as ->.
    + left. cbn [not_registered forallb]. now rewrite E.
  - right. exists (S j), line'. auto.
Qed.

End LabelTable.

(** Pass 1 on a fresh instance. *)
Lemma first_pass_instructions lines :
  instructions (first_pass init lines) = with_addresses 0 (pending_of 1 lines).
Proof.
  unfold first_pass.
  now destruct (first_pass_loop_instructions
                  {| labels := labels init; instructions := instructions init;
                     machine_code := machine_code init; current_address := 0;
                     errors := errors init |} 1 lines) as (-> & _).
Qed.

(** C7: after pass 1 on a fresh instance, the pending instructions are the
    texts of the lines that are neither empty nor a label alone, in source
    order, the one of index [i] at address [4 * i], a multiple of 4.  A
    label that a line registers is bound, at that line, to the address of
    the next pending instruction, the one of that line or of the first later
    line that has one; after pass 1 it is still bound, to the address that
    the last line registering it gave it: to that of its own line when no
    later line registers it again.  The final table has no other entry. *)
Theorem C7_first_pass_addresses (source : string) :
  let lines := Str.split "010" source in
  let st := first_pass init lines in
  instructions st = with_addresses 0 (pending_of 1 lines)
  /\ (forall i ins,
         instructions st !! i = Some ins ->
         ins.1.1 = 4 * Z.of_nat i /\ (4 | ins.1.1))
  /\ (forall l a,
         labels st !! l = Some a ->
         exists j line,
           lines !! j = Some line /\ line_label line = Some l
           /\ not_registered l (drop (S j) lines) = true
           /\ let k := length (pending_of 1 (take j lines)) in
              a = 4 * Z.of_nat k
              /\ forall t n more,
                   pending_of (S j) (drop j lines) = (t, n) :: more ->
                   instructions st !! k = Some (a, t, n))
  /\ (forall j line l,
         lines !! j = Some line -> line_label line = Some l ->
         labels (first_pass init (take (S j) lines)) !! l
         = Some (4 * Z.of_nat (length (pending_of 1 (take j lines)))))
  /\ (forall j line l,
         lines !! j = Some line -> line_label line = Some l ->
         not_registered l (drop (S j) lines) = true ->
         labels st !! l
         = Some (4 * Z.of_nat (length (pending_of 1 (take j lines)))))
  /\ (forall j line l,
         lines !! j = Some line -> line_label line = Some l ->
         exists j' line',
           (j <= j')%nat
           /\ lines !! j' = Some line' /\ line_label line' = Some l
           /\ not_registered l (drop (S j') lines) = true
           /\ labels st !! l
              = Some (4 * Z.of_nat (length (pending_of 1 (take j' lines))))).
Proof.
  intros lines st.
  assert (Hi : instructions st = with_addresses 0 (pending_of 1 lines))
    by apply first_pass_instructions.
  assert (Hlast : forall j line l,
             lines !! j = Some line -> line_label line = Some l ->
             not_registered l (drop (S j) lines) = true ->
             labels st !! l
             = Some (4 * Z.of_nat (length (pending_of 1 (take j lines))))).
  { intros j line l Hj Hl Hr. subst st. unfold first_pass.
    rewrite (first_pass_loop_last _ _ _ _ _ _ Hj Hl Hr).
    cbn [current_address]. f_equal. }
  split; [exact Hi | split; [| split; [| split; [| split]]]];
    [| | apply first_pass_registers | exact Hlast |].
  - intros i ins H. rewrite Hi in H.
    apply with_addresses_lookup in H as [-> _].
    split; [lia |]. exists (Z.of_nat i). lia.
  - intros l a H.
    destruct (last_registration l lines) as [Hr | (j & line & Hj & Hl & Hr)].
    { subst st. unfold first_pass in H.
      rewrite (first_pass_loop_unregistered _ _ _ _ Hr) in H.
      cbn [labels init] in H. rewrite lookup_empty in H. discriminate H. }
    rewrite (Hlast _ _ _ Hj Hl Hr) in H. injection H as <-.
    exists j, line. split; [exact Hj | split; [exact Hl | split; [exact Hr |]]].
    cbv zeta. split; [reflexivity |].
    intros t n more Hnext. rewrite Hi.
    pose proof (pending_of_app 1 (take j lines) (drop j lines)) as Hsp.
    rewrite take_drop in Hsp.
    rewrite length_take_le in Hsp
      by (apply Nat.lt_le_incl, (lookup_lt_Some _ _ _ Hj)).
    change (1 + j)%nat with (S j) in Hsp. rewrite Hnext in Hsp.
    rewrite Hsp, with_addresses_app.
    rewrite lookup_app_r by (rewrite with_addresses_length; lia).
    rewrite with_addresses_length, Nat.sub_diag. simpl.
    do 3 f_equal; lia.
  - intros j line l Hj Hl.
    destruct (last_registration l lines)
      as [Hr | (j' & line' & Hj' & Hl' & Hr)];
      [destruct (not_registered_lookup _ _ _ _ Hr Hj Hl) |].
    exists j', line'.
    split; [| exact (conj Hj' (conj Hl' (conj Hr (Hlast _ _ _ Hj' Hl' Hr))))].
    destruct (le_lt_dec j j') as [Hle | Hlt]; [exact Hle | exfalso].
    apply (not_registered_lookup _ _ (j - S j') line Hr); [| exact Hl].
    rewrite lookup_drop, <- Hj. f_equal. lia.
Qed.

(** A use of C7 on [duplicate_label_source]: the second instruction is at
    address 4, the label [next], registered once, is bound to it, and the
    label [top], registered by the first and by the last line, is bound
    after pass 1. *)
Lemma C7_first_pass_addresses_witness :
  (4 | 4)
  /\ labels (first_pass init (Str.split "010" duplicate_label_source))
       !! "next" = Some 4
  /\ exists a,
       labels (first_pass init (Str.split "010" duplicate_label_source))
         !! "top" = Some a.
Proof.
  destruct (C7_first_pass_addresses duplicate_label_source)
    as (_ & Haddr & _ & _ & Hlast & Hbound).
  split; [| split].
  - exact (proj2 (Haddr 1%nat (4, "addi x2,x0,2", 2%nat) eq_refl)).
  - exact (Hlast 1%nat "next: addi x2,x0,2" "next" eq_refl eq_refl eq_refl).
  - destruct (Hbound 0%nat "top: addi x1,x0,1" "top" eq_refl eq_refl)
      as (j' & line' & _ & _ & _ & _ & H).
    eexists. exact H.
Defined.

(** Where a label is not bound to the address of the instruction that
    follows it: the first line of [duplicate_label_source] registers [top]
    and leaves the instruction of address 0 pending, to which [top] is bound
    at that line; the last line registers [top] again, and after pass 1
    [top] is bound to 8. *)
Lemma C7_duplicate_label :
  Str.split "010" duplicate_label_source !! 0%nat = Some "top: addi x1,x0,1"
  /\ line_label "top: addi x1,x0,1" = Some "top"
  /\ instructions (first_pass init (Str.split "010" duplicate_label_source))
       !! 0%nat = Some (0, "addi x1,x0,1", 1%nat)
  /\ labels (first_pass init
               (take 1 (Str.split "010" duplicate_label_source))) !! "top"
     = Some 0
  /\ labels (first_pass init (Str.split "010" duplicate_label_source))
       !! "top" = Some 8.
Proof.
  split; [reflexivity | split; [reflexivity | split; [reflexivity |]]].
  split; vm_compute; reflexivity.
Qed.

(** ** Exceptions of one line *)

Section Catchable.

Lemma catchable_mret {A} (a : A) : catchable (mret a).
Proof. intros e H. discriminate. Qed.

Lemma catchable_raise {A} (e : exn) :
  is_Exception e = true -> catchable (@raise A e).
Proof. intros He e' [= <-]. exact He. Qed.

Lemma catchable_bind {A B} (m : result A) (k : A -> result B) :
  catchable m -> (forall a, catchable (k a)) -> catchable (m ≫= k).
Proof.
  intros Hm Hk e. destruct m as [e' | a]; simpl.
  - intros [= <-]. now apply Hm.
  - apply Hk.
Qed.

Local Ltac catch_step :=
  match goal with
  | |- catchable (mret _) => apply catchable_mret
  | |- catchable (inr _) => apply catchable_mret
  | |- catchable (raise _) => apply catchable_raise; reflexivity
  | |- catchable (_ ≫= _) => apply catchable_bind; [| intros ?]
  | |- catchable (if ?b then _ else _) => destruct b
  | |- catchable (match ?x with _ => _ end) => destruct x
  | |- catchable (let '(_, _) := ?x in _) => destruct x
  end.

Local Ltac catch := repeat catch_step.

Lemma catchable_index parts i : catchable (index parts i).
Proof. unfold index. catch. Qed.

Lemma catchable_dict_get table key : catchable (dict_get table key).
Proof. unfold dict_get. catch. Qed.

Lemma catchable_shl1 n : catchable (shl1 n).
Proof. unfold shl1. catch. Qed.

Lemma catchable_parse_register reg : catchable (parse_register reg).
Proof. unfold parse_register. catch. Qed.

Lemma catchable_literal_value tok : catchable (literal_value tok).
Proof. unfold literal_value, py_int. catch. Qed.

Local Ltac catch_parsers_step :=
  match goal with
  | |- catchable (index _ _) => apply catchable_index
  | |- catchable (dict_get _ _) => apply catchable_dict_get
  | |- catchable (shl1 _) => apply catchable_shl1
  | |- catchable (parse_register _) => apply catchable_parse_register
  | |- catchable (literal_value _) => apply catchable_literal_value
  | _ => catch_step
  end.

Local Ltac catch_parsers := repeat catch_parsers_step.

Lemma catchable_parse_immediate tok bits signed :
  catchable (parse_immediate tok bits signed).
Proof. unfold parse_immediate. catch_parsers. Qed.

Lemma catchable_parse_memory_operand operand :
  catchable (parse_memory_operand operand).
Proof.
  unfold parse_memory_operand.
  repeat match goal with
         | |- catchable (parse_immediate _ _ _) =>
             apply catchable_parse_immediate
         | _ => catch_parsers_step
         end.
Qed.

Lemma catchable_encode_r_type i a b c : catchable (encode_r_type i a b c).
Proof. unfold encode_r_type. catch_parsers. Qed.

Lemma catchable_encode_i_type i a b c : catchable (encode_i_type i a b c).
Proof. unfold encode_i_type. catch_parsers. Qed.

Lemma catchable_encode_s_type i a b c : catchable (encode_s_type i a b c).
Proof. unfold encode_s_type. catch_parsers. Qed.

Lemma catchable_encode_b_type i a b c : catchable (encode_b_type i a b c).
Proof. unfold encode_b_type. catch_parsers. Qed.

Lemma catchable_encode_u_type i a b : catchable (encode_u_type i a b).
Proof. unfold encode_u_type. catch_parsers. Qed.

Lemma catchable_encode_j_type i a b : catchable (encode_j_type i a b).
Proof. unfold encode_j_type. catch_parsers. Qed.

Lemma catchable_encode_crypto i a b c : catchable (encode_crypto i a b c).
Proof. unfold encode_crypto. catch_parsers. Qed.

Local Ltac catch_all_step :=
  match goal with
  | |- catchable (parse_immediate _ _ _) => apply catchable_parse_immediate
  | |- catchable (parse_memory_operand _) =>
      apply catchable_parse_memory_operand
  | |- catchable (encode_r_type _ _ _ _) => apply catchable_encode_r_type
  | |- catchable (encode_i_type _ _ _ _) => apply catchable_encode_i_type
  | |- catchable (encode_s_type _ _ _ _) => apply catchable_encode_s_type
  | |- catchable (encode_b_type _ _ _ _) => apply catchable_encode_b_type
  | |- catchable (encode_u_type _ _ _) => apply catchable_encode_u_type
  | |- catchable (encode_j_type _ _ _) => apply catchable_encode_j_type
  | |- catchable (encode_crypto _ _ _ _) => apply catchable_encode_crypto
  | _ => catch_parsers_step
  end.

Local Ltac catch_all := repeat catch_all_step.

(** Whatever the line, encoding it returns a word or raises an exception
    that derives from [Exception]. *)
Lemma catchable_assemble_instruction lbl line addr :
  catchable (assemble_instruction lbl line addr).
Proof. unfold assemble_instruction, assemble_parts. catch_all. Qed.

End Catchable.

(** ** Words of 32 bits *)

Section Words.

Lemma fits_mono k n x : 0 <= k <= n -> fits k x -> fits n x.
Proof.
  intros Hk [H0 H1]. split; [exact H0 |].
  eapply Z.lt_le_trans; [exact H1 |]. apply Z.pow_le_mono_r; lia.
Qed.

Lemma fits_lor n a b : fits n a -> fits n b -> fits n (Z.lor a b).
Proof.
  intros [Ha0 Ha1] [Hb0 Hb1].
  destruct (Z.eq_dec a 0) as [-> | Hna]; [now rewrite Z.lor_0_l |].
  destruct (Z.eq_dec b 0) as [-> | Hnb]; [now rewrite Z.lor_0_r |].
  assert (H0 : 0 <= Z.lor a b) by now apply Z.lor_nonneg.
  assert (Hne : Z.lor a b <> 0) by (rewrite Z.lor_eq_0_iff; tauto).
  split; [exact H0 |].
  apply Z.log2_lt_pow2; [lia |]. rewrite Z.log2_lor by lia.
  apply Z.max_lub_lt; apply Z.log2_lt_pow2; lia.
Qed.

Lemma fits_shiftl k s x : 0 <= k -> 0 <= s -> fits k x -> fits (k + s) (Z.shiftl x s).
Proof.
  intros Hk Hs [H0 H1]. unfold fits.
  rewrite Z.shiftl_mul_pow2 by exact Hs.
  assert (0 < 2 ^ s) by (apply Z.pow_pos_nonneg; lia).
  rewrite Z.pow_add_r by lia. split; nia.
Qed.

Lemma fits_land_ones k x : 0 <= k -> fits k (Z.land x (Z.ones k)).
Proof.
  intros Hk. rewrite Z.land_ones by exact Hk.
  apply Z.mod_pos_bound, Z.pow_pos_nonneg; lia.
Qed.

(** A field of [k] bits placed [s] bits from the right stays inside the
    word. *)
Lemma fits_field k s x :
  0 <= k -> 0 <= s -> k + s <= 32 -> fits k x -> fits 32 (Z.shiftl x s).
Proof.
  intros Hk Hs Hle H. apply (fits_mono (k + s)); [lia |].
  now apply fits_shiftl.
Qed.

Local Ltac table_entry E :=
  apply elem_of_list_to_map_2, list_elem_of_In in E; simpl in E;
  repeat (destruct E as [E | E];
          [injection E as _ <-; unfold fits; simpl; lia |]);
  destruct E.

Lemma fits_register reg n : parse_register reg = inr n -> fits 5 n.
Proof.
  unfold parse_register.
  destruct (REGISTERS !! _) as [v|] eqn:E; [| discriminate].
  intros [= <-]. unfold REGISTERS in E. table_entry E.
Qed.

Lemma fits_opcode instr v : dict_get OPCODES instr = inr v -> fits 7 v.
Proof.
  unfold dict_get. destruct (OPCODES !! instr) as [x|] eqn:E; [| discriminate].
  intros [= <-]. unfold OPCODES in E. table_entry E.
Qed.

Lemma fits_funct3 instr v : dict_get FUNCT3 instr = inr v -> fits 3 v.
Proof.
  unfold dict_get. destruct (FUNCT3 !! instr) as [x|] eqn:E; [| discriminate].
  intros [= <-]. unfold FUNCT3 in E. table_entry E.
Qed.

Lemma fits_funct7 instr v : dict_get FUNCT7 instr = inr v -> fits 7 v.
Proof.
  unfold dict_get. destruct (FUNCT7 !! instr) as [x|] eqn:E; [| discriminate].
  intros [= <-]. unfold FUNCT7 in E. table_entry E.
Qed.

Lemma yields_word_bind {A} (m : result A) (k : A -> result Z) :
  (forall a, m = inr a -> yields_word (k a)) -> yields_word (m ≫= k).
Proof.
  intros Hk w. destruct m as [e | a]; simpl; [discriminate |].
  now apply Hk.
Qed.

Lemma yields_word_ret w : fits 32 w -> yields_word (mret w).
Proof. intros H w' [= <-]. exact H. Qed.

Lemma yields_word_raise e : yields_word (raise e).
Proof. intros w H. discriminate. Qed.

(** Masked fields and table constants in their places. *)
Local Ltac field :=
  match goal with
  | |- fits 32 (Z.lor _ _) => apply fits_lor
  | H : dict_get OPCODES _ = inr ?v |- fits 32 ?v =>
      apply (fits_mono 7); [lia | exact (fits_opcode _ _ H)]
  | H : dict_get FUNCT7 _ = inr ?v |- fits 32 (Z.shiftl ?v 25) =>
      apply (fits_field 7); [lia .. | exact (fits_funct7 _ _ H)]
  | H : dict_get FUNCT3 _ = inr ?v |- fits 32 (Z.shiftl ?v 12) =>
      apply (fits_field 3); [lia .. | exact (fits_funct3 _ _ H)]
  | H : fits 5 ?v |- fits 32 (Z.shiftl ?v ?s) =>
      apply (fits_field 5); [lia .. | exact H]
  | |- fits 32 (Z.shiftl (Z.land _ 1) ?s) =>
      apply (fits_field 1); [lia .. | exact (fits_land_ones 1 _ ltac:(lia))]
  | |- fits 32 (Z.shiftl (Z.land _ 15) ?s) =>
      apply (fits_field 4); [lia .. | exact (fits_land_ones 4 _ ltac:(lia))]
  | |- fits 32 (Z.shiftl (Z.land _ 31) ?s) =>
      apply (fits_field 5); [lia .. | exact (fits_land_ones 5 _ ltac:(lia))]
  | |- fits 32 (Z.shiftl (Z.land _ 63) ?s) =>
      apply (fits_field 6); [lia .. | exact (fits_land_ones 6 _ ltac:(lia))]
  | |- fits 32 (Z.shiftl (Z.land _ 127) ?s) =>
      apply (fits_field 7); [lia .. | exact (fits_land_ones 7 _ ltac:(lia))]
  | |- fits 32 (Z.shiftl (Z.land _ 255) ?s) =>
      apply (fits_field 8); [lia .. | exact (fits_land_ones 8 _ ltac:(lia))]
  | |- fits 32 (Z.shiftl (Z.land _ 1023) ?s) =>
      apply (fits_field 10); [lia .. | exact (fits_land_ones 10 _ ltac:(lia))]
  | |- fits 32 (Z.shiftl (Z.land _ 4095) ?s) =>
      apply (fits_field 12); [lia .. | exact (fits_land_ones 12 _ ltac:(lia))]
  | |- fits 32 (Z.shiftl (Z.land _ 1048575) ?s) =>
      apply (fits_field 20); [lia .. | exact (fits_land_ones 20 _ ltac:(lia))]
  end.

Local Ltac encoder :=
  repeat (apply yields_word_bind; intros ? ?);
  try (apply yields_word_ret; repeat field).

Lemma word_encode_r_type instr rd rs1 rs2 :
  fits 5 rd -> fits 5 rs1 -> fits 5 rs2 ->
  yields_word (encode_r_type instr rd rs1 rs2).
Proof. intros. unfold encode_r_type. encoder. Qed.

Lemma word_encode_crypto instr rd rs1 rs2 :
  fits 5 rd -> fits 5 rs1 -> fits 5 rs2 ->
  yields_word (encode_crypto instr rd rs1 rs2).
Proof. intros. unfold encode_crypto. encoder. Qed.

Lemma word_encode_i_type instr rd rs1 imm :
  fits 5 rd -> fits 5 rs1 -> yields_word (encode_i_type instr rd rs1 imm).
Proof.
  intros. unfold encode_i_type.
  do 2 (apply yields_word_bind; intros ? ?).
  apply yields_word_bind. intros imm' _.
  apply yields_word_ret. repeat field.
Qed.

Lemma word_encode_s_type instr rs2 rs1 imm :
  fits 5 rs2 -> fits 5 rs1 -> yields_word (encode_s_type instr rs2 rs1 imm).
Proof. intros. unfold encode_s_type. encoder. Qed.

Lemma word_encode_b_type instr rs1 rs2 imm :
  fits 5 rs1 -> fits 5 rs2 -> yields_word (encode_b_type instr rs1 rs2 imm).
Proof. intros. unfold encode_b_type. encoder. Qed.

Lemma word_encode_u_type instr rd imm :
  fits 5 rd -> yields_word (encode_u_type instr rd imm).
Proof. intros. unfold encode_u_type. encoder. Qed.

Lemma word_encode_j_type instr rd imm :
  fits 5 rd -> yields_word (encode_j_type instr rd imm).
Proof. intros. unfold encode_j_type. encoder. Qed.

Lemma bind_inr {A B} (a : A) (k : A -> result B) : inr a ≫= k = k a.
Proof. reflexivity. Qed.

Lemma bind_inl {A B} (e : exn) (k : A -> result B) : inl e ≫= k = inl e.
Proof. reflexivity. Qed.

Lemma fits_bind_register (m : result string) n :
  m ≫= parse_register = inr n -> fits 5 n.
Proof.
  destruct m as [e | p]; [rewrite bind_inl; discriminate |].
  rewrite bind_inr. apply fits_register.
Qed.

Lemma fits_memory_base operand o b :
  parse_memory_operand operand = inr (o, b) -> fits 5 b.
Proof.
  unfold parse_memory_operand.
  destruct (match_memory_operand _) as [[g1 g2]|]; [| discriminate].
  destruct (parse_immediate g1 12 true) as [e | o'];
    [rewrite bind_inl; discriminate |].
  rewrite bind_inr.
  destruct (parse_register g2) as [e | b'] eqn:E;
    [rewrite bind_inl; discriminate |].
  rewrite bind_inr. intros [= _ <-]. exact (fits_register _ _ E).
Qed.

Lemma fits_bind_memory_base (m : result string) o b :
  m ≫= parse_memory_operand = inr (o, b) -> fits 5 b.
Proof.
  destruct m as [e | p]; [rewrite bind_inl; discriminate |].
  rewrite bind_inr. apply fits_memory_base.
Qed.

Lemma fits_5_0 : fits 5 0.
Proof. unfold fits. simpl. lia. Qed.

Local Ltac operand :=
  match goal with
  | |- fits 5 0 => exact fits_5_0
  | H : mbind (fun p => parse_register p) _ = inr ?n |- fits 5 ?n =>
      exact (fits_bind_register _ _ H)
  | H : mbind (fun p => parse_memory_operand p) _ = inr (_, ?b) |- fits 5 ?b =>
      exact (fits_bind_memory_base _ _ _ H)
  end.

Local Ltac word_step :=
  match goal with
  | |- yields_word (encode_r_type _ _ _ _) =>
      apply word_encode_r_type; operand
  | |- yields_word (encode_crypto _ _ _ _) =>
      apply word_encode_crypto; operand
  | |- yields_word (encode_i_type _ _ _ _) =>
      apply word_encode_i_type; operand
  | |- yields_word (encode_s_type _ _ _ _) =>
      apply word_encode_s_type; operand
  | |- yields_word (encode_b_type _ _ _ _) =>
      apply word_encode_b_type; operand
  | |- yields_word (encode_u_type _ _ _) => apply word_encode_u_type; operand
  | |- yields_word (encode_j_type _ _ _) => apply word_encode_j_type; operand
  | |- yields_word (mret 115) =>
      apply yields_word_ret; unfold fits; simpl; lia
  | |- yields_word (raise _) => apply yields_word_raise
  | |- yields_word (_ ≫= _) => apply yields_word_bind; intros ? ?
  | |- yields_word (if ?b then _ else _) => destruct b
  | |- yields_word (match ?x with _ => _ end) => destruct x
  end.

(** Whatever the line, the word it encodes to, if any, has 32 bits. *)
Lemma word_assemble_instruction lbl line addr :
  yields_word (assemble_instruction lbl line addr).
Proof.
  unfold assemble_instruction, assemble_parts.
  apply yields_word_bind. intros p0 _.
  do 11 (match goal with
         | |- yields_word (if ?b then _ else _) =>
             destruct b; [repeat word_step |]
         end).
  - (* jalr: the base register comes from either form *)
    destruct (String.eqb (Str.lower p0) "jalr").
    + apply yields_word_bind. intros rd Hrd.
      apply yields_word_bind. intros p2 _.
      apply yields_word_bind. intros [offset rs1] Hform.
      apply word_encode_i_type; [operand |].
      destruct (Str.contains "(" p2); [operand |].
      destruct (mbind (fun p => parse_register p) (index _ 2))
        as [e | r] eqn:Er;
        [discriminate |].
      rewrite bind_inr in Hform.
      destruct (if (3 <? length _)%nat then _ else _) as [e | o];
        [discriminate |].
      rewrite bind_inr in Hform. injection Hform as _ <-. operand.
    + repeat word_step.
Qed.

End Words.

(** ** Pass 2 *)

Section SecondPass.

Variable lbl : gmap string Z.

Lemma words_of_cons ins l :
  words_of lbl (ins :: l)
  = match encode_pending lbl ins with
    | inr w => w :: words_of lbl l
    | inl _ => words_of lbl l
    end.
Proof. unfold words_of. simpl. now destruct (encode_pending lbl ins). Qed.

Lemma diagnostics_of_cons ins l :
  diagnostics_of lbl (ins :: l)
  = match encode_pending lbl ins with
    | inr _ => diagnostics_of lbl l
    | inl e => Diagnostic ins.2 e ins.1.2 :: diagnostics_of lbl l
    end.
Proof. unfold diagnostics_of. simpl. now destruct (encode_pending lbl ins). Qed.

(** Every pending instruction leaves one word or one diagnostic. *)
Lemma words_diagnostics_length l :
  (length (words_of lbl l) + length (diagnostics_of lbl l))%nat = length l.
Proof.
  induction l as [|ins l IH]; [reflexivity |].
  rewrite words_of_cons, diagnostics_of_cons.
  destruct (encode_pending lbl ins); simpl; lia.
Qed.

Lemma diagnostics_other_line l k :
  (forall ins, ins ∈ l -> pending_line ins <> k) ->
  List.filter (same_line k) (diagnostics_of lbl l) = [].
Proof.
  induction l as [|x l IH]; intros H; [reflexivity |].
  rewrite diagnostics_of_cons.
  assert (Hl : List.filter (same_line k) (diagnostics_of lbl l) = []).
  { apply IH. intros ins Hin. apply H. now right. }
  destruct (encode_pending lbl x); [| exact Hl].
  simpl. unfold same_line at 1. simpl.
  destruct (Nat.eqb_spec x.2 k) as [E | _]; [| exact Hl].
  exfalso. apply (H x); [left | exact E].
Qed.

Lemma diagnostics_this_line l ins :
  NoDup (pending_line <$> l) -> ins ∈ l ->
  List.filter (same_line (pending_line ins)) (diagnostics_of lbl l)
  = match encode_pending lbl ins with
    | inl e => [Diagnostic (pending_line ins) e ins.1.2]
    | inr _ => []
    end.
Proof.
  induction l as [|x l IH]; intros Hnd Hin; [inversion Hin |].
  rewrite fmap_cons in Hnd. apply NoDup_cons in Hnd as [Hx Hnd].
  rewrite diagnostics_of_cons.
  apply elem_of_cons in Hin as [-> | Hin].
  - assert (Hl : List.filter (same_line (pending_line x))
                   (diagnostics_of lbl l) = []).
    { apply diagnostics_other_line. intros y Hy E. apply Hx.
      rewrite <- E. apply list_elem_of_fmap_2. exact Hy. }
    destruct (encode_pending lbl x); [| exact Hl].
    simpl. unfold same_line at 1, pending_line at 1. simpl.
    rewrite Nat.eqb_refl. now rewrite Hl.
  - assert (Hne : pending_line x <> pending_line ins).
    { intros E. apply Hx. rewrite E. now apply list_elem_of_fmap_2. }
    destruct (encode_pending lbl x); [| now apply IH].
    simpl. unfold same_line at 1. simpl.
    destruct (Nat.eqb_spec x.2 (pending_line ins)) as [E | _];
      [now destruct Hne |].
    now apply IH.
Qed.

Lemma words_of_elem l ins w :
  ins ∈ l -> encode_pending lbl ins = inr w -> w ∈ words_of lbl l.
Proof.
  intros Hin He. unfold words_of. apply list_elem_of_omap.
  exists ins. now rewrite He.
Qed.

(** Without diagnostics, the words are those of the instructions, index by
    index. *)
Lemma words_of_aligned l :
  diagnostics_of lbl l = [] ->
  forall i ins, l !! i = Some ins ->
                exists w, encode_pending lbl ins = inr w
                          /\ words_of lbl l !! i = Some w.
Proof.
  induction l as [|x l IH]; intros Hd i ins Hi; [discriminate |].
  rewrite diagnostics_of_cons in Hd. rewrite words_of_cons.
  destruct (encode_pending lbl x) as [e | w] eqn:E; [discriminate |].
  destruct i as [|i]; simpl in Hi.
  - injection Hi as <-. exists w. auto.
  - now apply IH.
Qed.

End SecondPass.

(** The loop of pass 2 ends without an exception leaving it, and appends
    the words and the diagnostics of the instructions it went through. *)
Lemma second_pass_loop_spec st todo :
  second_pass_loop st todo
  = ({| labels := labels st; instructions := instructions st;
        machine_code := machine_code st ++ words_of (labels st) todo;
        current_address := current_address st;
        errors := errors st ++ diagnostics_of (labels st) todo |}, None).
Proof.
  revert st. induction todo as [|[[addr line] n] todo IH]; intros st.
  - simpl. rewrite !app_nil_r. now destruct st.
  - rewrite words_of_cons, diagnostics_of_cons.
    unfold encode_pending. simpl.
    pose proof (catchable_assemble_instruction (labels st) line addr) as Hc.
    destruct (assemble_instruction (labels st) line addr) as [e | w].
    + rewrite (Hc e eq_refl), IH. simpl. now rewrite <- app_assoc.
    + rewrite IH. simpl. now rewrite <- app_assoc.
Qed.

Lemma pending_of_NoDup n lines : NoDup ((pending_of n lines).*2).
Proof.
  revert n. induction lines as [|x lines IH]; intros n; [constructor |].
  cbn [pending_of]. destruct (line_text x); [| apply IH].
  rewrite fmap_cons. apply NoDup_cons. split; [| apply IH].
  intros ([t k] & Hk & Hin)%list_elem_of_fmap_1. simpl in Hk. subst k.
  apply pending_of_lines in Hin as [Hle _]. lia.
Qed.

Lemma with_addresses_lines a l : pending_line <$> with_addresses a l = l.*2.
Proof.
  revert a. induction l as [|[t n] l IH]; intros a; [reflexivity |].
  cbn [with_addresses]. now rewrite !fmap_cons, IH.
Qed.

(** After both passes on a fresh instance. *)
Lemma run_passes_spec source :
  let st1 := first_pass init (Str.split "010" source) in
  run_passes init source
  = ({| labels := labels st1; instructions := instructions st1;
        machine_code := words_of (labels st1) (instructions st1);
        current_address := current_address st1;
        errors := diagnostics_of (labels st1) (instructions st1) |}, None).
Proof.
  intros st1. unfold run_passes, second_pass. fold st1.
  rewrite second_pass_loop_spec.
  destruct (first_pass_loop_instructions
              {| labels := labels init; instructions := instructions init;
                 machine_code := machine_code init; current_address := 0;
                 errors := errors init |} 1 (Str.split "010" source))
    as (_ & _ & Hm & He).
  fold (first_pass init (Str.split "010" source)) in Hm, He. fold st1 in Hm, He.
  now rewrite Hm, He.
Qed.

(** C2: pass 2 turns the failure of a line into exactly one diagnostic
    with the number of that line and goes on: the words are those of all
    the pending instructions that encode, in source order, and no line that
    encodes has a diagnostic.  On [five_lines_source], whose third line names
    the register [x99], it leaves the four words of the other lines and one
    diagnostic for line 3. *)
Theorem C2_failure_isolation (source : string) :
  let st1 := first_pass init (Str.split "010" source) in
  let st2 := fst (run_passes init source) in
  (snd (run_passes init source) = None
   /\ machine_code st2 = words_of (labels st1) (instructions st1)
   /\ errors st2 = diagnostics_of (labels st1) (instructions st1)
   /\ (length (machine_code st2) + length (errors st2))%nat
      = length (instructions st1))
  /\ (forall ins,
         ins ∈ instructions st1 ->
         match encode_pending (labels st1) ins with
         | inl e =>
             List.filter (same_line (pending_line ins)) (errors st2)
             = [Diagnostic (pending_line ins) e ins.1.2]
         | inr w =>
             List.filter (same_line (pending_line ins)) (errors st2) = []
             /\ w ∈ machine_code st2
         end)
  /\ (machine_code (fst (run_passes init five_lines_source))
        = [0x00100093; 0x00200113; 0x00400213; 0x00500293]
      /\ errors (fst (run_passes init five_lines_source))
         = [Diagnostic 3 (ValueError (UnknownRegister "x99")) "addi x99, x0, 3"]
      /\ List.map (fun line => assemble_instruction ∅ line 0)
           ["addi x1, x0, 1"; "addi x2, x0, 2"; "addi x4, x0, 4";
            "addi x5, x0, 5"]
         = [inr 0x00100093; inr 0x00200113; inr 0x00400213; inr 0x00500293]).
Proof.
  intros st1 st2. subst st2. rewrite (run_passes_spec source). fold st1.
  cbn [fst snd machine_code errors].
  split; [| split].
  - split; [reflexivity | split; [reflexivity | split; [reflexivity |]]].
    apply words_diagnostics_length.
  - intros ins Hin.
    assert (Hnd : NoDup (pending_line <$> instructions st1)).
    { subst st1. rewrite first_pass_instructions, with_addresses_lines.
      apply pending_of_NoDup. }
    rewrite (diagnostics_this_line _ _ _ Hnd Hin).
    destruct (encode_pending (labels st1) ins) as [e | w] eqn:E;
      [reflexivity |].
    split; [reflexivity |]. now apply words_of_elem with ins.
  - vm_compute. repeat split.
Qed.

(** A use of C2 on the third line of [five_lines_source]. *)
Lemma C2_failure_isolation_witness :
  List.filter (same_line 3) (errors (fst (run_passes init five_lines_source)))
  = [Diagnostic 3 (ValueError (UnknownRegister "x99")) "addi x99, x0, 3"].
Proof.
  destruct (C2_failure_isolation five_lines_source) as (_ & H & _).
  apply (H (8, "addi x99, x0, 3", 3%nat)).
  apply (list_elem_of_lookup_2 _ 2%nat). reflexivity.
Defined.

(** ** [assemble] *)

Lemma words_of_fits lbl l : Forall (fits 32) (words_of lbl l).
Proof.
  induction l as [|ins l IH]; [constructor |].
  rewrite words_of_cons.
  destruct (encode_pending lbl ins) as [e | w] eqn:E; [exact IH |].
  constructor; [| exact IH].
  exact (word_assemble_instruction _ _ _ _ E).
Qed.

(** C1, as the code has it: for every source text, pass 2 lets no
    exception of a line out, it records a diagnostic in the instance; the
    words are 32-bit unsigned numbers, in the order of the pending
    instructions.  [assemble] then returns the words, alone, when there is
    no diagnostic; when there is one it raises [SystemExit(1)], which
    reaches the caller, the words and the diagnostics staying in the
    instance. *)
Theorem C1_assemble_outcome (source : string) :
  snd (run_passes init source) = None
  /\ fst (assemble init source) = fst (run_passes init source)
  /\ snd (assemble init source)
     = match errors (fst (run_passes init source)) with
       | [] => inr (machine_code (fst (run_passes init source)))
       | _ :: _ => inl (SystemExit 1)
       end
  /\ Forall (fits 32) (machine_code (fst (run_passes init source))).
Proof.
  unfold assemble. fold (run_passes init source).
  rewrite (run_passes_spec source). cbn [fst snd errors machine_code].
  split; [reflexivity | split; [| split]].
  - now destruct (diagnostics_of _ _).
  - now destruct (diagnostics_of _ _).
  - apply words_of_fits.
Qed.

(** C1, as stated, fails on the one-line source [addi x1, x0, 2048]:
    [assemble] returns nothing, neither words nor diagnostics; it raises
    [SystemExit(1)], which [except Exception] does not catch, and the
    diagnostic of line 1 stays in the instance. *)
Lemma C1_assemble_exits :
  snd (assemble init "addi x1, x0, 2048") = inl (SystemExit 1)
  /\ is_Exception (SystemExit 1) = false
  /\ ~ (exists words, snd (assemble init "addi x1, x0, 2048") = inr words)
  /\ errors (fst (assemble init "addi x1, x0, 2048"))
     = [Diagnostic 1 (ValueError (ImmediateOutOfRange 2048 (-2048) 2047))
          "addi x1, x0, 2048"].
Proof.
  split; [vm_compute; reflexivity | split; [reflexivity | split]].
  - intros [words H]. vm_compute in H. discriminate.
  - vm_compute. reflexivity.
Qed.

(** ** Branch and jump targets *)

(** The offset handed to the encoder of a branch is the distance to the
    label when the target names one, and a 13-bit signed literal
    otherwise. *)
Lemma branch_target_resolution lbl addr instr rs1 rs2 target :
  In instr BRANCHES ->
  is_token rs1 = true -> is_token rs2 = true -> is_token target = true ->
  assemble_instruction lbl
    (instr +:+ " " +:+ rs1 +:+ "," +:+ rs2 +:+ "," +:+ target) addr
  = (n1 ← parse_register rs1; n2 ← parse_register rs2;
     offset ← match lbl !! target with
              | Some a => inr (a - addr)
              | None => parse_immediate target 13 true
              end;
     encode_b_type instr n1 n2 offset).
Proof.
  intros Hin H1 H2 Ht. unfold assemble_instruction.
  fold (tokenize (instr +:+ " " +:+ rs1 +:+ "," +:+ rs2 +:+ "," +:+ target)).
  assert (Hi : is_token instr = true).
  { simpl in Hin.
    repeat (destruct Hin as [<- | Hin]; [reflexivity |]). destruct Hin. }
  change (instr +:+ " " +:+ rs1 +:+ "," +:+ rs2 +:+ "," +:+ target)
    with (instr +:+ String " " (rs1 +:+ String "," (rs2 +:+ String "," target))).
  rewrite (tokenize_cons instr), (tokenize_cons rs1), (tokenize_cons rs2),
    (tokenize_last target) by (assumption || reflexivity).
  now rewrite (parts_branch _ _ _ _ _ _ _ Hin).
Qed.

(** The same for [jal], with a 21-bit literal. *)
Lemma jal_target_resolution lbl addr rd target :
  is_token rd = true -> is_token target = true ->
  assemble_instruction lbl ("jal " +:+ rd +:+ "," +:+ target) addr
  = (rd' ← parse_register rd;
     offset ← match lbl !! target with
              | Some a => inr (a - addr)
              | None => parse_immediate target 21 true
              end;
     encode_j_type "jal" rd' offset).
Proof.
  intros Hrd Ht. unfold assemble_instruction.
  fold (tokenize ("jal " +:+ rd +:+ "," +:+ target)).
  change ("jal " +:+ rd +:+ "," +:+ target)
    with ("jal" +:+ String " " (rd +:+ String "," target)).
  rewrite (tokenize_cons "jal"), (tokenize_cons rd), (tokenize_last target)
    by (assumption || reflexivity).
  now rewrite parts_jal.
Qed.

(** *** The offset a branch word carries *)

Section BranchWords.

(** A property checked on every number of a range holds on the range. *)
Lemma range_check (check : Z -> bool) (lo n : Z) :
  forallb (fun k => check (lo + Z.of_nat k)) (seq 0 (Z.to_nat n)) = true ->
  forall z, lo <= z < lo + n -> check z = true.
Proof.
  intros H z Hz. rewrite forallb_forall in H.
  specialize (H (Z.to_nat (z - lo))).
  replace (lo + Z.of_nat (Z.to_nat (z - lo))) with z in H by lia.
  apply H, in_seq. lia.
Qed.

Lemma b_type_field_lor a b :
  b_type_field (Z.lor a b) = Z.lor (b_type_field a) (b_type_field b).
Proof.
  unfold b_type_field.
  rewrite !Z.shiftr_lor, !Z.land_lor_distr_l, !Z.shiftl_lor.
  apply Z.bits_inj'. intros n _. rewrite !Z.lor_spec.
  repeat match goal with
         | |- context [Z.testbit ?x n] =>
             generalize (Z.testbit x n); intros ?
         end.
  repeat match goal with b : bool |- _ => destruct b end; reflexivity.
Qed.

Lemma b_type_word_halves rs1 rs2 funct3 opcode imm :
  Z.lor (Z.lor (Z.lor (Z.lor (Z.lor (Z.lor (Z.lor
    (Z.shiftl (Z.land (Z.shiftr imm 12) 1) 31)
    (Z.shiftl (Z.land (Z.shiftr imm 5) 63) 25)) (Z.shiftl rs2 20))
    (Z.shiftl rs1 15)) (Z.shiftl funct3 12))
    (Z.shiftl (Z.land (Z.shiftr imm 1) 15) 8))
    (Z.shiftl (Z.land (Z.shiftr imm 11) 1) 7)) opcode
  = Z.lor (b_type_imm_bits imm) (b_type_other_bits rs1 rs2 funct3 opcode).
Proof.
  unfold b_type_imm_bits, b_type_other_bits.
  apply Z.bits_inj'. intros n _. rewrite !Z.lor_spec.
  repeat match goal with
         | |- context [Z.testbit ?x n] =>
             generalize (Z.testbit x n); intros ?
         end.
  repeat match goal with b : bool |- _ => destruct b end; reflexivity.
Qed.

(** The registers, funct3 and the opcode of a branch leave the offset
    field empty. *)
Lemma b_type_other_bits_field rs1 rs2 funct3 :
  fits 5 rs1 -> fits 5 rs2 -> fits 3 funct3 ->
  b_type_field (b_type_other_bits rs1 rs2 funct3 99) = 0.
Proof.
  intros H1 H2 H3.
  pose (check := fun a => forallb (fun j => forallb (fun k =>
           b_type_field (b_type_other_bits a (Z.of_nat j) (Z.of_nat k) 99) =? 0)
           (seq 0 8)) (seq 0 32)).
  assert (Hall : forallb (fun i => check (0 + Z.of_nat i))
                   (seq 0 (Z.to_nat 32)) = true)
    by (vm_compute; reflexivity).
  pose proof (range_check check 0 32 Hall rs1) as Hc.
  unfold fits in H1, H2, H3. simpl in H1, H2, H3.
  specialize (Hc ltac:(lia)). unfold check in Hc.
  rewrite forallb_forall in Hc.
  specialize (Hc (Z.to_nat rs2) ltac:(apply in_seq; lia)).
  rewrite forallb_forall in Hc.
  specialize (Hc (Z.to_nat funct3) ltac:(apply in_seq; lia)).
  rewrite !Z2Nat.id in Hc by lia. now apply Z.eqb_eq.
Qed.

(** The offset bits of a branch give back an even offset of 13 bits. *)
Lemma b_type_imm_bits_offset imm :
  -4096 <= imm < 4096 -> Z.even imm = true ->
  b_type_offset (b_type_imm_bits imm) = imm.
Proof.
  intros Hr He.
  pose (check := fun z =>
          negb (Z.even z) || (b_type_offset (b_type_imm_bits z) =? z)).
  assert (Hall : forallb (fun k => check (-4096 + Z.of_nat k))
                   (seq 0 (Z.to_nat 8192)) = true)
    by (vm_compute; reflexivity).
  pose proof (range_check check (-4096) 8192 Hall imm ltac:(lia)) as Hc.
  unfold check in Hc. rewrite He in Hc. now apply Z.eqb_eq.
Qed.

(** The word of a branch, by its two halves. *)
Lemma encode_b_type_word instr rs1 rs2 imm :
  In instr BRANCHES ->
  exists funct3,
    fits 3 funct3
    /\ encode_b_type instr rs1 rs2 imm
       = inr (Z.lor (b_type_imm_bits imm)
                (b_type_other_bits rs1 rs2 funct3 99)).
Proof.
  intros Hin.
  assert (exists funct3,
             fits 3 funct3
             /\ encode_b_type instr rs1 rs2 imm
                = inr (Z.lor (Z.lor (Z.lor (Z.lor (Z.lor (Z.lor (Z.lor
                    (Z.shiftl (Z.land (Z.shiftr imm 12) 1) 31)
                    (Z.shiftl (Z.land (Z.shiftr imm 5) 63) 25))
                    (Z.shiftl rs2 20)) (Z.shiftl rs1 15))
                    (Z.shiftl funct3 12))
                    (Z.shiftl (Z.land (Z.shiftr imm 1) 15) 8))
                    (Z.shiftl (Z.land (Z.shiftr imm 11) 1) 7)) 99))
    as (funct3 & H3 & Hw).
  { destruct Hin as [<- | [<- | [<- | [<- | [<- | [<- | []]]]]]];
      [exists 0 | exists 1 | exists 4 | exists 5 | exists 6 | exists 7];
      (split; [unfold fits; simpl; lia | reflexivity]). }
  exists funct3. split; [exact H3 |]. now rewrite Hw, b_type_word_halves.
Qed.

(** Within the 13-bit range, the word of a branch carries the offset it
    was given. *)
Lemma branch_word_offset instr rs1 rs2 imm word :
  In instr BRANCHES -> fits 5 rs1 -> fits 5 rs2 ->
  -4096 <= imm < 4096 -> Z.even imm = true ->
  encode_b_type instr rs1 rs2 imm = inr word ->
  b_type_offset word = imm.
Proof.
  intros Hin H1 H2 Hr He Hw.
  destruct (encode_b_type_word instr rs1 rs2 imm Hin) as (funct3 & H3 & Hw').
  rewrite Hw' in Hw. injection Hw as <-.
  unfold b_type_offset.
  rewrite b_type_field_lor, (b_type_other_bits_field _ _ _ H1 H2 H3), Z.lor_0_r.
  now apply b_type_imm_bits_offset.
Qed.

End BranchWords.

(** The backward branch of [loop_source] carries the offset -4. *)
Lemma loop_source_branch :
  snd (assemble init loop_source) = inr [0x00310133; 0xFE209EE3; 0x00000073]
  /\ labels (fst (assemble init loop_source)) !! "loop" = Some 0
  /\ b_type_offset 0xFE209EE3 = -4.
Proof. vm_compute. repeat split. Qed.

(** C3: in [far_branch_source] the branch at address 0 names the label
    [far], bound to address 4096.  The offset computed is 4096 - 0, but it is
    handed to the B-type encoder unchecked, and the word produced,
    0x80000063, carries the offset -4096: the encoded offset is not the
    distance to the label.  The same distance written as a literal is
    rejected by the 13-bit range check. *)
Theorem C3_far_label_offset :
  labels (fst (run_passes init far_branch_source)) !! "far" = Some 4096
  /\ instructions (fst (run_passes init far_branch_source)) !! 0%nat
     = Some (0, "beq x0, x0, far", 1%nat)
  /\ errors (fst (run_passes init far_branch_source)) = []
  /\ machine_code (fst (run_passes init far_branch_source)) !! 0%nat
     = Some 0x80000063
  /\ b_type_offset 0x80000063 = -4096
  /\ b_type_offset 0x80000063 <> 4096 - 0
  /\ assemble_instruction ∅ "beq x0, x0, 4096" 0
     = inl (ValueError (ImmediateOutOfRange 4096 (-4096) 4095)).
Proof.
  vm_compute. repeat split. discriminate.
Qed.

(** ** The Verilog text *)

Section Verilog.

Context {A B : Type}.

Lemma zip_length (xs : list A) (ys : list B) :
  length (zip xs ys) = Nat.min (length xs) (length ys).
Proof.
  revert ys. induction xs as [|x xs IH]; intros [|y ys]; simpl; auto.
Qed.

Lemma zip_lookup (xs : list A) (ys : list B) k x y :
  xs !! k = Some x -> ys !! k = Some y -> zip xs ys !! k = Some (x, y).
Proof.
  revert ys k. induction xs as [|x' xs IH]; intros [|y' ys] [|k]; simpl;
    try discriminate.
  - now intros [= ->] [= ->].
  - apply IH.
Qed.

Lemma enumerate_length i (l : list A) : length (enumerate i l) = length l.
Proof.
  revert i. induction l as [|x l IH]; intros i; simpl; [reflexivity |].
  now rewrite IH.
Qed.

Lemma enumerate_lookup i (l : list A) k x :
  l !! k = Some x -> enumerate i l !! k = Some ((i + k)%nat, x).
Proof.
  revert i k. induction l as [|x' l IH]; intros i [|k]; simpl;
    try discriminate.
  - intros [= ->]. now rewrite Nat.add_0_r.
  - intros H. rewrite (IH (S i) k H). do 2 f_equal. lia.
Qed.

End Verilog.

(** After both passes there are at most as many words as pending
    instructions. *)
Lemma run_passes_lengths source :
  (length (machine_code (fst (run_passes init source)))
   <= length (instructions (fst (run_passes init source))))%nat.
Proof.
  rewrite (run_passes_spec source). cbn [fst machine_code instructions].
  pose proof (words_diagnostics_length
                (labels (first_pass init (Str.split "010" source)))
                (instructions (first_pass init (Str.split "010" source)))).
  lia.
Qed.

(** C8, as the code has it: the text holds one entry
    [I_MEM_BLOCK[i]  = 32'hWORD;  // 0xADDR: text] per machine word, the
    word of index [i] with the pending instruction of index [i] (which it
    encodes when there is no diagnostic), followed by no-op fillers for the
    indices from the number [n] of words up to [min (n + 5) 64]: at most
    five, none at index 64 or beyond, each with the word of [nop],
    0x00000013. *)
Theorem C8_to_verilog (source : string) :
  let st := fst (run_passes init source) in
  let n := length (machine_code st) in
  to_verilog st
  = Str.join_lines
      (verilog_header ++ verilog_entries st
       ++ [""; "        // Fill remaining with NOPs"]
       ++ verilog_fillers st ++ ["    end"])
  /\ length (verilog_entries st) = n
  /\ (forall i code,
         machine_code st !! i = Some code ->
         exists addr asm k,
           instructions st !! i = Some (addr, asm, k)
           /\ verilog_entries st !! i
              = Some ("        I_MEM_BLOCK[" +:+ format_int 10 0 (Z.of_nat i)
                      +:+ "]  = 32'h" +:+ format_int 16 8 code
                      +:+ ";  // 0x" +:+ format_int 16 2 addr +:+ ": " +:+ asm)
           /\ (errors st = [] ->
               assemble_instruction (labels st) asm addr = inr code))
  /\ verilog_fillers st = verilog_filler <$> seq n (Nat.min 5 (64 - n))
  /\ (length (verilog_fillers st) <= 5)%nat
  /\ (forall i lbl addr,
         exists word,
           assemble_instruction lbl "nop" addr = inr word
           /\ word = 0x00000013
           /\ verilog_filler i
              = "        I_MEM_BLOCK[" +:+ format_int 10 0 (Z.of_nat i)
                +:+ "] = 32'h" +:+ format_int 16 8 word +:+ ";  // nop").
Proof.
  intros st n. pose proof (run_passes_lengths source) as Hlen.
  fold st in Hlen. fold n in Hlen.
  split; [reflexivity | split; [| split; [| split; [| split]]]].
  - unfold verilog_entries.
    rewrite length_fmap, enumerate_length, zip_length. lia.
  - intros i code Hi.
    assert (Hlt : (i < length (instructions st))%nat).
    { apply lookup_lt_Some in Hi. fold n in Hi. lia. }
    destruct (lookup_lt_is_Some_2 _ _ Hlt) as [[[addr asm] k] Hins].
    exists addr, asm, k. split; [exact Hins | split].
    + unfold verilog_entries.
      rewrite list_lookup_fmap,
        (enumerate_lookup 0 _ i _ (zip_lookup _ _ _ _ _ Hi Hins)).
      reflexivity.
    + intros He. subst st. rewrite (run_passes_spec source) in *.
      cbn [fst labels errors machine_code instructions] in *.
      destruct (words_of_aligned _ _ He _ _ Hins) as (w & Hw & Hw').
      rewrite Hi in Hw'. injection Hw' as <-. exact Hw.
  - unfold verilog_fillers, range. fold n. f_equal. f_equal. lia.
  - unfold verilog_fillers, range. fold n. rewrite length_fmap, length_seq. lia.
  - intros i lbl addr. exists 0x00000013. repeat split.
Qed.

(** A use of C8 on the second word of [loop_source]. *)
Lemma C8_to_verilog_witness :
  exists addr asm k,
    instructions (fst (run_passes init loop_source)) !! 1%nat
    = Some (addr, asm, k)
    /\ verilog_entries (fst (run_passes init loop_source)) !! 1%nat
       = Some ("        I_MEM_BLOCK[" +:+ format_int 10 0 (Z.of_nat 1)
               +:+ "]  = 32'h" +:+ format_int 16 8 0xFE209EE3
               +:+ ";  // 0x" +:+ format_int 16 2 addr +:+ ": " +:+ asm).
Proof.
  destruct (C8_to_verilog loop_source) as (_ & _ & H & _).
  destruct (H 1%nat 0xFE209EE3 eq_refl) as (addr & asm & k & H1 & H2 & _).
  exists addr, asm, k. split; [exact H1 | exact H2].
Defined.

(** C8, as stated, fails: the fillers do not go up to the capacity of 64
    entries.  After the three words of [loop_source] come the fillers of the
    indices 3 to 7 and nothing more. *)
Lemma C8_fillers_stop_short :
  verilog_fillers (fst (run_passes init loop_source))
  = ["        I_MEM_BLOCK[3] = 32'h00000013;  // nop";
     "        I_MEM_BLOCK[4] = 32'h00000013;  // nop";
     "        I_MEM_BLOCK[5] = 32'h00000013;  // nop";
     "        I_MEM_BLOCK[6] = 32'h00000013;  // nop";
     "        I_MEM_BLOCK[7] = 32'h00000013;  // nop"]
  /\ length (machine_code (fst (run_passes init loop_source))) = 3%nat
  /\ length (verilog_fillers (fst (run_passes init loop_source)))
     <> (64 - length (machine_code (fst (run_passes init loop_source))))%nat
  /\ ~ (forall i,
          (length (machine_code (fst (run_passes init loop_source))) <= i
           < 64)%nat ->
          verilog_filler i
          ∈ to_verilog_lines (fst (run_passes init loop_source))).
Proof.
  split; [vm_compute; reflexivity | split; [vm_compute; reflexivity | split]].
  - vm_compute. discriminate.
  - intros H. specialize (H 8%nat ltac:(vm_compute; lia)).
    apply list_elem_of_In in H. vm_compute in H.
    repeat (destruct H as [H | H]; [discriminate H |]). exact H.
Qed.

(** * Further properties *)

(** ** Fields of a word *)

Section Fields.

Lemma testbit_field w lo k n :
  0 <= lo -> 0 <= k -> 0 <= n ->
  Z.testbit (field w lo k) n = Z.testbit w (n + lo) && (n <? k).
Proof.
  intros Hlo Hk Hn. unfold field.
  now rewrite Z.land_spec, Z.shiftr_spec, Z.testbit_ones_nonneg by lia.
Qed.

Lemma fits_testbit_high k x i : fits k x -> k <= i -> Z.testbit x i = false.
Proof.
  intros [H0 H1] Hi. destruct (Z.eq_dec x 0) as [-> | Hx].
  - apply Z.bits_0.
  - assert (0 <= k).
    { destruct (Z.lt_ge_cases k 0) as [Hk | Hk]; [| exact Hk].
      rewrite Z.pow_neg_r in H1 by exact Hk. lia. }
    apply Z.bits_above_log2; [exact H0 |].
    apply Z.lt_le_trans with k; [| exact Hi].
    apply Z.log2_lt_pow2; lia.
Qed.

Lemma field_lor a b lo k :
  field (Z.lor a b) lo k = Z.lor (field a lo k) (field b lo k).
Proof. unfold field. now rewrite Z.shiftr_lor, Z.land_lor_distr_l. Qed.

(** Reading at or above the place where [x] was put. *)
Lemma field_shiftl_ge x s lo k :
  0 <= s <= lo -> 0 <= k -> field (Z.shiftl x s) lo k = field x (lo - s) k.
Proof.
  intros Hs Hk. apply Z.bits_inj'. intros n Hn.
  rewrite !testbit_field, Z.shiftl_spec by lia. do 2 f_equal. lia.
Qed.

(** Reading below it. *)
Lemma field_shiftl_lt x s lo k :
  0 <= lo -> 0 <= k -> lo + k <= s -> field (Z.shiftl x s) lo k = 0.
Proof.
  intros Hlo Hk Hs. apply Z.bits_inj'. intros n Hn.
  rewrite testbit_field, Z.bits_0 by lia.
  destruct (Z.ltb_spec n k) as [Hlt | Hge]; [| apply andb_false_r].
  rewrite Z.shiftl_spec_low by lia. reflexivity.
Qed.

(** Reading above all the bits of [x]. *)
Lemma field_above x k' lo k :
  fits k' x -> 0 <= k' <= lo -> 0 <= k -> field x lo k = 0.
Proof.
  intros Hx Hlo Hk. apply Z.bits_inj'. intros n Hn.
  rewrite testbit_field, Z.bits_0 by lia.
  now rewrite (fits_testbit_high k' x (n + lo)) by (assumption || lia).
Qed.

(** Reading exactly the bits of [x]. *)
Lemma field_exact x lo k : fits k x -> lo = 0 -> field x lo k = x.
Proof.
  intros Hx ->. unfold field. rewrite Z.shiftr_0_r.
  destruct (Z.lt_ge_cases k 0) as [Hk | Hk].
  - destruct Hx as [H0 H1]. rewrite Z.pow_neg_r in H1 by exact Hk. lia.
  - rewrite Z.land_ones by exact Hk. apply Z.mod_small, Hx.
Qed.

(** Reading inside a mask. *)
Lemma field_land_ones x m lo k :
  0 <= lo -> 0 <= k -> lo + k <= m ->
  field (Z.land x (Z.ones m)) lo k = field x lo k.
Proof.
  intros Hlo Hk Hm. apply Z.bits_inj'. intros n Hn.
  rewrite !testbit_field, Z.land_spec by lia.
  destruct (Z.ltb_spec n k) as [Hlt | Hge]; [| now rewrite !andb_false_r].
  rewrite Z.testbit_ones_nonneg by lia.
  destruct (Z.ltb_spec (n + lo) m); [| lia]. now rewrite !andb_true_r.
Qed.

Lemma field_fits w lo k : 0 <= k -> fits k (field w lo k).
Proof. intros Hk. apply fits_land_ones, Hk. Qed.

(** The field of [k] bits at [a], left in its place. *)
Lemma testbit_in_place x a k n :
  0 <= a -> 0 <= k -> 0 <= n ->
  Z.testbit (Z.shiftl (field x a k) a) n
  = (a <=? n) && (n <? a + k) && Z.testbit x n.
Proof.
  intros Ha Hk Hn. rewrite Z.shiftl_spec by exact Hn.
  destruct (Z.leb_spec a n) as [Hle | Hgt].
  - rewrite testbit_field by lia. replace (n - a + a) with n by lia.
    destruct (Z.ltb_spec (n - a) k), (Z.ltb_spec n (a + k)); try lia;
      simpl; rewrite ?andb_true_r, ?andb_false_r; reflexivity.
  - now rewrite Z.testbit_neg_r by lia.
Qed.

Lemma in_place_arith x m :
  0 <= m -> Z.shiftl (field x 1 m) 1 = 2 * ((x / 2) mod 2 ^ m).
Proof.
  intros Hm. unfold field.
  rewrite Z.land_ones, Z.shiftr_div_pow2, Z.shiftl_mul_pow2 by lia.
  change (2 ^ 1) with 2. lia.
Qed.

End Fields.

Lemma field_low_mod x k : 0 <= k -> field x 0 k = x mod 2 ^ k.
Proof. intros Hk. unfold field. now rewrite Z.shiftr_0_r, Z.land_ones. Qed.

(** The masks of the encoders, as fields. *)
Ltac as_fields :=
  repeat first
    [ progress change (Z.land (Z.shiftr ?w ?a) 1) with (field w a 1)
    | progress change (Z.land (Z.shiftr ?w ?a) 15) with (field w a 4)
    | progress change (Z.land (Z.shiftr ?w ?a) 63) with (field w a 6)
    | progress change (Z.land (Z.shiftr ?w ?a) 127) with (field w a 7)
    | progress change (Z.land (Z.shiftr ?w ?a) 255) with (field w a 8)
    | progress change (Z.land (Z.shiftr ?w ?a) 1023) with (field w a 10) ];
  repeat first
    [ progress change (Z.land ?w 31) with (field w 0 5)
    | progress change 4095 with (Z.ones 12)
    | progress change 1048575 with (Z.ones 20) ].

Ltac note_fields :=
  repeat match goal with
         | |- context [Z.shiftl (field ?x ?a ?k) _] =>
             lazymatch goal with
             | H : fits k (field x a k) |- _ => fail
             | _ => pose proof (field_fits x a k ltac:(lia))
             end
         end.

(** A chain of fields joined by [Z.lor], read field by field. *)
Ltac read_step :=
  match goal with
  | |- context [field (Z.lor ?a ?b) ?lo ?k] => rewrite (field_lor a b lo k)
  | |- context [field (Z.shiftl ?x ?s) ?lo ?k] =>
      first [ rewrite (field_shiftl_ge x s lo k) by lia
            | rewrite (field_shiftl_lt x s lo k) by lia ]
  | |- context [field (Z.land ?x (Z.ones ?m)) ?lo ?k] =>
      rewrite (field_land_ones x m lo k) by lia
  | H : fits ?k' ?x |- context [field ?x ?lo ?k] =>
      first [ rewrite (field_exact x lo k) by (assumption || lia)
            | rewrite (field_above x k' lo k H) by lia ]
  end.

Ltac read_fields := repeat read_step; rewrite ?Z.lor_0_l, ?Z.lor_0_r.

(** Bit ranges that tile a longer one. *)
Ltac tile_bits :=
  match goal with
  | |- context [Z.testbit ?x ?n] =>
      destruct (Z.testbit x n);
      rewrite ?andb_false_r, ?andb_true_r; [| reflexivity]
  end;
  repeat match goal with
         | |- context [?a <=? ?b] => destruct (Z.leb_spec a b)
         | |- context [?a <? ?b] => destruct (Z.ltb_spec a b)
         end;
  simpl; first [reflexivity | lia].

(** ** The encoders, read back *)

Section Encoders.

Lemma bind_mret {A B} (a : A) (k : A -> result B) : mret a ≫= k = k a.
Proof. reflexivity. Qed.

(** X1: the word of [encode_r_type] (and of [encode_crypto], which packs
    the same fields) holds, for registers of 5 bits, funct7 in bits 31:25,
    rs2 in 24:20, rs1 in 19:15, funct3 in 14:12, rd in 11:7 and the opcode
    in 6:0, each as the tables give it for the mnemonic, so that every
    operand can be read back. *)
Theorem X1_encode_r_type_fields instr rd rs1 rs2 word :
  fits 5 rd -> fits 5 rs1 -> fits 5 rs2 ->
  encode_r_type instr rd rs1 rs2 = inr word
  \/ encode_crypto instr rd rs1 rs2 = inr word ->
  dict_get FUNCT7 instr = inr (field word 25 7)
  /\ field word 20 5 = rs2
  /\ field word 15 5 = rs1
  /\ dict_get FUNCT3 instr = inr (field word 12 3)
  /\ field word 7 5 = rd
  /\ dict_get OPCODES instr = inr (field word 0 7).
Proof.
  intros Hrd H1 H2 Hw.
  assert (Hw' : encode_r_type instr rd rs1 rs2 = inr word)
    by (destruct Hw as [Hw | Hw]; exact Hw).
  clear Hw. unfold encode_r_type in Hw'.
  destruct (dict_get OPCODES instr) as [e | op] eqn:Eo; [discriminate |].
  rewrite bind_inr in Hw'.
  destruct (dict_get FUNCT3 instr) as [e | f3] eqn:E3; [discriminate |].
  rewrite bind_inr in Hw'.
  destruct (dict_get FUNCT7 instr) as [e | f7] eqn:E7; [discriminate |].
  rewrite bind_inr in Hw'. injection Hw' as <-.
  pose proof (fits_opcode _ _ Eo) as Ho.
  pose proof (fits_funct3 _ _ E3) as Hf3.
  pose proof (fits_funct7 _ _ E7) as Hf7.
  repeat split; try f_equal; read_fields; reflexivity.
Qed.

(** What [encode_i_type] and [encode_s_type] return, when they return: the
    fields of the tables, joined. *)
Lemma encode_i_type_inv instr rd rs1 imm word :
  encode_i_type instr rd rs1 imm = inr word ->
  exists op f3 imm',
    dict_get OPCODES instr = inr op /\ fits 7 op
    /\ dict_get FUNCT3 instr = inr f3 /\ fits 3 f3
    /\ (if mem instr SHIFT_IMM
        then exists f7, dict_get FUNCT7 instr = inr f7 /\ fits 7 f7
                        /\ imm' = Z.lor (Z.shiftl f7 5) (Z.land imm 31)
        else imm' = imm)
    /\ word = Z.lor (Z.lor (Z.lor (Z.lor
                (Z.shiftl (Z.land imm' 4095) 20) (Z.shiftl rs1 15))
                (Z.shiftl f3 12)) (Z.shiftl rd 7)) op.
Proof.
  intros Hw. unfold encode_i_type in Hw.
  destruct (dict_get OPCODES instr) as [e | op] eqn:Eo; [discriminate |].
  rewrite bind_inr in Hw.
  destruct (dict_get FUNCT3 instr) as [e | f3] eqn:E3; [discriminate |].
  rewrite bind_inr in Hw.
  change (mem instr ["slli"; "srli"; "srai"]) with (mem instr SHIFT_IMM) in Hw.
  exists op, f3.
  destruct (mem instr SHIFT_IMM).
  - destruct (dict_get FUNCT7 instr) as [e | f7] eqn:E7; [discriminate |].
    rewrite bind_inr, bind_mret in Hw. injection Hw as <-.
    exists (Z.lor (Z.shiftl f7 5) (Z.land imm 31)).
    split; [reflexivity | split; [exact (fits_opcode _ _ Eo) |]].
    split; [reflexivity | split; [exact (fits_funct3 _ _ E3) |]].
    split; [| reflexivity].
    exists f7. split; [reflexivity | split; [| reflexivity]].
    exact (fits_funct7 _ _ E7).
  - rewrite bind_mret in Hw. injection Hw as <-.
    exists imm.
    split; [reflexivity | split; [exact (fits_opcode _ _ Eo) |]].
    split; [reflexivity | split; [exact (fits_funct3 _ _ E3) |]].
    split; reflexivity.
Qed.

Lemma encode_s_type_inv instr rs2 rs1 imm word :
  encode_s_type instr rs2 rs1 imm = inr word ->
  exists op f3,
    dict_get OPCODES instr = inr op /\ fits 7 op
    /\ dict_get FUNCT3 instr = inr f3 /\ fits 3 f3
    /\ word = Z.lor (Z.lor (Z.lor (Z.lor (Z.lor
                (Z.shiftl (Z.land (Z.shiftr imm 5) 127) 25)
                (Z.shiftl rs2 20)) (Z.shiftl rs1 15))
                (Z.shiftl f3 12)) (Z.shiftl (Z.land imm 31) 7)) op.
Proof.
  intros Hw. unfold encode_s_type in Hw.
  destruct (dict_get OPCODES instr) as [e | op] eqn:Eo; [discriminate |].
  rewrite bind_inr in Hw.
  destruct (dict_get FUNCT3 instr) as [e | f3] eqn:E3; [discriminate |].
  rewrite bind_inr in Hw. cbv zeta in Hw. injection Hw as <-.
  exists op, f3.
  split; [reflexivity | split; [exact (fits_opcode _ _ Eo) |]].
  split; [reflexivity | split; [exact (fits_funct3 _ _ E3) |]].
  reflexivity.
Qed.

(** The offset of a store, read from the two places that hold it. *)
Lemma s_type_field_read rs2 rs1 f3 imm op :
  fits 5 rs2 -> fits 5 rs1 -> fits 3 f3 -> fits 7 op ->
  s_type_field
    (Z.lor (Z.lor (Z.lor (Z.lor (Z.lor
       (Z.shiftl (Z.land (Z.shiftr imm 5) 127) 25)
       (Z.shiftl rs2 20)) (Z.shiftl rs1 15))
       (Z.shiftl f3 12)) (Z.shiftl (Z.land imm 31) 7)) op)
  = imm mod 4096.
Proof.
  intros H2 H1 Hf3 Ho. as_fields.
  pose proof (field_fits imm 5 7 ltac:(lia)) as Hhi.
  pose proof (field_fits imm 0 5 ltac:(lia)) as Hlo.
  unfold s_type_field. read_fields.
  change 4096 with (2 ^ 12). rewrite <- (field_low_mod imm 12) by lia.
  apply Z.bits_inj'. intros n Hn.
  rewrite Z.lor_spec, testbit_in_place, !testbit_field by lia.
  rewrite Z.add_0_r. tile_bits.
Qed.

(** X2: the word of [encode_i_type] holds, for registers of 5 bits, rs1,
    funct3, rd and the opcode in their places and, in bits 31:20, the low 12
    bits of the immediate; for the three shifts by an immediate it holds the
    low 5 bits of the amount in bits 24:20 and funct7 above them. *)
Theorem X2_encode_i_type_fields instr rd rs1 imm word :
  fits 5 rd -> fits 5 rs1 ->
  encode_i_type instr rd rs1 imm = inr word ->
  field word 15 5 = rs1
  /\ dict_get FUNCT3 instr = inr (field word 12 3)
  /\ field word 7 5 = rd
  /\ dict_get OPCODES instr = inr (field word 0 7)
  /\ (if mem instr SHIFT_IMM
      then field word 20 5 = imm mod 32
           /\ dict_get FUNCT7 instr = inr (field word 25 7)
      else field word 20 12 = imm mod 4096).
Proof.
  intros Hrd H1 (op & f3 & imm' & Eo & Ho & E3 & Hf3 & Himm & ->)
    %encode_i_type_inv.
  rewrite Eo, E3. destruct (mem instr SHIFT_IMM).
  - destruct Himm as (f7 & -> & Hf7 & ->).
    as_fields. note_fields.
    pose proof (field_fits imm 0 5 ltac:(lia)) as Hs.
    repeat split; try f_equal; read_fields; try reflexivity.
    replace (20 - 20) with 0 by lia. apply field_low_mod. lia.
  - subst imm'. as_fields.
    pose proof (fits_land_ones 12 imm ltac:(lia)) as Hi.
    repeat split; try f_equal; read_fields; try reflexivity.
    replace (20 - 20) with 0 by lia. apply field_low_mod. lia.
Qed.

(** X3: the word of [encode_s_type] holds, for registers of 5 bits, rs2,
    rs1, funct3 and the opcode in their places, and its two immediate fields
    put together are the low 12 bits of the immediate. *)
Theorem X3_encode_s_type_fields instr rs2 rs1 imm word :
  fits 5 rs2 -> fits 5 rs1 ->
  encode_s_type instr rs2 rs1 imm = inr word ->
  s_type_field word = imm mod 4096
  /\ field word 20 5 = rs2
  /\ field word 15 5 = rs1
  /\ dict_get FUNCT3 instr = inr (field word 12 3)
  /\ dict_get OPCODES instr = inr (field word 0 7).
Proof.
  intros H2 H1 (op & f3 & Eo & Ho & E3 & Hf3 & ->)%encode_s_type_inv.
  split; [now apply s_type_field_read |].
  rewrite Eo, E3. as_fields.
  pose proof (field_fits imm 5 7 ltac:(lia)) as Hhi.
  pose proof (field_fits imm 0 5 ltac:(lia)) as Hlo.
  repeat split; try f_equal; read_fields; reflexivity.
Qed.

(** X4: the word of [encode_b_type] holds, for registers of 5 bits, rs2,
    rs1, funct3 and the opcode in their places, and its offset field carries
    the bits 12 to 1 of the offset it is given: bit 0 and the bits above bit
    12 are dropped, whatever the offset. *)
Theorem X4_encode_b_type_fields instr rs1 rs2 imm word :
  fits 5 rs1 -> fits 5 rs2 ->
  encode_b_type instr rs1 rs2 imm = inr word ->
  b_type_field word = 2 * ((imm / 2) mod 4096)
  /\ field word 20 5 = rs2
  /\ field word 15 5 = rs1
  /\ dict_get FUNCT3 instr = inr (field word 12 3)
  /\ dict_get OPCODES instr = inr (field word 0 7).
Proof.
  intros H1 H2 Hw. unfold encode_b_type in Hw.
  destruct (dict_get OPCODES instr) as [e | op] eqn:Eo; [discriminate |].
  rewrite bind_inr in Hw.
  destruct (dict_get FUNCT3 instr) as [e | f3] eqn:E3; [discriminate |].
  rewrite bind_inr in Hw. cbv zeta in Hw. injection Hw as <-.
  pose proof (fits_opcode _ _ Eo) as Ho.
  pose proof (fits_funct3 _ _ E3) as Hf3.
  unfold b_type_field. cbv zeta. as_fields. note_fields.
  split; [| repeat split; try f_equal; read_fields; reflexivity].
  read_fields.
  change 4096 with (2 ^ 12). rewrite <- in_place_arith by lia.
  apply Z.bits_inj'. intros n Hn.
  rewrite !Z.lor_spec, !testbit_in_place by lia. tile_bits.
Qed.

(** X5: the word of [encode_u_type] holds, for a register of 5 bits, the
    low 20 bits of the immediate in bits 31:12, rd and the opcode. *)
Theorem X5_encode_u_type_fields instr rd imm word :
  fits 5 rd ->
  encode_u_type instr rd imm = inr word ->
  field word 12 20 = imm mod 2 ^ 20
  /\ field word 7 5 = rd
  /\ dict_get OPCODES instr = inr (field word 0 7).
Proof.
  intros Hrd Hw. unfold encode_u_type in Hw.
  destruct (dict_get OPCODES instr) as [e | op] eqn:Eo; [discriminate |].
  rewrite bind_inr in Hw. injection Hw as <-.
  pose proof (fits_opcode _ _ Eo) as Ho.
  as_fields. pose proof (fits_land_ones 20 imm ltac:(lia)) as Hi.
  repeat split; try f_equal; read_fields; try reflexivity.
  replace (12 - 12) with 0 by lia. apply field_low_mod. lia.
Qed.

(** X6: the word of [encode_j_type] holds, for a register of 5 bits, rd and
    the opcode in their places, and its offset field carries the bits 20 to 1
    of the offset it is given: bit 0 and the bits above bit 20 are dropped,
    whatever the offset. *)
Theorem X6_encode_j_type_fields instr rd imm word :
  fits 5 rd ->
  encode_j_type instr rd imm = inr word ->
  j_type_field word = 2 * ((imm / 2) mod 2 ^ 20)
  /\ field word 7 5 = rd
  /\ dict_get OPCODES instr = inr (field word 0 7).
Proof.
  intros Hrd Hw. unfold encode_j_type in Hw.
  destruct (dict_get OPCODES instr) as [e | op] eqn:Eo; [discriminate |].
  rewrite bind_inr in Hw. cbv zeta in Hw. injection Hw as <-.
  pose proof (fits_opcode _ _ Eo) as Ho.
  unfold j_type_field. as_fields. note_fields.
  split; [| repeat split; try f_equal; read_fields; reflexivity].
  read_fields.
  rewrite <- in_place_arith by lia.
  apply Z.bits_inj'. intros n Hn.
  rewrite !Z.lor_spec, !testbit_in_place by lia. tile_bits.
Qed.

End Encoders.

(** The words of [sub x3, x1, x2], [srai x3, x1, 5] (asked with the shift
    amount 37), [sw x3, -4(x1)], [bne x3, x1, -4], [lui x3, 0x12345] and
    [jal x1, -8], read back. *)
Lemma X1_encode_r_type_fields_witness :
  encode_r_type "sub" 3 1 2 = inr 1075872179
  /\ dict_get FUNCT7 "sub" = inr (field 1075872179 25 7)
  /\ field 1075872179 20 5 = 2
  /\ field 1075872179 15 5 = 1
  /\ dict_get FUNCT3 "sub" = inr (field 1075872179 12 3)
  /\ field 1075872179 7 5 = 3
  /\ dict_get OPCODES "sub" = inr (field 1075872179 0 7).
Proof.
  split; [reflexivity |].
  apply (X1_encode_r_type_fields "sub" 3 1 2 1075872179);
    [unfold fits; lia | unfold fits; lia | unfold fits; lia
    | left; reflexivity].
Defined.

Lemma X2_encode_i_type_fields_witness :
  encode_i_type "srai" 3 1 37 = inr 1079038355
  /\ field 1079038355 15 5 = 1
  /\ dict_get FUNCT3 "srai" = inr (field 1079038355 12 3)
  /\ field 1079038355 7 5 = 3
  /\ dict_get OPCODES "srai" = inr (field 1079038355 0 7)
  /\ field 1079038355 20 5 = 37 mod 32
  /\ dict_get FUNCT7 "srai" = inr (field 1079038355 25 7).
Proof.
  split; [reflexivity |].
  exact (X2_encode_i_type_fields "srai" 3 1 37 1079038355
           ltac:(unfold fits; lia) ltac:(unfold fits; lia) eq_refl).
Defined.

Lemma X3_encode_s_type_fields_witness :
  encode_s_type "sw" 3 1 (-4) = inr 4264603171
  /\ s_type_field 4264603171 = (-4) mod 4096
  /\ field 4264603171 20 5 = 3
  /\ field 4264603171 15 5 = 1
  /\ dict_get FUNCT3 "sw" = inr (field 4264603171 12 3)
  /\ dict_get OPCODES "sw" = inr (field 4264603171 0 7).
Proof.
  split; [reflexivity |].
  apply (X3_encode_s_type_fields "sw" 3 1 (-4) 4264603171);
    [unfold fits; lia | unfold fits; lia | reflexivity].
Defined.

Lemma X4_encode_b_type_fields_witness :
  encode_b_type "bne" 3 1 (-4) = inr 4262567651
  /\ b_type_field 4262567651 = 2 * (((-4) / 2) mod 4096)
  /\ field 4262567651 20 5 = 1
  /\ field 4262567651 15 5 = 3
  /\ dict_get FUNCT3 "bne" = inr (field 4262567651 12 3)
  /\ dict_get OPCODES "bne" = inr (field 4262567651 0 7).
Proof.
  split; [reflexivity |].
  apply (X4_encode_b_type_fields "bne" 3 1 (-4) 4262567651);
    [unfold fits; lia | unfold fits; lia | reflexivity].
Defined.

Lemma X5_encode_u_type_fields_witness :
  encode_u_type "lui" 3 74565 = inr 305418679
  /\ field 305418679 12 20 = 74565 mod 2 ^ 20
  /\ field 305418679 7 5 = 3
  /\ dict_get OPCODES "lui" = inr (field 305418679 0 7).
Proof.
  split; [reflexivity |].
  apply (X5_encode_u_type_fields "lui" 3 74565 305418679);
    [unfold fits; lia | reflexivity].
Defined.

Lemma X6_encode_j_type_fields_witness :
  encode_j_type "jal" 1 (-8) = inr 4288671983
  /\ j_type_field 4288671983 = 2 * (((-8) / 2) mod 2 ^ 20)
  /\ field 4288671983 7 5 = 1
  /\ dict_get OPCODES "jal" = inr (field 4288671983 0 7).
Proof.
  split; [reflexivity |].
  apply (X6_encode_j_type_fields "jal" 1 (-8) 4288671983);
    [unfold fits; lia | reflexivity].
Defined.

(** ** Register names *)

Section Registers.

Lemma lower_char_facts c :
  is_space (lower_char c) = is_space c
  /\ lower_char (lower_char c) = lower_char c.
Proof. destruct c as [[] [] [] [] [] [] [] []]; vm_compute; auto. Qed.

Lemma lower_lower s : Str.lower (Str.lower s) = Str.lower s.
Proof.
  unfold Str.lower. induction s as [|c s IH]; simpl; [reflexivity |].
  now rewrite IH, (proj2 (lower_char_facts c)).
Qed.

Lemma lstrip_lower s : Str.lstrip (Str.lower s) = Str.lower (Str.lstrip s).
Proof.
  unfold Str.lower. induction s as [|c s IH]; simpl; [reflexivity |].
  rewrite (proj1 (lower_char_facts c)). now destruct (is_space c).
Qed.

Lemma rstrip_lower s : Str.rstrip (Str.lower s) = Str.lower (Str.rstrip s).
Proof.
  unfold Str.lower. induction s as [|c s IH]; simpl; [reflexivity |].
  rewrite IH, (proj1 (lower_char_facts c)).
  assert (E : Str.is_empty (Str.map lower_char (Str.rstrip s))
              = Str.is_empty (Str.rstrip s)) by now destruct (Str.rstrip s).
  rewrite E. now destruct (is_space c && Str.is_empty (Str.rstrip s)).
Qed.

Lemma strip_lower s : Str.strip (Str.lower s) = Str.lower (Str.strip s).
Proof. unfold Str.strip. now rewrite lstrip_lower, rstrip_lower. Qed.

Lemma parse_register_lower reg :
  parse_register (Str.lower reg) = parse_register reg.
Proof. unfold parse_register. now rewrite strip_lower, lower_lower. Qed.

(** X7: [parse_register] reads [x0] to [x31] as the numbers 0 to 31;
    whatever it returns is a number from 0 to 31; and it fails only with
    the unknown-register error, on the name as it was looked up (trimmed,
    in lower case, without commas). *)
Theorem X7_parse_register :
  (forall i, 0 <= i < 32 ->
             parse_register ("x" +:+ format_int 10 0 i) = inr i)
  /\ (forall reg n, parse_register reg = inr n -> 0 <= n < 32)
  /\ (forall reg e,
         parse_register reg = inl e ->
         e = ValueError
               (UnknownRegister (Str.remove "," (Str.lower (Str.strip reg))))).
Proof.
  split; [| split].
  - intros i Hi.
    pose (check := fun i =>
            match parse_register ("x" +:+ format_int 10 0 i) with
            | inr n => n =? i
            | inl _ => false
            end).
    assert (Hall : forallb (fun k => check (0 + Z.of_nat k))
                     (seq 0 (Z.to_nat 32)) = true)
      by (vm_compute; reflexivity).
    pose proof (range_check check 0 32 Hall i ltac:(lia)) as Hc.
    unfold check in Hc.
    destruct (parse_register ("x" +:+ format_int 10 0 i)) as [e | n];
      [discriminate |].
    apply Z.eqb_eq in Hc. now subst.
  - intros reg n H. exact (fits_register _ _ H).
  - intros reg e. unfold parse_register.
    destruct (REGISTERS !! _); [discriminate |]. now intros [= <-].
Qed.

Lemma X7_parse_register_witness :
  parse_register "x17" = inr 17 /\ 0 <= 17 < 32.
Proof.
  destruct X7_parse_register as (Hx & Hr & _). split.
  - exact (Hx 17 ltac:(lia)).
  - exact (Hr "a7" 17 eq_refl).
Defined.

End Registers.

(** ** The mnemonic *)

Section Mnemonic.

Variable lbl : gmap string Z.
Variable addr : Z.

Lemma index_0 p l : index (p :: l) 0 = inr p.
Proof. reflexivity. Qed.

Lemma index_S p l i : index (p :: l) (S i) = index l i.
Proof. reflexivity. Qed.

(** What [assemble_parts] does once the mnemonic [instr] is known, on the
    operands [rest]. *)
Lemma assemble_parts_by_mnemonic p0 q0 rest :
  Str.lower p0 = Str.lower q0 ->
  assemble_parts lbl (p0 :: rest) addr = assemble_parts lbl (q0 :: rest) addr.
Proof.
  intros H. unfold assemble_parts.
  rewrite !index_0, !bind_inr, !index_S. cbv beta.
  change (length (p0 :: rest)) with (S (length rest)).
  change (length (q0 :: rest)) with (S (length rest)).
  now rewrite H.
Qed.

End Mnemonic.

(** X8: names are read without regard to case.  Two register names that
    differ only by the case of their letters are the same register (or are
    both unknown), and two lines that differ only by the case of the
    mnemonic are encoded alike. *)
Theorem X8_case_insensitive :
  (forall a b, Str.lower a = Str.lower b ->
               parse_register a = parse_register b)
  /\ (forall lbl addr p0 q0 rest,
         Str.lower p0 = Str.lower q0 ->
         assemble_parts lbl (p0 :: rest) addr
         = assemble_parts lbl (q0 :: rest) addr).
Proof.
  split.
  - intros a b H.
    now rewrite <- (parse_register_lower a), <- (parse_register_lower b), H.
  - intros. now apply assemble_parts_by_mnemonic.
Qed.

Lemma X8_case_insensitive_witness :
  parse_register "T0" = parse_register "t0"
  /\ assemble_parts ∅ ["ADDI"; "x1"; "x0"; "1"] 0
     = assemble_parts ∅ ["addi"; "x1"; "x0"; "1"] 0.
Proof.
  destruct X8_case_insensitive as (Hr & Hm). split.
  - exact (Hr "T0" "t0" eq_refl).
  - exact (Hm ∅ 0 "ADDI" "addi" ["x1"; "x0"; "1"] eq_refl).
Defined.

(** ** Immediates, read back *)

(** For a width of at least one bit. *)
Lemma parse_immediate_returned tok bits signed r :
  0 < bits ->
  parse_immediate tok bits signed = inr r ->
  fits bits r
  /\ exists v, literal_value (Str.remove "," (Str.strip tok)) = inr v
       /\ v = (if signed then sign_extend bits r else r).
Proof.
  intros Hb H.
  destruct (literal_value (Str.remove "," (Str.strip tok))) as [e | v] eqn:Ev.
  { unfold parse_immediate in H. rewrite Ev in H. discriminate. }
  rewrite (parse_immediate_value _ _ _ _ Hb Ev) in H.
  destruct ((v <? imm_min bits signed) || (v >? imm_max bits signed)) eqn:E;
    [discriminate |].
  injection H as <-.
  apply orb_false_iff in E as [E1 E2].
  apply Z.ltb_ge in E1. rewrite Z.gtb_ltb in E2. apply Z.ltb_ge in E2.
  assert (Hpow : 2 ^ bits = 2 * 2 ^ (bits - 1)).
  { rewrite <- Z.pow_succ_r by lia. f_equal. lia. }
  assert (Hpos : 0 < 2 ^ (bits - 1)) by (apply Z.pow_pos_nonneg; lia).
  unfold imm_min, imm_max in E1, E2. unfold fits, sign_extend.
  destruct signed.
  - destruct (Z.ltb_spec v 0).
    + split; [lia |]. exists v. split; [reflexivity |].
      destruct (Z.ltb_spec (v + 2 ^ bits) (2 ^ (bits - 1))); lia.
    + split; [lia |]. exists v. split; [reflexivity |].
      destruct (Z.ltb_spec v (2 ^ (bits - 1))); lia.
  - destruct (Z.ltb_spec v 0); [lia |].
    split; [lia |]. exists v. split; reflexivity.
Qed.

(** X9: whatever the width asked for, an immediate that [parse_immediate]
    returns is a number of [bits] bits, and it stands for the value of the
    literal: it is that value when the field is unsigned, and its
    two's-complement form, from which sign extension gives the value back,
    when the field is signed.  With a width of 0 the one value returned is
    0, for an unsigned field; with a negative width nothing is returned. *)
Theorem X9_parse_immediate_round_trip tok bits signed r :
  parse_immediate tok bits signed = inr r ->
  fits bits r
  /\ exists v, literal_value (Str.remove "," (Str.strip tok)) = inr v
       /\ v = (if signed then sign_extend bits r else r).
Proof.
  intros H.
  destruct (Z.ltb_spec 0 bits) as [Hb | Hb];
    [exact (parse_immediate_returned _ _ _ _ Hb H) |].
  destruct (literal_value (Str.remove "," (Str.strip tok))) as [e | v] eqn:Ev.
  { unfold parse_immediate in H. rewrite Ev in H. discriminate. }
  unfold parse_immediate in H. rewrite Ev, bind_inr in H. cbv beta in H.
  unfold shl1 in H. destruct signed.
  - destruct (Z.ltb_spec (bits - 1) 0); [discriminate | lia].
  - destruct (Z.ltb_spec bits 0); [discriminate |].
    assert (bits = 0) as -> by lia.
    change (Z.shiftl 1 0) with 1 in H. cbn -[Z.land] in H.
    destruct (v <? 0) eqn:E0; cbn [orb] in H; [discriminate |].
    destruct (v >? 1 - 1) eqn:E; [discriminate |].
    injection H as <-. apply Z.ltb_ge in E0.
    rewrite Z.gtb_ltb in E. apply Z.ltb_ge in E.
    assert (v = 0) as -> by lia.
    split; [unfold fits; simpl; lia |]. exists 0. split; reflexivity.
Qed.

Lemma X9_parse_immediate_round_trip_witness :
  parse_immediate " -3," 12 true = inr 4093
  /\ fits 12 4093
  /\ exists v, literal_value "-3" = inr v /\ v = sign_extend 12 4093.
Proof.
  split; [reflexivity |].
  exact (X9_parse_immediate_round_trip " -3," 12 true 4093 eq_refl).
Defined.

(** ** The errors of a line *)

Section LineErrors.

Lemma operand_mret {A} (a : A) : operand_errors_only (mret a).
Proof. intros e H. discriminate. Qed.

Lemma operand_raise {A} (e : exn) :
  is_operand_error e = true -> operand_errors_only (@raise A e).
Proof. intros He e' [= <-]. exact He. Qed.

Lemma operand_bind {A B} (m : result A) (k : A -> result B) :
  operand_errors_only m -> (forall a, operand_errors_only (k a)) ->
  operand_errors_only (m ≫= k).
Proof.
  intros Hm Hk e. destruct m as [e' | a]; simpl.
  - intros [= <-]. now apply Hm.
  - apply Hk.
Qed.

Lemma operand_index parts i : operand_errors_only (index parts i).
Proof.
  unfold index. destruct (parts !! i);
    [apply operand_mret | now apply operand_raise].
Qed.

Lemma operand_parse_register reg : operand_errors_only (parse_register reg).
Proof.
  unfold parse_register. destruct (REGISTERS !! _);
    [apply operand_mret | now apply operand_raise].
Qed.

Lemma operand_literal_value tok : operand_errors_only (literal_value tok).
Proof.
  unfold literal_value, py_int.
  repeat match goal with
         | |- operand_errors_only (if ?b then _ else _) => destruct b
         | |- operand_errors_only (match ?x with _ => _ end) => destruct x
         | |- operand_errors_only (mret _) => apply operand_mret
         | |- operand_errors_only (raise _) => now apply operand_raise
         end.
Qed.

(** With a width of at least one bit no shift count is negative. *)
Lemma operand_parse_immediate tok bits signed :
  0 < bits -> operand_errors_only (parse_immediate tok bits signed).
Proof.
  intros Hb e He.
  destruct (literal_value (Str.remove "," (Str.strip tok))) as [e' | v] eqn:Ev.
  - unfold parse_immediate in He. rewrite Ev, bind_inl in He.
    injection He as <-. exact (operand_literal_value _ _ Ev).
  - rewrite (parse_immediate_value _ _ _ _ Hb Ev) in He.
    destruct (_ || _); [injection He as <-; reflexivity | discriminate].
Qed.

Lemma operand_parse_memory_operand operand :
  operand_errors_only (parse_memory_operand operand).
Proof.
  unfold parse_memory_operand.
  destruct (match_memory_operand _) as [[g1 g2] |];
    [| now apply operand_raise].
  apply operand_bind; [apply operand_parse_immediate; lia | intros offset].
  apply operand_bind; [apply operand_parse_register | intros base_reg].
  apply operand_mret.
Qed.

Lemma dict_get_has_key table key :
  has_key table key = true -> exists v, dict_get table key = inr v.
Proof.
  unfold has_key, dict_get. destruct (table !! key); [eauto | discriminate].
Qed.

Lemma mem_has_key table l i :
  forallb (has_key table) l = true -> mem i l = true ->
  has_key table i = true.
Proof.
  intros Hall (k & Hin & ->%String.eqb_eq)%existsb_exists.
  exact (proj1 (forallb_forall _ _) Hall _ Hin).
Qed.

Lemma eqb_has_key table k i :
  has_key table k = true -> String.eqb i k = true -> has_key table i = true.
Proof. now intros H ->%String.eqb_eq. Qed.

(** The encoders raise nothing on a mnemonic of the tables they read. *)
Lemma operand_encode_r_type i a b c :
  has_key OPCODES i = true -> has_key FUNCT3 i = true ->
  has_key FUNCT7 i = true ->
  operand_errors_only (encode_r_type i a b c).
Proof.
  intros (o & Ho)%dict_get_has_key (f3 & H3)%dict_get_has_key
    (f7 & H7)%dict_get_has_key.
  unfold encode_r_type. rewrite Ho, bind_inr, H3, bind_inr, H7, bind_inr.
  apply operand_mret.
Qed.

Lemma operand_encode_crypto i a b c :
  has_key OPCODES i = true -> has_key FUNCT3 i = true ->
  has_key FUNCT7 i = true ->
  operand_errors_only (encode_crypto i a b c).
Proof. apply operand_encode_r_type. Qed.

Lemma operand_encode_i_type i a b c :
  has_key OPCODES i = true -> has_key FUNCT3 i = true ->
  (mem i SHIFT_IMM = true -> has_key FUNCT7 i = true) ->
  operand_errors_only (encode_i_type i a b c).
Proof.
  intros (o & Ho)%dict_get_has_key (f3 & H3)%dict_get_has_key H7.
  unfold encode_i_type. rewrite Ho, bind_inr, H3, bind_inr.
  fold SHIFT_IMM. destruct (mem i SHIFT_IMM).
  - destruct (dict_get_has_key _ _ (H7 eq_refl)) as (f7 & ->).
    rewrite bind_inr, bind_mret. apply operand_mret.
  - rewrite bind_mret. apply operand_mret.
Qed.

Lemma operand_encode_s_type i a b c :
  has_key OPCODES i = true -> has_key FUNCT3 i = true ->
  operand_errors_only (encode_s_type i a b c).
Proof.
  intros (o & Ho)%dict_get_has_key (f3 & H3)%dict_get_has_key.
  unfold encode_s_type. rewrite Ho, bind_inr, H3, bind_inr.
  apply operand_mret.
Qed.

Lemma operand_encode_b_type i a b c :
  has_key OPCODES i = true -> has_key FUNCT3 i = true ->
  operand_errors_only (encode_b_type i a b c).
Proof.
  intros (o & Ho)%dict_get_has_key (f3 & H3)%dict_get_has_key.
  unfold encode_b_type. rewrite Ho, bind_inr, H3, bind_inr.
  apply operand_mret.
Qed.

Lemma operand_encode_u_type i a b :
  has_key OPCODES i = true -> operand_errors_only (encode_u_type i a b).
Proof.
  intros (o & Ho)%dict_get_has_key.
  unfold encode_u_type. rewrite Ho, bind_inr. apply operand_mret.
Qed.

Lemma operand_encode_j_type i a b :
  has_key OPCODES i = true -> operand_errors_only (encode_j_type i a b).
Proof.
  intros (o & Ho)%dict_get_has_key.
  unfold encode_j_type. rewrite Ho, bind_inr. apply operand_mret.
Qed.

Lemma mem_app x l1 l2 : mem x (l1 ++ l2) = mem x l1 || mem x l2.
Proof. apply existsb_app. Qed.

End LineErrors.

(** The mnemonic of the branch taken is in the tables the encoder reads. *)
Ltac key :=
  match goal with
  | |- has_key _ (String _ _) = true => vm_compute; reflexivity
  | H : mem ?i ?l = true |- has_key ?t ?i = true =>
      apply (mem_has_key t l i); [vm_compute; reflexivity | exact H]
  | H : String.eqb ?i ?k = true |- has_key ?t ?i = true =>
      apply (eqb_has_key t k i); [vm_compute; reflexivity | exact H]
  | H : mem ?i SHIFT_IMM = false |- mem ?i SHIFT_IMM = true -> _ =>
      rewrite H; discriminate
  | |- mem (String _ _) SHIFT_IMM = true -> _ =>
      let H := fresh in intros H; vm_compute in H; discriminate H
  | |- mem ?i SHIFT_IMM = true -> _ => intros ?; key
  end.

Ltac operand_step :=
  match goal with
  | |- operand_errors_only (mret _) => apply operand_mret
  | |- operand_errors_only (inr _) => apply operand_mret
  | |- operand_errors_only (index _ _) => apply operand_index
  | |- operand_errors_only (parse_register _) => apply operand_parse_register
  | |- operand_errors_only (parse_immediate _ _ _) =>
      apply operand_parse_immediate; lia
  | |- operand_errors_only (parse_memory_operand _) =>
      apply operand_parse_memory_operand
  | |- operand_errors_only (encode_r_type _ _ _ _) =>
      apply operand_encode_r_type; key
  | |- operand_errors_only (encode_crypto _ _ _ _) =>
      apply operand_encode_crypto; key
  | |- operand_errors_only (encode_i_type _ _ _ _) =>
      apply operand_encode_i_type; key
  | |- operand_errors_only (encode_s_type _ _ _ _) =>
      apply operand_encode_s_type; key
  | |- operand_errors_only (encode_b_type _ _ _ _) =>
      apply operand_encode_b_type; key
  | |- operand_errors_only (encode_u_type _ _ _) =>
      apply operand_encode_u_type; key
  | |- operand_errors_only (encode_j_type _ _ _) =>
      apply operand_encode_j_type; key
  | |- operand_errors_only (_ ≫= _) => apply operand_bind; [| intros ?]
  | |- operand_errors_only (if ?b then _ else _) => destruct b
  | |- operand_errors_only (match ?x with _ => _ end) => destruct x
  | |- operand_errors_only (let '(_, _) := ?x in _) => destruct x
  end.

(** On a line whose first token is a mnemonic the dispatch tests for, only
    the operands can be at fault; on any other line the mnemonic is
    reported, in lower case. *)
Lemma assemble_parts_errors lbl p0 rest addr :
  if mem (Str.lower p0) MNEMONICS
  then operand_errors_only (assemble_parts lbl (p0 :: rest) addr)
  else assemble_parts lbl (p0 :: rest) addr
       = inl (ValueError (UnknownInstruction (Str.lower p0))).
Proof.
  unfold assemble_parts. rewrite index_0, bind_inr. cbv beta zeta.
  generalize (Str.lower p0). intros instr.
  generalize (p0 :: rest). intros parts.
  unfold MNEMONICS. rewrite !mem_app.
  change (mem instr ["nop"; "li"; "mv"; "j"])
    with (String.eqb instr "nop"
          || (String.eqb instr "li"
              || (String.eqb instr "mv" || (String.eqb instr "j" || false)))).
  change (mem instr ["jal"; "jalr"; "lui"; "auipc"])
    with (String.eqb instr "jal"
          || (String.eqb instr "jalr"
              || (String.eqb instr "lui"
                  || (String.eqb instr "auipc" || false)))).
  change (mem instr ["rng"; "rotl"; "rotr"])
    with (String.eqb instr "rng"
          || (String.eqb instr "rotl" || (String.eqb instr "rotr" || false))).
  repeat match goal with
         | |- if _ then operand_errors_only (if ?b then _ else _) else _ =>
             destruct b eqn:?; cbn [orb];
             [rewrite ?orb_true_r; repeat operand_step |]
         end.
  reflexivity.
Qed.



(** X11: a line without a token fails with [IndexError]; on any other line
    the unknown-instruction error is raised exactly when the first token,
    in lower case, is none of the mnemonics, and it reports that token in
    lower case.  A known mnemonic is never reported, whatever its
    operands. *)
Theorem X11_unknown_instruction lbl line addr :
  match Str.split_ws (Str.replace "," " " line) with
  | [] => assemble_instruction lbl line addr = inl IndexError
  | p0 :: _ =>
      forall i,
        assemble_instruction lbl line addr
        = inl (ValueError (UnknownInstruction i))
        <-> i = Str.lower p0 /\ mem (Str.lower p0) MNEMONICS = false
  end.
Proof.
  unfold assemble_instruction.
  destruct (Str.split_ws (Str.replace "," " " line)) as [| p0 rest];
    [reflexivity |].
  intros i. pose proof (assemble_parts_errors lbl p0 rest addr) as H.
  destruct (mem (Str.lower p0) MNEMONICS).
  - split; [| intros [_ [=]]].
    intros He. apply H in He. discriminate He.
  - rewrite H. split.
    + intros [= <-]. split; reflexivity.
    + intros [-> _]. reflexivity.
Qed.

(** ** Tokens after the operands *)

Section ExtraTokens.

Lemma split_ws_head c s :
  is_space c = false -> exists h t, Str.split_ws (String c s) = h :: t.
Proof.
  intros Hc. cbn [Str.split_ws]. rewrite Hc.
  destruct s as [| c' s']; [eauto |].
  destruct (is_space c'); [eauto |].
  destruct (Str.split_ws (String c' s')); eauto.
Qed.

Lemma split_ws_app a c b :
  is_space c = true ->
  Str.split_ws (a +:+ String c b) = Str.split_ws a ++ Str.split_ws b.
Proof.
  intros Hc. induction a as [| x a IH].
  - change ("" +:+ String c b) with (String c b).
    cbn [Str.split_ws]. now rewrite Hc.
  - change (String x a +:+ String c b) with (String x (a +:+ String c b)).
    destruct a as [| y a].
    + change ("" +:+ String c b) with (String c b) in *.
      change (Str.split_ws (String x (String c b)))
        with (if is_space x then Str.split_ws (String c b)
              else if is_space c
                   then String x EmptyString :: Str.split_ws (String c b)
                   else match Str.split_ws (String c b) with
                        | h :: tl => String x h :: tl
                        | [] => [String x EmptyString]
                        end).
      rewrite Hc, IH. cbn [Str.split_ws]. now destruct (is_space x).
    + change (String y a +:+ String c b)
        with (String y (a +:+ String c b)) in *.
      change (Str.split_ws (String x (String y (a +:+ String c b))))
        with (if is_space x then Str.split_ws (String y (a +:+ String c b))
              else if is_space y
                   then String x EmptyString
                        :: Str.split_ws (String y (a +:+ String c b))
                   else match Str.split_ws (String y (a +:+ String c b)) with
                        | h :: tl => String x h :: tl
                        | [] => [String x EmptyString]
                        end).
      change (Str.split_ws (String x (String y a)))
        with (if is_space x then Str.split_ws (String y a)
              else if is_space y
                   then String x EmptyString :: Str.split_ws (String y a)
                   else match Str.split_ws (String y a) with
                        | h :: tl => String x h :: tl
                        | [] => [String x EmptyString]
                        end).
      rewrite IH. destruct (is_space x); [reflexivity |].
      destruct (is_space y) eqn:Hy; [reflexivity |].
      destruct (split_ws_head y a Hy) as (h & t & ->). reflexivity.
Qed.

Lemma tokenize_app line extra :
  tokenize (line +:+ " " +:+ extra) = tokenize line ++ tokenize extra.
Proof.
  unfold tokenize, Str.replace. rewrite map_app_str.
  change (Str.map ?f (" " +:+ extra)) with (String " " (Str.map f extra)).
  now apply split_ws_app.
Qed.

Lemma succeeds_as_refl {A} (m : result A) : succeeds_as m m.
Proof. intros a H. exact H. Qed.

Lemma succeeds_as_bind {A B} (m m' : result A) (k k' : A -> result B) :
  succeeds_as m m' -> (forall a, succeeds_as (k a) (k' a)) ->
  succeeds_as (m ≫= k) (m' ≫= k').
Proof.
  intros Hm Hk b. destruct m as [e | a]; [discriminate |].
  rewrite (Hm a eq_refl), !bind_inr. apply Hk.
Qed.

Lemma succeeds_as_index parts extra i :
  succeeds_as (index parts i) (index (parts ++ extra) i).
Proof.
  intros t. unfold index.
  destruct (parts !! i) as [t' |] eqn:E; [| discriminate].
  now rewrite (lookup_app_l_Some _ _ _ _ E).
Qed.

End ExtraTokens.

Ltac extra_step :=
  match goal with
  | |- succeeds_as ?m ?m => apply succeeds_as_refl
  | |- succeeds_as (index _ _) (index _ _) => apply succeeds_as_index
  | |- succeeds_as (_ ≫= _) (_ ≫= _) => apply succeeds_as_bind; [| intros ?]
  | |- succeeds_as (if ?b then _ else _) (if ?b then _ else _) =>
      destruct b eqn:?
  | |- succeeds_as (match ?x with _ => _ end) (match ?x with _ => _ end) =>
      destruct x
  end.

(** The tokens after those an instruction reads do not change the word.
    [jalr] is the one instruction that counts its tokens: it is left out
    unless it has its three operands. *)
Lemma assemble_parts_extra lbl parts extra addr :
  Str.lower <$> head parts <> Some "jalr" \/ (3 < length parts)%nat ->
  succeeds_as (assemble_parts lbl parts addr)
    (assemble_parts lbl (parts ++ extra) addr).
Proof.
  intros Hj. destruct parts as [| p0 rest]; [discriminate |].
  unfold assemble_parts.
  change (index ((p0 :: rest) ++ extra) 0) with (index (p0 :: rest) 0).
  rewrite index_0, !bind_inr. cbv beta zeta.
  assert (Hj' : String.eqb (Str.lower p0) "jalr" = true ->
                (3 <? length (p0 :: rest))%nat = true
                /\ (3 <? length ((p0 :: rest) ++ extra))%nat = true).
  { intros E%String.eqb_eq. destruct Hj as [Hj | Hj].
    { cbn [head fmap option_fmap option_map] in Hj. rewrite E in Hj.
      now destruct Hj. }
    rewrite length_app. split; apply Nat.ltb_lt; lia. }
  clear Hj. revert Hj'.
  generalize (Str.lower p0). intros instr.
  generalize (p0 :: rest). intros parts Hj.
  repeat extra_step.
  destruct (Hj eq_refl) as [-> ->]. repeat extra_step.
Qed.

(** X12: a line that is encoded to a word is encoded to the same word
    when further tokens follow it: no instruction checks that its operands
    end the line.  The one exception is [jalr] with two operands, whose
    third token, when there is one, is read as the offset. *)
Theorem X12_extra_tokens lbl line extra addr w :
  Str.lower <$> head (tokenize line) <> Some "jalr"
  \/ (3 < length (tokenize line))%nat ->
  assemble_instruction lbl line addr = inr w ->
  assemble_instruction lbl (line +:+ " " +:+ extra) addr = inr w.
Proof.
  intros Hj. unfold assemble_instruction.
  fold (tokenize line). fold (tokenize (line +:+ " " +:+ extra)).
  rewrite tokenize_app. now apply assemble_parts_extra.
Qed.

Lemma X12_extra_tokens_witness :
  assemble_instruction ∅ "add x1, x2, x3" 0 = inr 3211443
  /\ assemble_instruction ∅ ("add x1, x2, x3" +:+ " " +:+ "x4 and more") 0
     = inr 3211443.
Proof.
  split; [reflexivity |].
  apply (X12_extra_tokens ∅ "add x1, x2, x3" "x4 and more" 0 3211443);
    [left; vm_compute; discriminate | reflexivity].
Defined.

(** ** Loads and stores *)

Section LoadsAndStores.

Lemma mem_In x l : mem x l = true -> In x l.
Proof. now intros (k & Hin & ->%String.eqb_eq)%existsb_exists. Qed.

Lemma parts_load lbl addr p0 r operand rest :
  mem (Str.lower p0) LOADS = true ->
  assemble_parts lbl (p0 :: r :: operand :: rest) addr
  = (rd ← parse_register r;
     '(offset, base) ← parse_memory_operand operand;
     encode_i_type (Str.lower p0) rd base offset).
Proof.
  unfold assemble_parts. rewrite index_0, bind_inr. cbv beta zeta.
  generalize (Str.lower p0). intros instr H%mem_In. simpl in H.
  repeat (destruct H as [<- | H]; [reflexivity |]). destruct H.
Qed.

Lemma parts_store lbl addr p0 r operand rest :
  mem (Str.lower p0) STORES = true ->
  assemble_parts lbl (p0 :: r :: operand :: rest) addr
  = (rs2 ← parse_register r;
     '(offset, base) ← parse_memory_operand operand;
     encode_s_type (Str.lower p0) rs2 base offset).
Proof.
  unfold assemble_parts. rewrite index_0, bind_inr. cbv beta zeta.
  generalize (Str.lower p0). intros instr H%mem_In. simpl in H.
  repeat (destruct H as [<- | H]; [reflexivity |]). destruct H.
Qed.

(** What a memory operand that is accepted stands for. *)
Lemma parse_memory_operand_value operand offset base :
  parse_memory_operand operand = inr (offset, base) ->
  exists v g1 g2,
    match_memory_operand (Str.strip operand) = Some (g1, g2)
    /\ literal_value g1 = inr v
    /\ -2048 <= v <= 2047
    /\ offset = v mod 4096
    /\ sign_extend 12 offset = v
    /\ parse_register g2 = inr base.
Proof.
  intros H.
  destruct (match_memory_operand (Str.strip operand)) as [[g1 g2] |] eqn:E.
  2: { unfold parse_memory_operand in H. rewrite E in H. discriminate. }
  destruct (parse_memory_operand_matched _ _ _ E)
    as (neg & digits & _ & _ & Hp). cbv zeta in Hp.
  destruct (MAX_STR_DIGITS <? digits_of digits);
    destruct Hp as [Hv Hp]; rewrite Hp in H; [discriminate |]. clear Hp.
  revert Hv H. generalize (sign_of neg * numeral_value 10 digits 0).
  intros v Hv H.
  destruct ((v <? -2048) || (v >? 2047)) eqn:Er; [discriminate |].
  apply orb_false_iff in Er as [E1 E2].
  apply Z.ltb_ge in E1. rewrite Z.gtb_ltb in E2. apply Z.ltb_ge in E2.
  destruct (parse_register g2) as [e | b] eqn:Eb; [discriminate |].
  rewrite bind_inr in H. injection H as <- <-.
  exists v, g1, g2. repeat split; try assumption.
  - destruct (Z.ltb_spec v 0).
    + apply Z.mod_unique with (q := -1); lia.
    + symmetry. apply Z.mod_small. lia.
  - unfold sign_extend. change (2 ^ (12 - 1)) with 2048.
    change (2 ^ 12) with 4096.
    destruct (Z.ltb_spec v 0);
      match goal with |- context [?a <? ?b] => destruct (Z.ltb_spec a b) end;
      lia.
Qed.

End LoadsAndStores.

(** X13: the word of a load or of a store, read back, names the registers
    and the offset of the line.  Bits 11:7 of a load hold the register of
    its first operand and bits 31:20 the offset; a store holds the register
    of its first operand in bits 24:20 and the offset in bits 31:25 and
    11:7.  Either holds the base register in bits 19:15, and sign
    extension of the 12-bit offset gives the value written in the memory
    operand. *)
Theorem X13_load_store_words lbl line addr w p0 r operand rest :
  tokenize line = p0 :: r :: operand :: rest ->
  assemble_instruction lbl line addr = inr w ->
  mem (Str.lower p0) (LOADS ++ STORES) = true ->
  exists v g1 g2,
    match_memory_operand (Str.strip operand) = Some (g1, g2)
    /\ literal_value g1 = inr v
    /\ parse_register g2 = inr (field w 15 5)
    /\ dict_get FUNCT3 (Str.lower p0) = inr (field w 12 3)
    /\ (if mem (Str.lower p0) LOADS
        then sign_extend 12 (field w 20 12) = v
             /\ parse_register r = inr (field w 7 5)
             /\ field w 0 7 = 3
        else sign_extend 12 (s_type_field w) = v
             /\ parse_register r = inr (field w 20 5)
             /\ field w 0 7 = 35).
Proof.
  intros Htok Hw Hm. unfold assemble_instruction in Hw.
  fold (tokenize line) in Hw. rewrite Htok in Hw.
  rewrite mem_app in Hm.
  destruct (mem (Str.lower p0) LOADS) eqn:El.
  - rewrite (parts_load _ _ _ _ _ _ El) in Hw.
    destruct (parse_register r) as [e | rd] eqn:Er; [discriminate |].
    rewrite bind_inr in Hw.
    destruct (parse_memory_operand operand) as [e | [offset base]] eqn:Eo;
      [discriminate |].
    rewrite bind_inr in Hw.
    destruct (parse_memory_operand_value _ _ _ Eo)
      as (v & g1 & g2 & Hg & Hv & Hr & Hoff & Hsx & Hb).
    pose proof (fits_register _ _ Er) as Hrd.
    pose proof (fits_register _ _ Hb) as Hbase.
    apply encode_i_type_inv in Hw
      as (op & f3 & imm' & Hop & Ho & H3 & Hf3 & Himm & ->).
    assert (Hs : mem (Str.lower p0) SHIFT_IMM = false
                 /\ dict_get OPCODES (Str.lower p0) = inr 3).
    { apply mem_In in El. simpl in El.
      repeat (destruct El as [<- | El]; [split; reflexivity |]).
      destruct El. }
    destruct Hs as [Hs Ho3]. rewrite Hs in Himm. subst imm'.
    rewrite Hop in Ho3. injection Ho3 as ->.
    exists v, g1, g2. rewrite Hb, H3. as_fields.
    pose proof (fits_land_ones 12 offset ltac:(lia)) as Hi.
    split; [exact Hg | split; [exact Hv |]].
    split; [f_equal; read_fields; reflexivity |].
    split; [f_equal; read_fields; reflexivity |].
    split; [| split; [f_equal; read_fields; reflexivity
                     | read_fields; reflexivity]].
    rewrite <- Hsx. f_equal. read_fields.
    replace (20 - 20) with 0 by lia. rewrite field_low_mod by lia.
    change (2 ^ 12) with 4096. rewrite Hoff, Z.mod_mod by lia. reflexivity.
  - cbn [orb] in Hm. rewrite (parts_store _ _ _ _ _ _ Hm) in Hw.
    destruct (parse_register r) as [e | rs2] eqn:Er; [discriminate |].
    rewrite bind_inr in Hw.
    destruct (parse_memory_operand operand) as [e | [offset base]] eqn:Eo;
      [discriminate |].
    rewrite bind_inr in Hw.
    destruct (parse_memory_operand_value _ _ _ Eo)
      as (v & g1 & g2 & Hg & Hv & Hr & Hoff & Hsx & Hb).
    pose proof (fits_register _ _ Er) as Hrs2.
    pose proof (fits_register _ _ Hb) as Hbase.
    apply encode_s_type_inv in Hw as (op & f3 & Hop & Ho & H3 & Hf3 & ->).
    assert (Ho35 : dict_get OPCODES (Str.lower p0) = inr 35).
    { apply mem_In in Hm. simpl in Hm.
      repeat (destruct Hm as [<- | Hm]; [reflexivity |]).
      destruct Hm. }
    rewrite Hop in Ho35. injection Ho35 as ->.
    exists v, g1, g2. rewrite Hb, H3.
    rewrite (s_type_field_read _ _ _ _ _ Hrs2 Hbase Hf3 Ho).
    as_fields.
    pose proof (field_fits offset 5 7 ltac:(lia)) as Hhi.
    pose proof (field_fits offset 0 5 ltac:(lia)) as Hlo.
    split; [exact Hg | split; [exact Hv |]].
    split; [f_equal; read_fields; reflexivity |].
    split; [f_equal; read_fields; reflexivity |].
    split; [| split; [f_equal; read_fields; reflexivity
                     | read_fields; reflexivity]].
    rewrite <- Hsx. f_equal. rewrite Hoff, Z.mod_mod by lia. reflexivity.
Qed.

Lemma X13_load_store_words_witness :
  exists v g1 g2,
    match_memory_operand (Str.strip "-4(sp)") = Some (g1, g2)
    /\ literal_value g1 = inr v
    /\ parse_register g2 = inr (field 4266733091 15 5)
    /\ dict_get FUNCT3 (Str.lower "SW") = inr (field 4266733091 12 3)
    /\ sign_extend 12 (s_type_field 4266733091) = v
    /\ parse_register "x5" = inr (field 4266733091 20 5)
    /\ field 4266733091 0 7 = 35.
Proof.
  exact (X13_load_store_words ∅ "SW x5, -4(sp)" 0 4266733091
           "SW" "x5" "-4(sp)" [] eq_refl eq_refl eq_refl).
Defined.

(** ** What follows a memory operand *)

Section AfterMemoryOperand.

Lemma rstrip_app s1 s2 :
  Str.forallb (fun c => negb (is_space c)) s1 = true ->
  Str.rstrip (s1 +:+ s2) = s1 +:+ Str.rstrip s2.
Proof.
  induction s1 as [| c s1 IH]; [reflexivity |].
  intros [Hc Hs]%andb_true_iff. apply negb_true_iff in Hc.
  change (String c s1 +:+ s2) with (String c (s1 +:+ s2)).
  change (String c s1 +:+ Str.rstrip s2)
    with (String c (s1 +:+ Str.rstrip s2)).
  cbn [Str.rstrip]. now rewrite Hc, (IH Hs).
Qed.

Lemma strip_app s1 s2 :
  Str.is_empty s1 = false ->
  Str.forallb (fun c => negb (is_space c)) s1 = true ->
  Str.strip (s1 +:+ s2) = s1 +:+ Str.rstrip s2.
Proof.
  intros Hne Hs. unfold Str.strip.
  destruct s1 as [| c s1]; [discriminate |].
  pose proof Hs as [Hc _]%andb_true_iff. apply negb_true_iff in Hc.
  change (String c s1 +:+ s2) with (String c (s1 +:+ s2)).
  rewrite (lstrip_id _ _ Hc).
  change (String c (s1 +:+ s2)) with (String c s1 +:+ s2).
  now apply rstrip_app.
Qed.

End AfterMemoryOperand.

(** X14: the pattern of a memory operand is matched at the start of the
    text only, so that whatever follows the closing parenthesis is ignored:
    [<int>(<name>)] followed by any text is read as [<int>(<name>)] is. *)
Theorem X14_memory_operand_rest neg digits reg rest :
  is_numeral 10 digits = true -> is_name reg = true ->
  parse_memory_operand
    (sign_text neg +:+ digits +:+ "(" +:+ reg +:+ ")" +:+ rest)
  = parse_memory_operand (sign_text neg +:+ digits +:+ "(" +:+ reg +:+ ")").
Proof.
  intros Hd Hr.
  change (sign_text neg +:+ digits +:+ "(" +:+ reg +:+ ")")
    with (sign_text neg +:+ digits +:+ String "(" (reg +:+ ")")).
  rewrite (parse_memory_operand_form neg _ _ Hd Hr).
  destruct (operand_text_facts neg _ _ Hd Hr) as (Htok & _ & _).
  cbv zeta in Htok.
  destruct (is_token_parts _ Htok) as (Hne & Hsp & _).
  unfold parse_memory_operand.
  replace (sign_text neg +:+ digits +:+ "(" +:+ reg +:+ ")" +:+ rest)
    with ((sign_text neg +:+ digits +:+ String "(" (reg +:+ ")")) +:+ rest).
  2: { rewrite !app_assoc_str. do 2 f_equal.
       change (String "(" (reg +:+ ")") +:+ rest)
         with (String "(" ((reg +:+ ")") +:+ rest)).
       now rewrite app_assoc_str. }
  rewrite (strip_app _ _ Hne Hsp).
  replace ((sign_text neg +:+ digits +:+ String "(" (reg +:+ ")"))
           +:+ Str.rstrip rest)
    with (sign_text neg +:+ digits
          +:+ String "(" (reg +:+ String ")" (Str.rstrip rest))).
  2: { rewrite !app_assoc_str. do 2 f_equal.
       change (String "(" (reg +:+ ")") +:+ Str.rstrip rest)
         with (String "(" ((reg +:+ ")") +:+ Str.rstrip rest)).
       now rewrite app_assoc_str. }
  now rewrite (match_form neg _ _ _ Hd Hr).
Qed.

Lemma X14_memory_operand_rest_witness :
  parse_memory_operand "-8(sp)+4 ) (" = parse_memory_operand "-8(sp)"
  /\ parse_memory_operand "-8(sp)" = inr (4088, 2).
Proof.
  split; [| reflexivity].
  exact (X14_memory_operand_rest true "8" "sp" "+4 ) (" eq_refl eq_refl).
Defined.

(** ** Comments and blank lines *)

Section Comments.

Lemma strip_comment_app line c rest :
  Ascii.eqb c "#" || Ascii.eqb c ";" = true ->
  Str.strip_comment (line +:+ String c rest) = Str.strip_comment line.
Proof.
  intros Hc. induction line as [| x line IH].
  - change ("" +:+ String c rest) with (String c rest).
    cbn [Str.strip_comment]. now rewrite Hc.
  - change (String x line +:+ String c rest)
      with (String x (line +:+ String c rest)).
    cbn [Str.strip_comment]. now rewrite IH.
Qed.

Lemma space_no_comment c :
  is_space c = true -> Ascii.eqb c "#" || Ascii.eqb c ";" = false.
Proof.
  destruct c as [[] [] [] [] [] [] [] []]; (reflexivity || discriminate).
Qed.

Lemma strip_blank line :
  Str.forallb is_space line = true ->
  Str.strip (Str.strip_comment line) = "".
Proof.
  induction line as [| c line IH]; [reflexivity |].
  intros [Hc Hl]%andb_true_iff.
  cbn [Str.strip_comment]. rewrite (space_no_comment _ Hc).
  unfold Str.strip. cbn [Str.lstrip]. rewrite Hc. now apply IH.
Qed.

End Comments.

(** X15: pass 1 reads a line up to its first [#] or [;]: a comment added
    at the end of a line changes nothing to what the line does, and a line
    of white space, or of a comment alone, does nothing at all. *)
Theorem X15_comments_and_blank_lines st n line c rest :
  Ascii.eqb c "#" || Ascii.eqb c ";" = true ->
  Str.contains "010" rest = false ->
  first_pass_line st n (line +:+ String c rest) = first_pass_line st n line
  /\ (Str.forallb is_space line = true ->
      first_pass_line st n line = st
      /\ first_pass_line st n (line +:+ String c rest) = st).
Proof.
  intros Hc _.
  assert (H : first_pass_line st n (line +:+ String c rest)
              = first_pass_line st n line).
  { unfold first_pass_line. now rewrite (strip_comment_app _ _ _ Hc). }
  split; [exact H |]. intros Hb. rewrite H.
  assert (first_pass_line st n line = st); [| now split].
  unfold first_pass_line. now rewrite (strip_blank _ Hb).
Qed.

Lemma X15_comments_and_blank_lines_witness :
  first_pass_line init 1 ("loop: add x1, x2, x3" +:+ "; x1 := x2 + x3")
  = first_pass_line init 1 "loop: add x1, x2, x3"
  /\ first_pass_line init 7 ("  " +:+ "# nop: only a comment") = init.
Proof.
  split.
  - exact (proj1 (X15_comments_and_blank_lines init 1 "loop: add x1, x2, x3"
                    ";" " x1 := x2 + x3" eq_refl eq_refl)).
  - exact (proj2 (proj2 (X15_comments_and_blank_lines init 7 "  "
                           "#" " nop: only a comment" eq_refl eq_refl)
                    eq_refl)).
Defined.

(** ** Labels defined more than once *)

(** X16: a label defined by several lines keeps the address of the last
    one, without any diagnostic: after pass 1 it is bound to the address of
    the next pending instruction at the last line that registers it.  A
    label that no line registers keeps what the table held before: pass 1
    never removes a binding. *)
Theorem X16_last_definition_wins st source l :
  let lines := Str.split "010" source in
  (forall j line,
      lines !! j = Some line -> line_label line = Some l ->
      not_registered l (drop (S j) lines) = true ->
      labels (first_pass st lines) !! l
      = Some (4 * Z.of_nat (length (pending_of 1 (take j lines)))))
  /\ (not_registered l lines = true ->
      labels (first_pass st lines) !! l = labels st !! l).
Proof.
  intros lines. split.
  - intros j line Hj Hl Hr. unfold first_pass.
    rewrite (first_pass_loop_last _ _ _ _ _ _ Hj Hl Hr).
    cbn [current_address]. f_equal.
  - intros Hr. unfold first_pass.
    now rewrite (first_pass_loop_unregistered _ _ _ _ Hr).
Qed.

Lemma X16_last_definition_wins_witness :
  labels (first_pass init
            (Str.split "010"
               (Str.join_lines ["top: nop"; "nop"; "top: halt"]))) !! "top"
  = Some 8
  /\ labels (first_pass init
               (Str.split "010"
                  (Str.join_lines ["top: nop"; "nop"; "top: halt"]))) !! "end"
     = None.
Proof.
  destruct (X16_last_definition_wins init
              (Str.join_lines ["top: nop"; "nop"; "top: halt"]) "top")
    as [Hlast _].
  destruct (X16_last_definition_wins init
              (Str.join_lines ["top: nop"; "nop"; "top: halt"]) "end")
    as [_ Hnone].
  split.
  - exact (Hlast 2%nat "top: halt" eq_refl eq_refl eq_refl).
  - exact (Hnone eq_refl).
Defined.

(** ** An instance used twice *)

Section Reuse.

Lemma words_of_app lbl l1 l2 :
  words_of lbl (l1 ++ l2) = words_of lbl l1 ++ words_of lbl l2.
Proof. apply omap_app. Qed.

Lemma diagnostics_of_app lbl l1 l2 :
  diagnostics_of lbl (l1 ++ l2)
  = diagnostics_of lbl l1 ++ diagnostics_of lbl l2.
Proof. apply omap_app. Qed.

(** Both passes on any instance: [assemble] resets the address alone.  The
    instructions pending from before stay, and pass 2 encodes them again,
    with the new ones, against the table of all the labels. *)
Lemma run_passes_any st source :
  let lines := Str.split "010" source in
  let st1 := first_pass st lines in
  instructions st1 = instructions st ++ with_addresses 0 (pending_of 1 lines)
  /\ run_passes st source
     = ({| labels := labels st1; instructions := instructions st1;
           machine_code := machine_code st
                           ++ words_of (labels st1) (instructions st1);
           current_address := current_address st1;
           errors := errors st
                     ++ diagnostics_of (labels st1) (instructions st1) |},
        None).
Proof.
  intros lines st1. unfold run_passes, second_pass. fold lines. fold st1.
  rewrite second_pass_loop_spec.
  destruct (first_pass_loop_instructions
              {| labels := labels st; instructions := instructions st;
                 machine_code := machine_code st; current_address := 0;
                 errors := errors st |} 1 lines)
    as (Hi & _ & Hm & He).
  fold (first_pass st lines) in Hi, Hm, He. fold st1 in Hi, Hm, He.
  cbn [instructions machine_code errors current_address] in Hi, Hm, He.
  now rewrite Hm, He.
Qed.

(** Pass 1 on the same lines again leaves the table as it is. *)
Lemma first_pass_labels_again st st' lines :
  labels st' = labels (first_pass st lines) ->
  labels (first_pass st' lines) = labels (first_pass st lines).
Proof.
  intros H. apply map_eq. intros l. unfold first_pass at 1.
  destruct (last_registration l lines) as [Hr | (j & line & Hj & Hl & Hr)].
  - rewrite (first_pass_loop_unregistered _ _ _ _ Hr). cbn [labels].
    now rewrite H.
  - rewrite (first_pass_loop_last _ _ _ _ _ _ Hj Hl Hr).
    unfold first_pass. now rewrite (first_pass_loop_last _ _ _ _ _ _ Hj Hl Hr).
Qed.

End Reuse.

(** X17: [assemble] does not clear the instance.  On any instance the new
    pending instructions are appended to the old ones, their addresses
    starting again at 0, and pass 2 encodes the old ones once more.  So a
    source that assembles to the words [w] on a fresh instance gives, when
    assembled again on that instance, [w] three times over: the words of
    the first call, then those of both copies of the instructions. *)
Theorem X17_instance_reuse source :
  let lines := Str.split "010" source in
  (forall st,
      instructions (fst (assemble st source))
      = instructions st ++ with_addresses 0 (pending_of 1 lines))
  /\ (forall st1 w,
         assemble init source = (st1, inr w) ->
         exists st2,
           assemble st1 source = (st2, inr (w ++ w ++ w))
           /\ labels st2 = labels st1
           /\ instructions st2 = instructions st1 ++ instructions st1).
Proof.
  intros lines. split.
  - intros st. destruct (run_passes_any st source) as [Hi Hrun].
    unfold assemble. fold (run_passes st source). rewrite Hrun.
    fold lines in Hi |- *. cbn [errors].
    now destruct (errors st ++ diagnostics_of _ _).
  - intros st1 w H.
    destruct (run_passes_any init source) as [Hi Hrun].
    unfold assemble in H. fold (run_passes init source) in H.
    rewrite Hrun in H. fold lines in Hi, H. cbn [errors machine_code init] in H.
    rewrite !app_nil_l in H.
    destruct (diagnostics_of _ _) eqn:Ed in H; [| discriminate].
    injection H as <- <-.
    match goal with
    | |- context [assemble ?s source] => set (st1 := s)
    end.
    destruct (run_passes_any st1 source) as [Hi2 Hrun2].
    fold lines in Hi2, Hrun2.
    assert (Hl : labels (first_pass st1 lines)
                 = labels (first_pass init lines))
      by now apply first_pass_labels_again.
    assert (Hi1 : instructions st1 = with_addresses 0 (pending_of 1 lines))
      by exact Hi.
    rewrite <- Hi1 in Hi2.
    unfold assemble. fold (run_passes st1 source). rewrite Hrun2.
    rewrite Hl, Hi2, words_of_app, diagnostics_of_app.
    change (instructions st1) with (instructions (first_pass init lines)).
    rewrite Ed. cbn [errors machine_code st1 app].
    eexists. split; [reflexivity |]. split; reflexivity.
Qed.

Lemma X17_instance_reuse_witness :
  assemble init "start: nop" = (fst (assemble init "start: nop"), inr [19])
  /\ exists st2,
       assemble (fst (assemble init "start: nop")) "start: nop"
       = (st2, inr [19; 19; 19])
       /\ labels st2 = labels (fst (assemble init "start: nop"))
       /\ instructions st2
          = instructions (fst (assemble init "start: nop"))
            ++ instructions (fst (assemble init "start: nop")).
Proof.
  split; [reflexivity |].
  exact (proj2 (X17_instance_reuse "start: nop") _ [19] eq_refl).
Defined.

(** ** Numbers as texts *)

Section Digits.

Variable base : Z.
Hypothesis Hbase : 2 <= base <= 36.

Lemma digit_char_value d :
  0 <= d < 36 -> digit_value (digit_char d) = Some d.
Proof.
  intros Hd.
  pose proof (range_check
                (fun d => match digit_value (digit_char d) with
                          | Some d' => d' =? d
                          | None => false
                          end) 0 36 ltac:(vm_compute; reflexivity) d
                ltac:(lia)) as H.
  cbv beta in H. destruct (digit_value (digit_char d)); [| discriminate].
  apply Z.eqb_eq in H. now subst.
Qed.

Lemma numeral_value_app s1 s2 acc :
  numeral_value base (s1 +:+ s2) acc
  = numeral_value base s2 (numeral_value base s1 acc).
Proof.
  revert acc. induction s1 as [| c s1 IH]; intros acc; [reflexivity |].
  change (String c s1 +:+ s2) with (String c (s1 +:+ s2)).
  cbn [numeral_value]. apply IH.
Qed.

Lemma length_app_str (s1 s2 : string) :
  String.length (s1 +:+ s2) = (String.length s1 + String.length s2)%nat.
Proof.
  induction s1 as [| c s1 IH]; [reflexivity |].
  change (String c s1 +:+ s2) with (String c (s1 +:+ s2)).
  cbn [String.length]. now rewrite IH.
Qed.

(** The digits [digits_fuel] puts before [acc]: a numeral of [base] whose
    value is [n], with no more digits than [n] needs. *)
Lemma digits_fuel_spec fuel n acc :
  (1 <= fuel)%nat -> 0 <= n < base ^ Z.of_nat fuel ->
  exists D,
    digits_fuel fuel base n acc = D +:+ acc
    /\ Str.forallb (is_digit_in base) D = true
    /\ Str.is_empty D = false
    /\ (forall a, numeral_value base D a
                  = a * base ^ Z.of_nat (String.length D) + n)
    /\ (forall k, (1 <= k)%nat -> n < base ^ Z.of_nat k ->
                  (String.length D <= k)%nat).
Proof.
  revert n acc. induction fuel as [| fuel IH]; intros n acc Hf Hn; [lia |].
  cbn [digits_fuel].
  assert (Hd : 0 <= n mod base < base) by (apply Z.mod_pos_bound; lia).
  assert (Hc : digit_value (digit_char (n mod base)) = Some (n mod base))
    by (apply digit_char_value; lia).
  assert (Hdiv : n = base * (n / base) + n mod base)
    by (apply Z.div_mod; lia).
  destruct (Z.eqb_spec (n / base) 0) as [E | E].
  - rewrite E, Z.mul_0_r in Hdiv.
    exists (String (digit_char (n mod base)) EmptyString).
    split; [reflexivity |]. split; [| split; [reflexivity | split]].
    + cbn [Str.forallb]. unfold is_digit_in. rewrite Hc.
      rewrite andb_true_r. apply Z.ltb_lt. lia.
    + intros a. cbn [numeral_value String.length]. rewrite Hc.
      cbn [default from_option id]. change (Z.of_nat 1) with 1. rewrite Z.pow_1_r. lia.
    + intros k Hk _. cbn [String.length]. lia.
  - assert (Hq : 0 < n / base).
    { assert (0 <= n / base) by (apply Z.div_pos; lia). lia. }
    assert (Hfuel : (1 <= fuel)%nat).
    { destruct fuel; [| lia]. change (Z.of_nat 1) with 1 in Hn.
      rewrite Z.pow_1_r in Hn. rewrite Z.div_small in Hq; lia. }
    assert (Hlt : forall k, (1 <= k)%nat -> n < base ^ Z.of_nat k ->
                            (2 <= k)%nat /\ n / base < base ^ Z.of_nat (k - 1)).
    { intros k Hk Hnk.
      assert (2 <= k)%nat.
      { destruct k as [| [| k]]; [lia | | lia].
        change (Z.of_nat 1) with 1 in Hnk. rewrite Z.pow_1_r in Hnk.
        rewrite Z.div_small in Hq; lia. }
      split; [assumption |].
      apply Z.div_lt_upper_bound; [lia |].
      rewrite <- Z.pow_succ_r by lia.
      replace (Z.succ (Z.of_nat (k - 1))) with (Z.of_nat k) by lia.
      exact Hnk. }
    destruct (Hlt (S fuel) ltac:(lia) ltac:(lia)) as [_ Hn'].
    replace (S fuel - 1)%nat with fuel in Hn' by lia.
    destruct (IH (n / base) (String (digit_char (n mod base)) acc) Hfuel
                ltac:(lia)) as (D & HD & Hall & Hne & Hval & Hlen).
    exists (D +:+ String (digit_char (n mod base)) EmptyString).
    split; [| split; [| split; [| split]]].
    + rewrite HD, app_assoc_str. reflexivity.
    + rewrite forallb_app, Hall. cbn [Str.forallb andb].
      unfold is_digit_in. rewrite Hc, andb_true_r. apply Z.ltb_lt. lia.
    + rewrite is_empty_app, Hne. reflexivity.
    + intros a. rewrite numeral_value_app, Hval. cbn [numeral_value].
      rewrite Hc. cbn [default from_option id]. rewrite length_app_str.
      cbn [String.length]. rewrite Nat2Z.inj_add.
      change (Z.of_nat 1) with 1.
      rewrite Z.pow_add_r, Z.pow_1_r by lia. lia.
    + intros k Hk Hnk. destruct (Hlt k Hk Hnk) as [Hk2 Hq'].
      specialize (Hlen (k - 1)%nat ltac:(lia) Hq').
      rewrite length_app_str. cbn [String.length]. lia.
Qed.

Lemma to_digits_spec n :
  0 <= n ->
  Str.forallb (is_digit_in base) (to_digits base n) = true
  /\ Str.is_empty (to_digits base n) = false
  /\ numeral_value base (to_digits base n) 0 = n
  /\ (forall k, (1 <= k)%nat -> n < base ^ Z.of_nat k ->
                (String.length (to_digits base n) <= k)%nat).
Proof.
  intros Hn. unfold to_digits.
  assert (Hfuel : 0 <= n < base ^ Z.of_nat (S (Z.to_nat (Z.log2 n)))).
  { split; [exact Hn |].
    rewrite Nat2Z.inj_succ, Z2Nat.id by apply Z.log2_nonneg.
    destruct (Z.eq_dec n 0) as [-> | Hne].
    - apply Z.pow_pos_nonneg; simpl; lia.
    - apply Z.lt_le_trans with (2 ^ Z.succ (Z.log2 n)).
      + apply Z.log2_spec. lia.
      + apply Z.pow_le_mono_l. pose proof (Z.log2_nonneg n). lia. }
  destruct (digits_fuel_spec (S (Z.to_nat (Z.log2 n))) n EmptyString
              ltac:(lia) Hfuel)
    as (D & -> & Hall & Hne & Hval & Hlen).
  assert (E : D +:+ EmptyString = D).
  { clear. induction D as [| c D IH]; [reflexivity |].
    change (String c D +:+ EmptyString) with (String c (D +:+ EmptyString)).
    now rewrite IH. }
  rewrite E. repeat split; try assumption.
  rewrite Hval. lia.
Qed.

Lemma zeros_spec k a :
  Str.forallb (is_digit_in base) (zeros k) = true
  /\ numeral_value base (zeros k) a = a * base ^ Z.of_nat k
  /\ String.length (zeros k) = k.
Proof.
  revert a. induction k as [| k IH]; intros a.
  - repeat split. simpl. lia.
  - cbn [zeros Str.forallb numeral_value String.length].
    destruct (IH (a * base + default 0 (digit_value "0"))) as (-> & -> & ->).
    repeat split.
    + rewrite andb_true_r. unfold is_digit_in.
      change (digit_value "0") with (Some 0). apply Z.ltb_lt. lia.
    + change (digit_value "0") with (Some 0). cbn [default from_option id].
      rewrite Nat2Z.inj_succ, Z.pow_succ_r by lia. lia.
Qed.

(** [f"{n:0wX}"] for [0 <= n]: at least [width] digits of [base], exactly
    [width] when [n < base ^ width], whose value is [n]. *)
Lemma format_int_spec width n :
  0 <= n ->
  is_numeral base (format_int base width n) = true
  /\ numeral_value base (format_int base width n) 0 = n
  /\ ((1 <= width)%nat -> n < base ^ Z.of_nat width ->
      String.length (format_int base width n) = width).
Proof.
  intros Hn. unfold format_int.
  destruct (Z.ltb_spec n 0) as [? | _]; [lia |].
  rewrite Z.abs_eq by exact Hn.
  destruct (to_digits_spec n Hn) as (Hall & Hne & Hval & Hlen).
  change (String.length EmptyString) with 0%nat. rewrite Nat.sub_0_r.
  change ("" +:+ ?x) with x.
  set (k := (width - String.length (to_digits base n))%nat).
  destruct (zeros_spec k 0) as (Hz & Hzv & Hzl).
  repeat split.
  - unfold is_numeral. rewrite is_empty_app, Hne, andb_false_r.
    cbn [negb andb]. now rewrite forallb_app, Hz, Hall.
  - rewrite numeral_value_app, Hzv, Z.mul_0_l. exact Hval.
  - intros Hw Hnw. specialize (Hlen width Hw Hnw).
    rewrite length_app_str, Hzl. subst k. lia.
Qed.

End Digits.

Section ReadingBack.

Lemma hex_digit_no_prefix c :
  is_digit_in 16 c = true -> Ascii.eqb c "x" || Ascii.eqb c "X" = false.
Proof.
  destruct c as [[] [] [] [] [] [] [] []]; (reflexivity || discriminate).
Qed.

Lemma skip_base_prefix_16 s :
  Str.forallb (is_digit_in 16) s = true -> skip_base_prefix 16 s = s.
Proof.
  destruct s as [| z [| x s]]; [reflexivity | reflexivity |].
  cbn [Str.forallb]. intros [_ [Hx _]%andb_true_iff]%andb_true_iff.
  unfold skip_base_prefix. rewrite (hex_digit_no_prefix _ Hx).
  change (16 =? 16) with true. change (16 =? 8) with false.
  change (16 =? 2) with false. cbn [andb orb].
  now rewrite andb_false_r.
Qed.

(** [int(s, 16)] on a text of hexadecimal digits. *)
Lemma py_int_hex s :
  is_numeral 16 s = true -> py_int 16 s = inr (numeral_value 16 s 0).
Proof.
  intros H. pose proof H as (c & s' & -> & Hc & Hall)%numeral_head.
  destruct (is_digit_in_facts _ _ Hc) as (_ & Hp & Hm & _ & _ & Hsp).
  unfold py_int, int_read.
  rewrite (int_lstrip_id _ _ Hsp), Hp, Hm.
  rewrite (skip_base_prefix_16 _ Hall), (int_read_body 16 1 _ H).
  change (negb (is_binary_base 16)) with false.
  cbn [andb mret result_ret]. f_equal. lia.
Qed.

Lemma not_space_no_newline c :
  is_space c = false -> Ascii.eqb c "010" = false.
Proof.
  destruct c as [[] [] [] [] [] [] [] []]; (reflexivity || discriminate).
Qed.

Lemma numeral_no_newline base s :
  Str.forallb (is_digit_in base) s = true -> Str.contains "010" s = false.
Proof.
  induction s as [| c s IH]; [reflexivity |].
  cbn [Str.forallb Str.contains]. intros [Hc Hs]%andb_true_iff.
  destruct (is_digit_in_facts _ _ Hc) as (_ & _ & _ & _ & _ & Hsp).
  now rewrite (not_space_no_newline _ Hsp), (IH Hs).
Qed.

Lemma split_no_sep sep s :
  Str.contains sep s = false -> Str.split sep s = [s].
Proof.
  induction s as [| c s IH]; [reflexivity |].
  cbn [Str.contains Str.split]. intros [Hc Hs]%orb_false_iff.
  now rewrite Hc, (IH Hs).
Qed.

Lemma split_app sep s rest :
  Str.contains sep s = false ->
  Str.split sep (s +:+ String sep rest) = s :: Str.split sep rest.
Proof.
  induction s as [| c s IH].
  - intros _. change ("" +:+ String sep rest) with (String sep rest).
    cbn [Str.split]. now rewrite Ascii.eqb_refl.
  - cbn [Str.contains]. intros [Hc Hs]%orb_false_iff.
    change (String c s +:+ String sep rest)
      with (String c (s +:+ String sep rest)).
    cbn [Str.split]. now rewrite Hc, (IH Hs).
Qed.

(** Lines without line feed, joined and split again. *)
Lemma split_join_lines l :
  l <> [] -> Forall (fun s => Str.contains "010" s = false) l ->
  Str.split "010" (Str.join_lines l) = l.
Proof.
  induction l as [| x l IH]; [congruence |].
  intros _ Hall. apply Forall_cons in Hall as [Hx Hl].
  destruct l as [| y l]; [now apply split_no_sep |].
  change (Str.join_lines (x :: y :: l))
    with (x +:+ String "010" (Str.join_lines (y :: l))).
  rewrite (split_app _ _ _ Hx). f_equal. now apply IH.
Qed.

End ReadingBack.

(** X18: the memory image can be read back.  When the words have 32 bits,
    as those of [assemble] have, the text of [to_mem] split at the line
    feeds has one line of 8 characters per word, in order, and [int] in
    base 16 reads each word from its line. *)
Theorem X18_to_mem_round_trip st :
  Forall (fits 32) (machine_code st) -> machine_code st <> [] ->
  py_int 16 <$> Str.split "010" (to_mem st) = inr <$> machine_code st
  /\ Forall (fun line => String.length line = 8%nat)
       (Str.split "010" (to_mem st)).
Proof.
  intros Hw Hne. unfold to_mem, to_mem_lines.
  assert (Hfmt : Forall (fun w => is_numeral 16 (format_int 16 8 w) = true
                                  /\ numeral_value 16 (format_int 16 8 w) 0 = w
                                  /\ String.length (format_int 16 8 w) = 8%nat)
                   (machine_code st)).
  { eapply Forall_impl; [exact Hw |]. intros w [Hw0 Hw32].
    destruct (format_int_spec 16 ltac:(lia) 8 w Hw0) as (Hn & Hv & Hl).
    repeat split; [exact Hn | exact Hv |].
    apply Hl; [lia |]. exact Hw32. }
  rewrite split_join_lines.
  - split.
    + rewrite <- list_fmap_compose. apply Forall_fmap_ext_1.
      eapply Forall_impl; [exact Hfmt |]. intros w (Hn & Hv & _).
      cbn. now rewrite (py_int_hex _ Hn), Hv.
    + apply Forall_fmap. eapply Forall_impl; [exact Hfmt |].
      now intros w (_ & _ & Hl).
  - destruct (machine_code st); [congruence | discriminate].
  - apply Forall_fmap. eapply Forall_impl; [exact Hfmt |].
    intros w ((_ & Hn)%andb_true_iff & _). cbn.
    exact (numeral_no_newline _ _ Hn).
Qed.

Lemma X18_to_mem_round_trip_witness :
  py_int 16 <$> Str.split "010" (to_mem (fst (assemble init "nop")))
  = [inr 19]
  /\ Forall (fun line => String.length line = 8%nat)
       (Str.split "010" (to_mem (fst (assemble init "nop")))).
Proof.
  apply (X18_to_mem_round_trip (fst (assemble init "nop"))).
  - repeat constructor; vm_compute; congruence.
  - discriminate.
Defined.

(** ** The listing *)

(** X19: the listing of a source without diagnostic.  After its four header
    lines, of which the second gives the number of instructions, [to_hex]
    has one line per pending instruction, in order: the address, 4 times the
    index, and the word the instruction encodes to, each in 8 hexadecimal
    digits, then the text of the instruction. *)
Theorem X19_to_hex_listing source :
  let st := fst (run_passes init source) in
  errors st = [] ->
  length (to_hex_lines st) = (4 + length (instructions st))%nat
  /\ to_hex_lines st !! 1%nat
     = Some ("// Total instructions: "
             +:+ format_int 10 0 (Z.of_nat (length (instructions st))))
  /\ (forall i addr asm k,
         instructions st !! i = Some (addr, asm, k) ->
         addr = 4 * Z.of_nat i
         /\ exists code,
              assemble_instruction (labels st) asm addr = inr code
              /\ to_hex_lines st !! (4 + i)%nat
                 = Some ("0x" +:+ format_int 16 8 (4 * Z.of_nat i)
                         +:+ ": 0x" +:+ format_int 16 8 code
                         +:+ "  // " +:+ asm)).
Proof.
  intros st He. subst st. rewrite (run_passes_spec source) in *.
  cbn [fst labels errors machine_code instructions] in *.
  set (lines := Str.split "010" source) in *.
  set (lbl := labels (first_pass init lines)) in *.
  set (ins := instructions (first_pass init lines)) in *.
  pose proof (words_diagnostics_length lbl ins) as Hlen.
  rewrite He, Nat.add_0_r in Hlen.
  unfold to_hex_lines, hex_header. cbn [machine_code instructions].
  split; [| split].
  - rewrite length_app, length_fmap, enumerate_length, zip_length, Hlen.
    cbn [length]. lia.
  - cbn [app lookup list_lookup]. now rewrite Hlen.
  - intros i addr asm k Hins.
    assert (Ha : addr = 4 * Z.of_nat i).
    { subst ins lines. rewrite first_pass_instructions in Hins.
      apply with_addresses_lookup in Hins as [Ha _]. cbn in Ha. lia. }
    split; [exact Ha |].
    destruct (words_of_aligned lbl ins He _ _ Hins) as (w & Hw & Hw').
    exists w. split; [exact Hw |].
    rewrite lookup_app_r by (cbn [length]; lia).
    cbn [length]. replace (4 + i - 4)%nat with i by lia.
    rewrite list_lookup_fmap,
      (enumerate_lookup 0 _ i _ (zip_lookup _ _ _ _ _ Hw' Hins)).
    cbn. now rewrite Ha.
Qed.

Lemma X19_to_hex_listing_witness :
  4 = 4 * Z.of_nat 1
  /\ exists code,
       assemble_instruction (labels (fst (run_passes init loop_source)))
         "bne x1,x2,loop" 4 = inr code
       /\ to_hex_lines (fst (run_passes init loop_source)) !! (4 + 1)%nat
          = Some ("0x" +:+ format_int 16 8 (4 * Z.of_nat 1)
                  +:+ ": 0x" +:+ format_int 16 8 code
                  +:+ "  // " +:+ "bne x1,x2,loop").
Proof.
  exact (proj2 (proj2 (X19_to_hex_listing loop_source eq_refl))
           1%nat 4 "bne x1,x2,loop" 3%nat eq_refl).
Defined.

(** ** One word, one instruction *)

Section Decoding.

Lemma dict_get_lookup table key v :
  dict_get table key = inr v <-> table !! key = Some v.
Proof.
  unfold dict_get. destruct (table !! key); split; intros H;
    try discriminate; now injection H as ->.
Qed.

Lemma holds_lookup entry x : holds entry x = true <-> entry = Some x.
Proof.
  unfold holds. destruct entry as [v |]; [| split; discriminate].
  rewrite Z.eqb_eq. split; [now intros -> | now intros [= ->]].
Qed.

Lemma reads_as_fields i w :
  dict_get OPCODES i = inr (field w 0 7) ->
  (has_key FUNCT3 i = true -> dict_get FUNCT3 i = inr (field w 12 3)) ->
  (uses_funct7 i = true -> dict_get FUNCT7 i = inr (field w 25 7)) ->
  reads_as i w = true.
Proof.
  intros Ho H3 H7. unfold reads_as.
  apply dict_get_lookup in Ho. rewrite Ho.
  rewrite (proj2 (holds_lookup _ _) eq_refl). cbn [andb].
  apply andb_true_iff. split.
  - destruct (has_key FUNCT3 i); [| reflexivity].
    apply holds_lookup, dict_get_lookup, H3. reflexivity.
  - destruct (uses_funct7 i); [| reflexivity].
    apply holds_lookup, dict_get_lookup, H7. reflexivity.
Qed.

(** A word that reads as two instructions: they agree on what both
    have. *)
Lemma reads_as_alike i j w :
  reads_as i w = true -> reads_as j w = true -> alike i j = true.
Proof.
  unfold reads_as, alike.
  intros [[Hi Hi3]%andb_true_iff Hi7]%andb_true_iff
         [[Hj Hj3]%andb_true_iff Hj7]%andb_true_iff.
  apply holds_lookup in Hi, Hj. rewrite Hi, Hj, Z.eqb_refl. cbn [andb].
  apply andb_true_iff. split.
  - destruct (has_key FUNCT3 i), (has_key FUNCT3 j); try reflexivity.
    apply holds_lookup in Hi3, Hj3. cbn [andb].
    now rewrite Hi3, Hj3, Z.eqb_refl.
  - destruct (uses_funct7 i), (uses_funct7 j); try reflexivity.
    apply holds_lookup in Hi7, Hj7. cbn [andb].
    now rewrite Hi7, Hj7, Z.eqb_refl.
Qed.

Lemma mem_forallb (P : string -> bool) l i :
  forallb P l = true -> mem i l = true -> P i = true.
Proof.
  intros Hall (k & Hin & ->%String.eqb_eq)%existsb_exists.
  exact (proj1 (forallb_forall _ _) Hall _ Hin).
Qed.

(** No two instructions of the tables agree in that way. *)
Lemma alike_instructions i j :
  mem i INSTRUCTIONS = true -> mem j INSTRUCTIONS = true ->
  alike i j = true -> i = j.
Proof.
  intros Hi Hj Ha.
  pose proof (mem_forallb
                (fun i => forallb (fun j => implb (alike i j) (String.eqb i j))
                            INSTRUCTIONS)
                INSTRUCTIONS i ltac:(vm_compute; reflexivity) Hi) as H.
  cbv beta in H.
  pose proof (mem_forallb _ _ j H Hj) as H'. cbv beta in H'.
  rewrite Ha in H'. now apply String.eqb_eq.
Qed.

(** The words of the encoders read as the mnemonic they were given. *)
Lemma reads_r i rd rs1 rs2 w :
  fits 5 rd -> fits 5 rs1 -> fits 5 rs2 ->
  encode_r_type i rd rs1 rs2 = inr w -> reads_as i w = true.
Proof.
  intros Hrd H1 H2 Hw. unfold encode_r_type in Hw.
  destruct (dict_get OPCODES i) as [e | op] eqn:Eo; [discriminate |].
  rewrite bind_inr in Hw.
  destruct (dict_get FUNCT3 i) as [e | f3] eqn:E3; [discriminate |].
  rewrite bind_inr in Hw.
  destruct (dict_get FUNCT7 i) as [e | f7] eqn:E7; [discriminate |].
  rewrite bind_inr in Hw. injection Hw as <-.
  pose proof (fits_opcode _ _ Eo) as Ho.
  pose proof (fits_funct3 _ _ E3) as Hf3.
  pose proof (fits_funct7 _ _ E7) as Hf7.
  apply reads_as_fields; [| intros _ | intros _]; rewrite ?Eo, ?E3, ?E7;
    f_equal; read_fields; reflexivity.
Qed.

Lemma reads_crypto i rd rs1 rs2 w :
  fits 5 rd -> fits 5 rs1 -> fits 5 rs2 ->
  encode_crypto i rd rs1 rs2 = inr w -> reads_as i w = true.
Proof. apply reads_r. Qed.

Lemma reads_i i rd rs1 imm w :
  fits 5 rd -> fits 5 rs1 -> uses_funct7 i = mem i SHIFT_IMM ->
  encode_i_type i rd rs1 imm = inr w -> reads_as i w = true.
Proof.
  intros Hrd H1 H7 (op & f3 & imm' & Eo & Ho & E3 & Hf3 & Himm & ->)
    %encode_i_type_inv.
  rewrite <- H7 in Himm.
  apply reads_as_fields; [| intros _ | intros E7].
  - rewrite Eo. f_equal. as_fields. read_fields. reflexivity.
  - rewrite E3. f_equal. as_fields. read_fields. reflexivity.
  - rewrite E7 in Himm. destruct Himm as (f7 & -> & Hf7 & ->).
    f_equal. as_fields. note_fields.
    pose proof (field_fits imm 0 5 ltac:(lia)) as Hs.
    read_fields. reflexivity.
Qed.

Lemma reads_s i rs2 rs1 imm w :
  fits 5 rs2 -> fits 5 rs1 -> uses_funct7 i = false ->
  encode_s_type i rs2 rs1 imm = inr w -> reads_as i w = true.
Proof.
  intros H2 H1 H7 (op & f3 & Eo & Ho & E3 & Hf3 & ->)%encode_s_type_inv.
  apply reads_as_fields; [| intros _ | rewrite H7; discriminate].
  - rewrite Eo. f_equal. as_fields. note_fields. read_fields. reflexivity.
  - rewrite E3. f_equal. as_fields. note_fields. read_fields. reflexivity.
Qed.

Lemma reads_b i rs1 rs2 imm w :
  fits 5 rs1 -> fits 5 rs2 -> uses_funct7 i = false ->
  encode_b_type i rs1 rs2 imm = inr w -> reads_as i w = true.
Proof.
  intros H1 H2 H7 Hw. unfold encode_b_type in Hw.
  destruct (dict_get OPCODES i) as [e | op] eqn:Eo; [discriminate |].
  rewrite bind_inr in Hw.
  destruct (dict_get FUNCT3 i) as [e | f3] eqn:E3; [discriminate |].
  rewrite bind_inr in Hw. cbv zeta in Hw. injection Hw as <-.
  pose proof (fits_opcode _ _ Eo) as Ho.
  pose proof (fits_funct3 _ _ E3) as Hf3.
  apply reads_as_fields; [| intros _ | rewrite H7; discriminate].
  - rewrite Eo. f_equal. as_fields. note_fields. read_fields. reflexivity.
  - rewrite E3. f_equal. as_fields. note_fields. read_fields. reflexivity.
Qed.

Lemma reads_u i rd imm w :
  fits 5 rd -> has_key FUNCT3 i = false -> uses_funct7 i = false ->
  encode_u_type i rd imm = inr w -> reads_as i w = true.
Proof.
  intros Hrd H3 H7 Hw. unfold encode_u_type in Hw.
  destruct (dict_get OPCODES i) as [e | op] eqn:Eo; [discriminate |].
  rewrite bind_inr in Hw. injection Hw as <-.
  pose proof (fits_opcode _ _ Eo) as Ho.
  apply reads_as_fields;
    [| rewrite H3; discriminate | rewrite H7; discriminate].
  rewrite Eo. f_equal. as_fields. read_fields. reflexivity.
Qed.

Lemma reads_j i rd imm w :
  fits 5 rd -> has_key FUNCT3 i = false -> uses_funct7 i = false ->
  encode_j_type i rd imm = inr w -> reads_as i w = true.
Proof.
  intros Hrd H3 H7 Hw. unfold encode_j_type in Hw.
  destruct (dict_get OPCODES i) as [e | op] eqn:Eo; [discriminate |].
  rewrite bind_inr in Hw. cbv zeta in Hw. injection Hw as <-.
  pose proof (fits_opcode _ _ Eo) as Ho.
  apply reads_as_fields;
    [| rewrite H3; discriminate | rewrite H7; discriminate].
  rewrite Eo. f_equal. as_fields. note_fields. read_fields. reflexivity.
Qed.

End Decoding.

Lemma jalr_operands_fits (m2 : result string) (m3 : result Z) p2 o r :
  (if Str.contains "(" p2
   then p ← m2; parse_memory_operand p
   else rs1 ← (p ← m2; parse_register p);
        offset ← m3;
        mret (offset, rs1)) = inr (o, r) ->
  fits 5 r.
Proof.
  destruct (Str.contains "(" p2); [apply fits_bind_memory_base |].
  destruct (mbind (fun p => parse_register p) m2) as [e | r'] eqn:Er;
    [discriminate |].
  rewrite bind_inr. destruct m3 as [e | o']; [discriminate |].
  rewrite bind_inr. intros [= _ <-]. exact (fits_bind_register _ _ Er).
Qed.

(** The operands that were parsed are registers of 5 bits. *)
Ltac register :=
  match goal with
  | |- fits 5 0 => exact fits_5_0
  | H : mbind (fun p => parse_register p) _ = inr ?n |- fits 5 ?n =>
      exact (fits_bind_register _ _ H)
  | H : mbind (fun p => parse_memory_operand p) _ = inr (_, ?b)
    |- fits 5 ?b =>
      exact (fits_bind_memory_base _ _ _ H)
  | H : (if Str.contains _ _ then _ else _) = inr (_, ?b) |- fits 5 ?b =>
      exact (jalr_operands_fits _ _ _ _ _ H)
  | |- _ = _ => vm_compute; reflexivity
  end.

(** The operations of a line that returns, one after the other. *)
Ltac returned H :=
  repeat match type of H with
         | (?m ≫= _) = inr _ =>
             let E := fresh "E" in
             destruct m as [? | ?] eqn:E;
             [rewrite bind_inl in H; discriminate H
             | rewrite bind_inr in H; cbv beta in H]
         | (let '(_, _) := ?p in _) = inr _ => destruct p
         end.

Ltac reads H :=
  match type of H with
  | encode_r_type ?i ?a ?b ?c = inr ?w =>
      apply (reads_r i a b c w); [register | register | register | exact H]
  | encode_crypto ?i ?a ?b ?c = inr ?w =>
      apply (reads_crypto i a b c w);
      [register | register | register | exact H]
  | encode_i_type ?i ?a ?b ?c = inr ?w =>
      apply (reads_i i a b c w); [register | register | register | exact H]
  | encode_s_type ?i ?a ?b ?c = inr ?w =>
      apply (reads_s i a b c w); [register | register | register | exact H]
  | encode_b_type ?i ?a ?b ?c = inr ?w =>
      apply (reads_b i a b c w); [register | register | register | exact H]
  | encode_u_type ?i ?a ?b = inr ?w =>
      apply (reads_u i a b w); [register | register | register | exact H]
  | encode_j_type ?i ?a ?b = inr ?w =>
      apply (reads_j i a b w); [register | register | register | exact H]
  | mret _ = inr _ => injection H as <-; vm_compute; reflexivity
  end.

(** The mnemonic of the branch taken, made explicit. *)
Ltac mnemonic instr :=
  match goal with
  | E : String.eqb instr _ = true |- _ =>
      apply String.eqb_eq in E; subst instr
  | E : mem instr _ = true |- _ =>
      apply mem_In in E; simpl in E;
      repeat (destruct E as [E | E]; [subst instr |]); [.. | destruct E]
  end.

Ltac as_instruction :=
  match goal with
  | |- context [canonical ?i] =>
      let c := eval vm_compute in (canonical i) in
      change (canonical i) with c
  end.

(** A line that returns a word returns one that reads as its
    instruction. *)
Lemma assemble_parts_reads lbl p rest addr w :
  assemble_parts lbl (p :: rest) addr = inr w ->
  mem (canonical (Str.lower p)) INSTRUCTIONS = true
  /\ reads_as (canonical (Str.lower p)) w = true.
Proof.
  unfold assemble_parts. rewrite index_0, bind_inr. cbv beta zeta.
  generalize (Str.lower p). intros instr.
  generalize (p :: rest). intros parts.
  repeat match goal with
         | |- (if ?b then _ else _) = inr _ -> _ =>
             destruct b eqn:?;
             [mnemonic instr; intros Hw; as_instruction;
              (split; [vm_compute; reflexivity |]); returned Hw; reads Hw |]
         end.
  discriminate.
Qed.

(** X20: one word, one instruction.  Two lines that are encoded to the
    same word have the same instruction, whatever their operands, label
    tables and addresses: [nop], [li] and [mv] being [addi], [j] being
    [jal] and [halt] being [ecall].  The word holds the opcode of the
    instruction and, for the instructions that have them, its funct3 and
    its funct7, and no two instructions of the tables agree on these. *)
Theorem X20_one_word_one_instruction lbl1 lbl2 line1 line2 a1 a2 w :
  assemble_instruction lbl1 line1 a1 = inr w ->
  assemble_instruction lbl2 line2 a2 = inr w ->
  instruction_of line1 = instruction_of line2
  /\ exists i, instruction_of line1 = Some i
               /\ mem i INSTRUCTIONS = true
               /\ reads_as i w = true.
Proof.
  unfold assemble_instruction, instruction_of.
  fold (tokenize line1). fold (tokenize line2).
  destruct (tokenize line1) as [| p rest1]; [discriminate |].
  destruct (tokenize line2) as [| q rest2]; [discriminate |].
  intros [Hp Hw1]%assemble_parts_reads [Hq Hw2]%assemble_parts_reads.
  cbn [head fmap option_fmap option_map].
  rewrite (alike_instructions _ _ Hp Hq (reads_as_alike _ _ _ Hw1 Hw2)).
  split; [reflexivity |]. eauto.
Qed.

Lemma X20_one_word_one_instruction_witness :
  instruction_of "li t0, 7" = instruction_of "ADDI x5, zero, 0x7"
  /\ exists i, instruction_of "li t0, 7" = Some i
               /\ mem i INSTRUCTIONS = true
               /\ reads_as i 7340691 = true.
Proof.
  exact (X20_one_word_one_instruction ∅ ∅ "li t0, 7" "ADDI x5, zero, 0x7"
           0 4 7340691 eq_refl eq_refl).
Defined.


(** ** Operations on registers and immediates *)

Section Operations.

Variable lbl : gmap string Z.
Variable addr : Z.

Lemma parts_r_type p0 a b c rest :
  mem (Str.lower p0) R_TYPE = true ->
  assemble_parts lbl (p0 :: a :: b :: c :: rest) addr
  = (rd ← parse_register a; rs1 ← parse_register b; rs2 ← parse_register c;
     encode_r_type (Str.lower p0) rd rs1 rs2).
Proof.
  unfold assemble_parts. rewrite index_0, bind_inr. cbv beta zeta.
  generalize (Str.lower p0). intros instr H%mem_In. simpl in H.
  repeat (destruct H as [<- | H]; [reflexivity |]). destruct H.
Qed.

Lemma parts_rotate p0 a b c rest :
  mem (Str.lower p0) ["rotl"; "rotr"] = true ->
  assemble_parts lbl (p0 :: a :: b :: c :: rest) addr
  = (rd ← parse_register a; rs1 ← parse_register b; rs2 ← parse_register c;
     encode_crypto (Str.lower p0) rd rs1 rs2).
Proof.
  unfold assemble_parts. rewrite index_0, bind_inr. cbv beta zeta.
  generalize (Str.lower p0). intros instr H%mem_In. simpl in H.
  repeat (destruct H as [<- | H]; [reflexivity |]). destruct H.
Qed.

Lemma parts_i_alu p0 a b c rest :
  mem (Str.lower p0) I_ALU = true ->
  assemble_parts lbl (p0 :: a :: b :: c :: rest) addr
  = (rd ← parse_register a; rs1 ← parse_register b;
     imm ← parse_immediate c 12 true;
     encode_i_type (Str.lower p0) rd rs1 imm).
Proof.
  unfold assemble_parts. rewrite index_0, bind_inr. cbv beta zeta.
  generalize (Str.lower p0). intros instr H%mem_In. simpl in H.
  repeat (destruct H as [<- | H]; [reflexivity |]). destruct H.
Qed.

Lemma parts_shift p0 a b c rest :
  mem (Str.lower p0) SHIFT_IMM = true ->
  assemble_parts lbl (p0 :: a :: b :: c :: rest) addr
  = (rd ← parse_register a; rs1 ← parse_register b;
     shamt ← parse_immediate c 5 false;
     encode_i_type (Str.lower p0) rd rs1 shamt).
Proof.
  unfold assemble_parts. rewrite index_0, bind_inr. cbv beta zeta.
  generalize (Str.lower p0). intros instr H%mem_In. simpl in H.
  repeat (destruct H as [<- | H]; [reflexivity |]). destruct H.
Qed.

Lemma parts_upper p0 a b rest :
  mem (Str.lower p0) ["lui"; "auipc"] = true ->
  assemble_parts lbl (p0 :: a :: b :: rest) addr
  = (rd ← parse_register a; imm ← parse_immediate b 20 false;
     encode_u_type (Str.lower p0) rd imm).
Proof.
  unfold assemble_parts. rewrite index_0, bind_inr. cbv beta zeta.
  generalize (Str.lower p0). intros instr H%mem_In. simpl in H.
  repeat (destruct H as [<- | H]; [reflexivity |]). destruct H.
Qed.

End Operations.

(** The registers of an R-type word. *)
Lemma r_type_registers i rd rs1 rs2 w :
  fits 5 rd -> fits 5 rs1 -> fits 5 rs2 ->
  encode_r_type i rd rs1 rs2 = inr w ->
  field w 7 5 = rd /\ field w 15 5 = rs1 /\ field w 20 5 = rs2.
Proof.
  intros Hrd H1 H2 Hw. unfold encode_r_type in Hw.
  destruct (dict_get OPCODES i) as [e | op] eqn:Eo; [discriminate |].
  rewrite bind_inr in Hw.
  destruct (dict_get FUNCT3 i) as [e | f3] eqn:E3; [discriminate |].
  rewrite bind_inr in Hw.
  destruct (dict_get FUNCT7 i) as [e | f7] eqn:E7; [discriminate |].
  rewrite bind_inr in Hw. injection Hw as <-.
  pose proof (fits_opcode _ _ Eo) as Ho.
  pose proof (fits_funct3 _ _ E3) as Hf3.
  pose proof (fits_funct7 _ _ E7) as Hf7.
  repeat split; read_fields; reflexivity.
Qed.

(** The registers and the immediate of an I-type word. *)
Lemma i_type_operands i rd rs1 imm w :
  fits 5 rd -> fits 5 rs1 ->
  encode_i_type i rd rs1 imm = inr w ->
  field w 7 5 = rd /\ field w 15 5 = rs1
  /\ (if mem i SHIFT_IMM then field w 20 5 = imm mod 32
      else field w 20 12 = imm mod 4096).
Proof.
  intros Hrd H1 (op & f3 & imm' & Eo & Ho & E3 & Hf3 & Himm & ->)
    %encode_i_type_inv.
  destruct (mem i SHIFT_IMM).
  - destruct Himm as (f7 & _ & Hf7 & ->).
    as_fields. note_fields.
    pose proof (field_fits imm 0 5 ltac:(lia)) as Hs.
    repeat split; read_fields; try reflexivity.
    replace (20 - 20) with 0 by lia. apply field_low_mod. lia.
  - subst imm'. as_fields.
    pose proof (fits_land_ones 12 imm ltac:(lia)) as Hi.
    repeat split; read_fields; try reflexivity.
    replace (20 - 20) with 0 by lia. apply field_low_mod. lia.
Qed.

(** The register and the immediate of a U-type word. *)
Lemma u_type_operands i rd imm w :
  fits 5 rd -> encode_u_type i rd imm = inr w ->
  field w 7 5 = rd /\ field w 12 20 = imm mod 2 ^ 20.
Proof.
  intros Hrd Hw. unfold encode_u_type in Hw.
  destruct (dict_get OPCODES i) as [e | op] eqn:Eo; [discriminate |].
  rewrite bind_inr in Hw. injection Hw as <-.
  pose proof (fits_opcode _ _ Eo) as Ho.
  as_fields. pose proof (fits_land_ones 20 imm ltac:(lia)) as Hi.
  repeat split; read_fields; try reflexivity.
  replace (12 - 12) with 0 by lia. apply field_low_mod. lia.
Qed.

(** With two operands only, none of these operations is encoded. *)
Lemma parts_short lbl addr p0 a b :
  mem (Str.lower p0) (R_TYPE ++ ["rotl"; "rotr"] ++ I_ALU ++ SHIFT_IMM)
  = true ->
  assemble_parts lbl [p0; a; b] addr
  = (rd ← parse_register a; rs1 ← parse_register b; inl IndexError).
Proof.
  unfold assemble_parts. rewrite index_0, bind_inr. cbv beta zeta.
  generalize (Str.lower p0). intros instr H%mem_In. simpl in H.
  repeat (destruct H as [<- | H]; [reflexivity |]). destruct H.
Qed.

(** X21: end to end for the operations on registers and immediates: the
    word of a line, read back, names the operands of the line.  Bits 11:7
    hold the register of the first operand.  For [lui] and [auipc], bits
    31:12 hold the value of the literal.  For the others bits 19:15 hold
    the register of the second operand; then bits 31:20, sign extended,
    hold the value of the literal for the operations with a 12-bit
    immediate, bits 24:20 hold the amount for the shifts by an immediate,
    and bits 24:20 hold the register of the third operand for the
    operations on three registers. *)
Theorem X21_operands_read_back lbl line addr w p0 a b rest :
  tokenize line = p0 :: a :: b :: rest ->
  assemble_instruction lbl line addr = inr w ->
  mem (Str.lower p0)
    (R_TYPE ++ ["rotl"; "rotr"] ++ I_ALU ++ SHIFT_IMM ++ ["lui"; "auipc"])
  = true ->
  parse_register a = inr (field w 7 5)
  /\ if mem (Str.lower p0) ["lui"; "auipc"]
     then literal_value (Str.remove "," (Str.strip b)) = inr (field w 12 20)
     else parse_register b = inr (field w 15 5)
          /\ exists c,
               head rest = Some c
               /\ if mem (Str.lower p0) I_ALU
                  then literal_value (Str.remove "," (Str.strip c))
                       = inr (sign_extend 12 (field w 20 12))
                  else if mem (Str.lower p0) SHIFT_IMM
                  then literal_value (Str.remove "," (Str.strip c))
                       = inr (field w 20 5)
                  else parse_register c = inr (field w 20 5).
Proof.
  intros Htok Hw Hm. unfold assemble_instruction in Hw.
  fold (tokenize line) in Hw. rewrite Htok in Hw.
  rewrite !mem_app in Hm.
  assert (Hshort : rest = [] ->
                   mem (Str.lower p0) R_TYPE
                   || (mem (Str.lower p0) ["rotl"; "rotr"]
                       || (mem (Str.lower p0) I_ALU
                           || mem (Str.lower p0) SHIFT_IMM)) = true ->
                   False).
  { intros -> Hc. rewrite <- !mem_app in Hc.
    rewrite (parts_short _ _ _ _ _ Hc) in Hw.
    destruct (parse_register a); [discriminate |]. rewrite bind_inr in Hw.
    destruct (parse_register b); discriminate. }
  destruct (mem (Str.lower p0) ["lui"; "auipc"]) eqn:EU.
  { (* an upper immediate *)
    rewrite (parts_upper _ _ _ _ _ _ EU) in Hw.
    destruct (parse_register a) as [e | rd] eqn:Ea; [discriminate |].
    rewrite bind_inr in Hw.
    destruct (parse_immediate b 20 false) as [e | imm] eqn:Eb;
      [discriminate |].
    rewrite bind_inr in Hw.
    destruct (parse_immediate_returned b 20 false imm ltac:(lia) Eb)
      as (Hfit & v & Hv & ->).
    destruct (u_type_operands _ _ _ _ (fits_register _ _ Ea) Hw)
      as (-> & ->).
    now rewrite Z.mod_small by exact Hfit. }
  rewrite orb_false_r in Hm.
  destruct rest as [| c rest]; [destruct (Hshort eq_refl Hm) |]. clear Hshort.
  destruct (mem (Str.lower p0) I_ALU) eqn:EI.
  { (* a 12-bit immediate *)
    rewrite (parts_i_alu _ _ _ _ _ _ _ EI) in Hw.
    destruct (parse_register a) as [e | rd] eqn:Ea; [discriminate |].
    rewrite bind_inr in Hw.
    destruct (parse_register b) as [e | rs1] eqn:Eb; [discriminate |].
    rewrite bind_inr in Hw.
    destruct (parse_immediate c 12 true) as [e | imm] eqn:Ec;
      [discriminate |].
    rewrite bind_inr in Hw.
    destruct (parse_immediate_returned c 12 true imm ltac:(lia) Ec)
      as (Hfit & v & Hv & ->).
    destruct (i_type_operands _ _ _ _ _ (fits_register _ _ Ea)
                (fits_register _ _ Eb) Hw) as (-> & -> & Himm).
    assert (Hs : mem (Str.lower p0) SHIFT_IMM = false).
    { clear -EI. revert EI. generalize (Str.lower p0).
      intros i EI%mem_In. simpl in EI.
      repeat (destruct EI as [<- | EI]; [reflexivity |]). destruct EI. }
    rewrite Hs in Himm. rewrite Himm, Z.mod_small by exact Hfit.
    split; [reflexivity |]. split; [reflexivity |]. exists c.
    now split. }
  destruct (mem (Str.lower p0) SHIFT_IMM) eqn:ES.
  { (* a shift amount *)
    rewrite (parts_shift _ _ _ _ _ _ _ ES) in Hw.
    destruct (parse_register a) as [e | rd] eqn:Ea; [discriminate |].
    rewrite bind_inr in Hw.
    destruct (parse_register b) as [e | rs1] eqn:Eb; [discriminate |].
    rewrite bind_inr in Hw.
    destruct (parse_immediate c 5 false) as [e | imm] eqn:Ec;
      [discriminate |].
    rewrite bind_inr in Hw.
    destruct (parse_immediate_returned c 5 false imm ltac:(lia) Ec)
      as (Hfit & v & Hv & ->).
    destruct (i_type_operands _ _ _ _ _ (fits_register _ _ Ea)
                (fits_register _ _ Eb) Hw) as (-> & -> & Himm).
    rewrite ES in Himm. change 32 with (2 ^ 5) in Himm.
    rewrite Himm, Z.mod_small by exact Hfit.
    split; [reflexivity |]. split; [reflexivity |]. exists c.
    now split. }
  (* three registers *)
  rewrite !orb_false_r in Hm.
  assert (Hparts : assemble_parts lbl (p0 :: a :: b :: c :: rest) addr
                   = (rd ← parse_register a; rs1 ← parse_register b;
                      rs2 ← parse_register c;
                      encode_r_type (Str.lower p0) rd rs1 rs2)).
  { destruct (mem (Str.lower p0) R_TYPE) eqn:ER.
    - exact (parts_r_type _ _ _ _ _ _ _ ER).
    - exact (parts_rotate _ _ _ _ _ _ _ Hm). }
  rewrite Hparts in Hw.
  destruct (parse_register a) as [e | rd] eqn:Ea; [discriminate |].
  rewrite bind_inr in Hw.
  destruct (parse_register b) as [e | rs1] eqn:Eb; [discriminate |].
  rewrite bind_inr in Hw.
  destruct (parse_register c) as [e | rs2] eqn:Ec; [discriminate |].
  rewrite bind_inr in Hw.
  destruct (r_type_registers _ _ _ _ _ (fits_register _ _ Ea)
              (fits_register _ _ Eb) (fits_register _ _ Ec) Hw)
    as (-> & -> & ->).
  split; [reflexivity |]. split; [reflexivity |]. exists c. now split.
Qed.

Lemma X21_operands_read_back_witness :
  parse_register "t0" = inr (field 1077105299 7 5)
  /\ parse_register "x6" = inr (field 1077105299 15 5)
  /\ exists c,
       head ["3"] = Some c
       /\ literal_value (Str.remove "," (Str.strip c))
          = inr (field 1077105299 20 5).
Proof.
  exact (X21_operands_read_back ∅ "srai t0, x6, 3" 0 1077105299
           "srai" "t0" "x6" ["3"] eq_refl eq_refl eq_refl).
Defined.

(** ** The handlers of the graphical front end *)

(** X22: what the handlers of the graphical front end that assemble end
    with: [assemble], and [export_hex], [export_verilog] and [export_mem],
    which are [export_with] at [to_hex], [to_verilog] and [to_mem].  When
    the source has a line that does not encode, the [SystemExit] of
    [RISCVAssembler.assemble] leaves the handler: [except Exception] does
    not catch it, and the test of [asm.errors], with its dialog, is never
    reached.  Otherwise the outputs shown, or written to the file chosen,
    are those of the words of all the pending instructions; nothing is
    written when the file dialog is dismissed.  Assembling and serializing
    never end in an error dialog. *)
Theorem X22_front_end_handlers render listing source filename :
  let st := fst (run_passes init source) in
  export_with render source filename
  = match errors st with
    | _ :: _ => Escapes (SystemExit 1)
    | [] =>
        if Str.is_empty filename then NothingWritten
        else FileWritten filename (render st)
    end
  /\ gui_assemble listing source
     = match errors st with
       | _ :: _ => Leaves (SystemExit 1)
       | [] =>
           OutputsShown (listing st) (to_hex st) (to_verilog st)
             (length (instructions st))
       end
  /\ (forall message,
         export_with render source filename <> ErrorDialog message)
  /\ (forall e, export_with render source filename <> ExceptionDialog e)
  /\ (forall count, gui_assemble listing source <> ErrorsShown count)
  /\ (forall e, gui_assemble listing source <> ExceptionShown e).
Proof.
  intros st.
  assert (H : export_with render source filename
              = match errors st with
                | _ :: _ => Escapes (SystemExit 1)
                | [] =>
                    if Str.is_empty filename then NothingWritten
                    else FileWritten filename (render st)
                end).
  { subst st. unfold export_with, assemble.
    fold (run_passes init source). rewrite (run_passes_spec source).
    cbn [fst errors].
    destruct (diagnostics_of _ _); reflexivity. }
  assert (G : gui_assemble listing source
              = match errors st with
                | _ :: _ => Leaves (SystemExit 1)
                | [] =>
                    OutputsShown (listing st) (to_hex st) (to_verilog st)
                      (length (instructions st))
                end).
  { subst st. unfold gui_assemble, assemble.
    fold (run_passes init source). rewrite (run_passes_spec source).
    cbn [fst errors instructions machine_code].
    pose proof (words_diagnostics_length
                  (labels (first_pass init (Str.split "010" source)))
                  (instructions (first_pass init (Str.split "010" source))))
      as Hlen.
    destruct (diagnostics_of _ _); [| reflexivity].
    cbn [errors machine_code mret result_ret]. cbn [length] in Hlen.
    rewrite Nat.add_0_r in Hlen. now rewrite Hlen. }
  split; [exact H |]. split; [exact G |]. rewrite H, G.
  repeat split; intros ?; destruct (errors st); try discriminate;
    destruct (Str.is_empty filename); discriminate.
Qed.
